(** * satander_extract: holdings / transactions extraction, verified model

    A shallow embedding of [satander_extract.py] and the properties of its
    column de-duplication, date normalisation, portfolio scan, details
    decomposition and sheet segmentation.

    Text.  A Python [str] is modelled as a list of characters over the
    first 256 code points (the type [ascii] read as Latin-1).  Character
    classes ([\d], [\s], [\w], case folding) are the ones Python gives on
    that range.  Two code points (181 and 255) have capitals outside the
    range; [upper] leaves them as they are.

    Libraries of the host program.  The regular expressions of the source
    are kept as syntax trees and run by a backtracking matcher with
    Python's priorities (leftmost start, greedy repetition, first
    alternative first).  [dateutil.parser.parse] is not part of the
    repository: it is a parameter [dtparse] of the development. *)

From Stdlib Require Import Ascii String.
From Stdlib Require Import List Arith Lia Bool PeanoNat Sorted.
From Stdlib Require DecimalNat DecimalString.
Import ListNotations.
Open Scope list_scope.
Open Scope bool_scope.

Set Implicit Arguments.

(* ------------------------------------------------------------------ *)
(** ** Text primitives (Python [str] methods used by the source)       *)
(* ------------------------------------------------------------------ *)

Definition str := list ascii.

Definition lit (s : string) : str := list_ascii_of_string s.

Definition code (c : ascii) : nat := nat_of_ascii c.

Definition between (lo hi : nat) (c : ascii) : bool :=
  (lo <=? code c) && (code c <=? hi).

Definition str_eqb (a b : str) : bool :=
  if list_eq_dec ascii_dec a b then true else false.

(** [0-9], [A-Z], [a-z]. *)
Definition is_digit : ascii -> bool := between 48 57.
Definition is_AZ : ascii -> bool := between 65 90.
Definition is_az : ascii -> bool := between 97 122.

(** [str.isspace] / [\s]: TAB..CR, FS..US, space, NEL, NBSP. *)
Definition is_space (c : ascii) : bool :=
  between 9 13 c || between 28 32 c || (code c =? 133) || (code c =? 160).

(** [\w]: alphanumerics and the underscore. *)
Definition is_word (c : ascii) : bool :=
  is_digit c || is_AZ c || is_az c || (code c =? 95)
  || (code c =? 170) || between 178 179 c || (code c =? 181)
  || between 185 186 c || between 188 190 c
  || between 192 214 c || between 216 246 c || between 248 255 c.

(** Membership of a character in the argument of [strip(chars)]. *)
Definition one_of (chars : string) (c : ascii) : bool :=
  existsb (Ascii.eqb c) (lit chars).

(** [str.upper], one character at a time; 223 (sharp s) becomes "SS". *)
Definition upper_char (c : ascii) : str :=
  if is_az c || between 224 246 c || between 248 254 c
  then [ascii_of_nat (code c - 32)]
  else if code c =? 223 then lit "SS"
  else [c].

Definition upper (s : str) : str := flat_map upper_char s.

(** Lower-casing of the letters A-Z, for case-insensitive literals. *)
Definition fold_case (c : ascii) : ascii :=
  if is_AZ c then ascii_of_nat (code c + 32) else c.

Fixpoint lstrip_by (p : ascii -> bool) (s : str) : str :=
  match s with
  | c :: t => if p c then lstrip_by p t else s
  | [] => []
  end.

Definition rstrip_by (p : ascii -> bool) (s : str) : str :=
  rev (lstrip_by p (rev s)).

Definition strip_by (p : ascii -> bool) (s : str) : str :=
  rstrip_by p (lstrip_by p s).

(** [s.strip()], [s.lstrip(chars)], [s.rstrip(chars)], [s.strip(chars)]. *)
Definition strip : str -> str := strip_by is_space.
Definition lstrip (chars : string) : str -> str := lstrip_by (one_of chars).
Definition rstrip (chars : string) : str -> str := rstrip_by (one_of chars).
Definition strip_chars (chars : string) : str -> str := strip_by (one_of chars).

Fixpoint startswith (p s : str) : bool :=
  match p, s with
  | [], _ => true
  | a :: p', b :: s' => Ascii.eqb a b && startswith p' s'
  | _ :: _, [] => false
  end.

Definition endswith (s suffix : str) : bool :=
  startswith (rev suffix) (rev s).

(** [sub in s]. *)
Fixpoint contains (sub s : str) : bool :=
  startswith sub s ||
  match s with
  | [] => false
  | _ :: t => contains sub t
  end.

(** [s.replace(old, new)]: non-overlapping occurrences, left to right.
    [skip] counts the characters of an occurrence still to be dropped. *)
Fixpoint replace_go (old new : str) (skip : nat) (s : str) : str :=
  match s with
  | [] => []
  | c :: t =>
      match skip with
      | S k => replace_go old new k t
      | O => if startswith old s
             then new ++ replace_go old new (length old - 1) t
             else c :: replace_go old new 0 t
      end
  end.

Definition replace (old new s : str) : str :=
  match old with
  | [] => new ++ flat_map (fun c => c :: new) s
  | _ :: _ => replace_go old new 0 s
  end.

(** [s[a:b]] for [0 <= a], [0 <= b]. *)
Definition slice (a b : nat) (s : str) : str := firstn (b - a) (skipn a s).

(** [str(k)] for a non-negative integer. *)
Definition dec (k : nat) : str :=
  lit (DecimalString.NilEmpty.string_of_uint (Nat.to_uint k)).

(* ------------------------------------------------------------------ *)
(** ** Regular expressions ([re] as the source uses it)                *)
(* ------------------------------------------------------------------ *)

Inductive re : Type :=
| Eps
| Cls (p : ascii -> bool)          (* one character of a class *)
| Seq (r1 r2 : re)
| Alt (r1 r2 : re)                 (* r1|r2, r1 tried first *)
| Star (r : re)                    (* r*, greedy *)
| Grp (n : nat) (r : re)           (* capture group number n *)
| Bol                              (* ^ *)
| Wb.                              (* \b *)

(** Matcher state: offset in the subject, the character before it, the
    text still to read, and the spans captured so far. *)
Record mstate : Type := MState {
  pos : nat;
  prev : option ascii;
  rest : str;
  caps : list (nat * (nat * nat))
}.

Definition word_opt (c : option ascii) : bool :=
  match c with Some c => is_word c | None => false end.

Definition at_boundary (st : mstate) : bool :=
  xorb (word_opt (prev st)) (word_opt (hd_error (rest st))).

Section Run.
Variable A : Type.

Fixpoint run (r : re) (st : mstate) (k : mstate -> option A) : option A :=
  match r with
  | Eps => k st
  | Cls p =>
      match rest st with
      | c :: t => if p c
                  then k (MState (S (pos st)) (Some c) t (caps st))
                  else None
      | [] => None
      end
  | Seq r1 r2 => run r1 st (fun st1 => run r2 st1 k)
  | Alt r1 r2 =>
      match run r1 st k with
      | Some x => Some x
      | None => run r2 st k
      end
  | Star r1 =>
      (fix loop (n : nat) (st : mstate) : option A :=
         match n with
         | O => k st
         | S n' =>
             match run r1 st (fun st1 => if pos st <? pos st1
                                         then loop n' st1 else None) with
             | Some x => Some x
             | None => k st
             end
         end) (S (length (rest st))) st
  | Grp n r1 =>
      run r1 st (fun st1 =>
        k (MState (pos st1) (prev st1) (rest st1)
                  ((n, (pos st, pos st1)) :: caps st1)))
  | Bol => if pos st =? 0 then k st else None
  | Wb => if at_boundary st then k st else None
  end.
End Run.

(** A match object: start, end, captured spans. *)
Record mobj : Type := MObj {
  mstart : nat;
  mend : nat;
  mcaps : list (nat * (nat * nat))
}.

Definition attempt (r : re) (n : nat) (p : option ascii) (s : str)
    (k : mstate -> option mstate) : option mobj :=
  match run r (MState n p s []) k with
  | Some st => Some (MObj n (pos st) (caps st))
  | None => None
  end.

(** [re.match(r, s)]. *)
Definition rmatch (r : re) (s : str) : option mobj :=
  attempt r 0 None s Some.

(** [r.fullmatch(s)]. *)
Definition fullmatch (r : re) (s : str) : option mobj :=
  attempt r 0 None s
    (fun st => match rest st with [] => Some st | _ :: _ => None end).

(** [r.search(s)]: the leftmost start that matches. *)
Fixpoint search_from (r : re) (n : nat) (p : option ascii) (s : str)
    : option mobj :=
  match attempt r n p s Some with
  | Some m => Some m
  | None =>
      match s with
      | [] => None
      | c :: t => search_from r (S n) (Some c) t
      end
  end.

Definition search (r : re) (s : str) : option mobj := search_from r 0 None s.

(** [r.finditer(s)]: successive non-overlapping matches. [skip] counts
    the characters of the previous match still to be passed. *)
Fixpoint finditer_from (r : re) (skip n : nat) (p : option ascii) (s : str)
    : list mobj :=
  match skip with
  | S k =>
      match s with
      | [] => []
      | c :: t => finditer_from r k (S n) (Some c) t
      end
  | O =>
      match attempt r n p s Some with
      | Some m =>
          m :: match s with
               | [] => []
               | c :: t => finditer_from r (mend m - n - 1) (S n) (Some c) t
               end
      | None =>
          match s with
          | [] => []
          | c :: t => finditer_from r 0 (S n) (Some c) t
          end
      end
  end.

(** [m.group(0)] and [m.group(n)] on the subject [s]. *)
Definition group0 (s : str) (m : mobj) : str := slice (mstart m) (mend m) s.

Fixpoint cap_lookup (n : nat) (l : list (nat * (nat * nat)))
    : option (nat * nat) :=
  match l with
  | [] => None
  | (i, span) :: t => if i =? n then Some span else cap_lookup n t
  end.

Definition group (n : nat) (s : str) (m : mobj) : str :=
  match cap_lookup n (mcaps m) with
  | Some (a, b) => slice a b s
  | None => []
  end.

(** [r.findall(s)] for a pattern with one group. *)
Definition findall1 (r : re) (s : str) : list str :=
  map (group 1 s) (finditer_from r 0 0 None s).

(** Derived forms. *)
Definition seqs (rs : list re) : re := fold_right Seq Eps rs.
Definition opt (r : re) : re := Alt r Eps.
Definition plus (r : re) : re := Seq r (Star r).
Fixpoint times (n : nat) (r : re) : re :=
  match n with
  | O => Eps
  | S n' => Seq r (times n' r)
  end.
Definition at_least (n : nat) (r : re) : re := Seq (times n r) (Star r).

(** A literal, case-sensitive or under [re.I]. *)
Definition chr (c : ascii) : re := Cls (Ascii.eqb c).
Definition chr_i (c : ascii) : re :=
  Cls (fun x => Ascii.eqb (fold_case x) (fold_case c)).
Definition word (s : string) : re := seqs (map chr (lit s)).
Definition word_i (s : string) : re := seqs (map chr_i (lit s)).

(** Classes of the source's patterns, on the code points 0 to 255 of
    the text model. Under [re.I] the letter classes of Python also take
    four characters beyond that range (U+0130, U+0131, U+017F, U+212A),
    which no text of the model holds. *)
Definition AZ_i (c : ascii) : bool := is_AZ c || is_az c.
Definition AZ_sp (c : ascii) : bool := is_AZ c || one_of " " c.
Definition code_i (c : ascii) : bool :=
  AZ_i c || is_digit c || one_of ".-" c.
Definition num_tail (c : ascii) : bool := is_digit c || one_of ",." c.
Definition colon_sp (c : ascii) : bool := one_of ":" c || is_space c.

(* ------------------------------------------------------------------ *)
(** ** Constants of the module                                         *)
(* ------------------------------------------------------------------ *)

Definition digit : re := Cls is_digit.
Definition ws : re := Cls is_space.
Definition number : re := Seq digit (Star (Cls num_tail)).   (* r"\d[\d,.]*" *)

(** r"ADVICE#\s*[:#]?\s*-?\s*([A-Z0-9.\-]+)", re.I *)
Definition RE_ADVICE : re :=
  seqs [word_i "ADVICE#"; Star ws; opt (Cls (one_of ":#")); Star ws;
        opt (chr "-"); Star ws; Grp 1 (plus (Cls code_i))].

(** r"\bFX\d{8,}\b", re.I *)
Definition RE_FX_CODE : re :=
  seqs [Wb; word_i "FX"; at_least 8 digit; Wb].

(** r"\b[A-Z]{4,}\d{6,}[A-Z0-9.\-]*\b", re.I *)
Definition RE_GENERIC_ADV : re :=
  seqs [Wb; at_least 4 (Cls AZ_i); at_least 6 digit; Star (Cls code_i); Wb].

(** r"\b([A-Z]{3})\b" *)
Definition RE_CCY : re :=
  seqs [Wb; Grp 1 (times 3 (Cls is_AZ)); Wb].

(** r"\b(NUM)/\s*(NUM)\b" with NUM = r"\d[\d,.]*" *)
Definition RE_SLASH_QTY : re :=
  seqs [Wb; Grp 1 number; chr "/"; Star ws; Grp 2 number; Wb].

(** r"\b\d[\d,.]*\b" *)
Definition RE_QTY_STANDALONE : re :=
  seqs [Wb; number; Wb].

(** r"QUANTIDADE\s*1[:\s]+(NUM)", re.I *)
Definition RE_QTY_PT1 : re :=
  seqs [word_i "QUANTIDADE"; Star ws; chr "1"; plus (Cls colon_sp);
        Grp 1 number].

(** r"QUANTIDADE\s*2[:\s]+(NUM)", re.I *)
Definition RE_QTY_PT2 : re :=
  seqs [word_i "QUANTIDADE"; Star ws; chr "2"; plus (Cls colon_sp);
        Grp 1 number].

(** r"\b\d{2}[A-Z]{3}\d{2}\b" *)
Definition RE_DATE_TOKEN : re :=
  seqs [Wb; times 2 digit; times 3 (Cls is_AZ); times 2 digit; Wb].

(** The patterns written in line in the source. *)
Definition RE_TIPO : re := seqs [Bol; plus (Cls AZ_sp)].         (* r"^[A-Z ]+" *)
Definition RE_ADVICE_TYPE : re :=                                (* r"[A-Z ]+ADVICE" *)
  seqs [plus (Cls AZ_sp); word "ADVICE"].
Definition RE_CONTA : re :=                                      (* r"CONTA\s*#\s*(\d+)", re.I *)
  seqs [word_i "CONTA"; Star ws; chr "#"; Star ws; Grp 1 (plus digit)].
Definition RE_DATA_DATE : re :=                                  (* r"DATA|DATE", re.I *)
  Alt (word_i "DATA") (word_i "DATE").

Definition MONTH_PT_EN : list (str * str) :=
  map (fun p => (lit (fst p), lit (snd p)))
    [("JAN", "JAN"); ("FEV", "FEB"); ("MAR", "MAR"); ("ABR", "APR");
     ("MAI", "MAY"); ("JUN", "JUN"); ("JUL", "JUL"); ("AGO", "AUG");
     ("SET", "SEP"); ("OUT", "OCT"); ("NOV", "NOV"); ("DEZ", "DEC")]%string.

Definition KEYWORDS_SKIP : list str :=
  map lit ["RESUMO DE ATIVOS"; "NOME DO ATIVO"; "RENDA FIXA"; "CURTO PRAZO";
           "TOTAL"]%string.

Definition CURRENCIES : list str :=
  map lit ["USD"; "EUR"; "GBP"; "CHF"; "BRL"; "CAD"; "JPY"]%string.

Definition mem (x : str) (l : list str) : bool := existsb (str_eqb x) l.

(* ------------------------------------------------------------------ *)
(** ** Cells and records                                               *)
(* ------------------------------------------------------------------ *)

(** A cell of a sheet read with [dtype=object]: empty (NaN / None), a
    string, or a value of another type (number, timestamp, ...), which
    is carried with the text [str()] gives for it. *)
Inductive cell : Type :=
| CEmpty
| CStr (s : str)
| COther (repr : str).

Definition cell_eq_dec (a b : cell) : {a = b} + {a <> b}.
Proof. decide equality; apply (list_eq_dec ascii_dec). Defined.

(** [str(v)]. *)
Definition cell_str (v : cell) : str :=
  match v with
  | CEmpty => lit "nan"
  | CStr s => s
  | COther r => r
  end.

Definition is_str (v : cell) : bool :=
  match v with CStr _ => true | _ => false end.

Definition isna (v : cell) : bool :=
  match v with CEmpty => true | _ => false end.

(** [UPPER_STRIP]: [str(s).upper().strip()] on a string, the empty
    string on anything else. *)
Definition UPPER_STRIP (v : cell) : str :=
  match v with
  | CStr s => strip (upper s)
  | _ => []
  end.

(** A Python [dict] with string keys: entries in insertion order. *)
Definition dict := list (str * cell).

Fixpoint dict_get (k : str) (d : dict) : option cell :=
  match d with
  | [] => None
  | (k', v) :: t => if str_eqb k' k then Some v else dict_get k t
  end.

Definition dict_has (k : str) (d : dict) : bool :=
  match dict_get k d with Some _ => true | None => false end.

(** [d[k] = v]: overwrite in place, or append. *)
Fixpoint dict_set (d : dict) (k : str) (v : cell) : dict :=
  match d with
  | [] => [(k, v)]
  | (k', v') :: t =>
      if str_eqb k' k then (k', v) :: t else (k', v') :: dict_set t k v
  end.

Definition keys (d : dict) : list str := map fst d.

(** [x or None] on an optional string, as a cell. *)
Definition opt_cell (o : option str) : cell :=
  match o with Some s => CStr s | None => CEmpty end.

(** [s or y]. *)
Definition or_else (s y : str) : str :=
  match s with [] => y | _ :: _ => s end.

(* ------------------------------------------------------------------ *)
(** ** _dedup_columns                                                  *)
(* ------------------------------------------------------------------ *)

(** [seen: Dict[str, int]], read with [seen.get(col, 0)]. *)
Definition counter := list (str * nat).

Fixpoint seen_get (seen : counter) (col : str) : nat :=
  match seen with
  | [] => 0
  | (c, k) :: t => if str_eqb c col then k else seen_get t col
  end.

Fixpoint seen_set (seen : counter) (col : str) (k : nat) : counter :=
  match seen with
  | [] => [(col, k)]
  | (c, k') :: t =>
      if str_eqb c col then (c, k) :: t else (c, k') :: seen_set t col k
  end.

(** [f"{col}_{k}" if k else col] *)
Definition suffixed (col : str) (k : nat) : str :=
  match k with
  | O => col
  | S _ => col ++ lit "_" ++ dec k
  end.

(** The loop of [_dedup_columns], over the names [c or "_"]. *)
Fixpoint dedup_loop (seen : counter) (cols : list str) : list str :=
  match cols with
  | [] => []
  | col :: t =>
      let k := seen_get seen col in
      suffixed col k :: dedup_loop (seen_set seen col (k + 1)) t
  end.

(** A column name handed to [_dedup_columns]: a string or [None];
    the generator [c or "_"] replaces a falsy one. *)
Definition name_or_placeholder (c : option str) : str :=
  match c with
  | Some ((_ :: _) as s) => s
  | _ => lit "_"
  end.

Definition _dedup_columns (cols : list (option str)) : list str :=
  dedup_loop [] (map name_or_placeholder cols).

(* ------------------------------------------------------------------ *)
(** ** normalize_date                                                  *)
(* ------------------------------------------------------------------ *)

(** The calendar fields that [strftime("%d/%m/%Y")] prints. *)
Record date : Type := Date { day : nat; month : nat; year : nat }.

(** Zero-padded decimal, as [%d] and [%m] (width 2). *)
Definition pad (w n : nat) : str :=
  repeat "0"%char (w - length (dec n)) ++ dec n.

(** [.strftime("%d/%m/%Y")]. The year is printed by the C library, which
    does not pad it: a year below 1000 comes out with fewer than four
    digits. *)
Definition strftime (d : date) : str :=
  pad 2 (day d) ++ lit "/" ++ pad 2 (month d) ++ lit "/" ++ dec (year d).

(** [for pt, en in MONTH_PT_EN.items(): s = s.replace(pt, en)] *)
Definition translate_months (s : str) : str :=
  fold_left (fun s p => replace (fst p) (snd p) s) MONTH_PT_EN s.

(** The text handed to the date parser: lines 91-95 of the source. *)
Definition date_text (v : str) : str :=
  let s := upper (strip v) in
  let s := translate_months s in
  match fullmatch RE_DATE_TOKEN s with
  | Some _ => firstn 2 s ++ lit " " ++ slice 2 5 s ++ lit " 20" ++ skipn 5 s
  | None => s
  end.

(** [_clean_num] *)
Definition _clean_num (s : str) : str :=
  or_else (lstrip "0" (replace (lit ",") [] s)) (lit "0").

(** [rest[:m.start()] + rest[m.end():]] *)
Definition excise (s : str) (m : mobj) : str :=
  firstn (mstart m) s ++ skipn (mend m) s.

(** [_extract_advice] *)
Definition _extract_advice (rest : str) : option str * str :=
  match search RE_ADVICE rest with
  | Some m =>
      let code := group 1 rest m in
      let rest := excise rest m in
      (Some (strip_chars " /-" code), strip_chars " /-" rest)
  | None =>
      match search RE_FX_CODE rest with
      | Some m =>
          let code := group0 rest m in
          let rest := excise rest m in
          (Some code, strip_chars " /-" rest)
      | None =>
          match search RE_GENERIC_ADV rest with
          | Some m =>
              let code := group0 rest m in
              let rest := excise rest m in
              (Some code, strip_chars " /-" rest)
          | None => (None, rest)
          end
      end
  end.

(** Keys of the record built by [parse_details]. *)
Definition Det_Tipo : str := lit "Det_Tipo".
Definition Det_Advice : str := lit "Det_Advice".
Definition Det_Qty1 : str := lit "Det_Qty1".
Definition Det_Qty2 : str := lit "Det_Qty2".
Definition Det_Ccy : str := lit "Det_Ccy".
Definition Det_Date : str := lit "Det_Date".
Definition Det_AdviceType : str := lit "Det_AdviceType".
Definition Det_AssetName : str := lit "Det_AssetName".

(** Lines 130-133: the type and what follows it. *)
Definition tipo_stage (txt : str) : option str * str :=
  match rmatch RE_TIPO txt with
  | Some m => (Some (strip (group0 txt m)),
               strip (lstrip " /-" (skipn (mend m) txt)))
  | None => (None, txt)
  end.

(** Lines 139-157: the quantities; returns [out] and [qty_end]. *)
Definition quantity_stage (tipo : option str) (rest : str) (out : dict)
    : dict * nat :=
  match search RE_SLASH_QTY rest with
  | Some m =>
      let out := dict_set out Det_Qty1 (CStr (_clean_num (group 1 rest m))) in
      let out := dict_set out Det_Qty2 (CStr (_clean_num (group 2 rest m))) in
      (out, mend m)
  | None =>
      let '(out, qty_end) :=
        match search RE_QTY_PT1 rest with
        | Some mq1 =>
            (dict_set out Det_Qty1 (CStr (_clean_num (group 1 rest mq1))),
             mend mq1)
        | None => (out, 0)
        end in
      let '(out, qty_end) :=
        match search RE_QTY_PT2 rest with
        | Some mq2 =>
            (dict_set out Det_Qty2 (CStr (_clean_num (group 1 rest mq2))),
             Nat.max qty_end (mend mq2))
        | None => (out, qty_end)
        end in
      if contains (lit "SECURITIES") (match tipo with Some t => t | None => [] end)
         && negb (dict_has Det_Qty1 out)
      then match search RE_QTY_STANDALONE rest with
           | Some mnum =>
               (dict_set out Det_Qty1 (CStr (_clean_num (group0 rest mnum))),
                mend mnum)
           | None => (out, qty_end)
           end
      else (out, qty_end)
  end.

(** Line 159: [rest[qty_end:].lstrip(' -/').strip()] *)
Definition after_quantity (rest : str) (qty_end : nat) : str :=
  strip (lstrip " -/" (skipn qty_end rest)).

(** Lines 161-167: the currency; returns [ccy] and [remaining]. *)
Definition currency_stage (rest remaining : str) : option str * str :=
  match find (fun c => mem c CURRENCIES)
             (rev (findall1 RE_CCY (or_else remaining rest))) with
  | Some ccy =>
      (Some ccy,
       if endswith (upper remaining) ccy
       then strip (rstrip " -" (firstn (length remaining - length ccy) remaining))
       else remaining)
  | None => (None, remaining)
  end.

(** [if advice: out[k] = advice] *)
Definition set_if_text (out : dict) (k : str) (o : option str) : dict :=
  match o with
  | Some ((_ :: _) as a) => dict_set out k (CStr a)
  | _ => out
  end.

(** Lines 175-177: the advice type, searched in the whole text. *)
Definition advice_type_stage (txt : str) (out : dict) : dict :=
  match search RE_ADVICE_TYPE txt with
  | Some madv => dict_set out Det_AdviceType (CStr (strip (group0 txt madv)))
  | None => out
  end.

Section Dates.
(** [dateutil.parser.parse(s, dayfirst=True)]: [None] when it raises. *)
Variable dtparse : str -> option date.

(** [normalize_date] *)
Definition normalize_date (v : cell) : cell :=
  match v with
  | CStr s =>
      match dtparse (date_text s) with
      | Some d => CStr (strftime d)
      | None => v
      end
  | _ => v
  end.

(** Lines 170-173: the date token; returns [out] and [remaining]. *)
Definition date_stage (remaining : str) (out : dict) : dict * str :=
  match search RE_DATE_TOKEN remaining with
  | Some mdt =>
      let tok := group0 remaining mdt in
      (dict_set out Det_Date (normalize_date (CStr tok)),
       strip (replace tok [] remaining))
  | None => (out, remaining)
  end.

(** [parse_details] *)
Definition parse_details (raw : cell) : dict :=
  match raw with
  | CStr raw =>
      let txt := strip raw in
      let out : dict := [] in
      let '(tipo, rest) := tipo_stage txt in
      let out := dict_set out Det_Tipo (opt_cell tipo) in
      let '(advice, rest) := _extract_advice rest in
      let out := set_if_text out Det_Advice advice in
      let '(out, qty_end) := quantity_stage tipo rest out in
      let remaining := after_quantity rest qty_end in
      let '(ccy, remaining) := currency_stage rest remaining in
      let out := dict_set out Det_Ccy (opt_cell ccy) in
      let '(out, remaining) := date_stage remaining out in
      let out := advice_type_stage txt out in
      dict_set out Det_AssetName
        (match remaining with [] => CEmpty | _ :: _ => CStr remaining end)
  | _ => []
  end.
End Dates.

(* ------------------------------------------------------------------ *)
(** ** Sheets and tables                                               *)
(* ------------------------------------------------------------------ *)

(** A sheet as [wb.parse(sheet, header=None, dtype=object)] gives it:
    rows of cells, row [i] carrying the index label [i]. *)
Definition grid := list (list cell).

(** A table cut out of a sheet: column names, and rows that keep the
    index label of the sheet row they come from. *)
Record frame : Type := Frame {
  columns : list str;
  rows : list (nat * list cell)
}.

(** Raising code: [None] stands for an exception leaving the function. *)
Definition bind {A B : Type} (m : option A) (f : A -> option B) : option B :=
  match m with
  | Some a => f a
  | None => None
  end.

Notation "x <- m ;; k" := (bind m (fun x => k))
  (at level 61, m at next level, right associativity).

Fixpoint first_some {A B : Type} (f : A -> option B) (l : list A) : option B :=
  match l with
  | [] => None
  | x :: t =>
      match f x with
      | Some y => Some y
      | None => first_some f t
      end
  end.

Definition enumerate {A : Type} (l : list A) : list (nat * A) :=
  combine (seq 0 (length l)) l.

(** [df.iloc[a:b]], with the index labels. *)
Definition iloc_rows (a b : nat) (df : grid) : list (nat * list cell) :=
  firstn (b - a) (skipn a (enumerate df)).

(** [df.iat[r, c]] *)
Definition iat (df : grid) (r c : nat) : cell := nth c (nth r df []) CEmpty.

(** [.dropna(how="all")] *)
Definition dropna_all (body : list (nat * list cell)) : list (nat * list cell) :=
  filter (fun row => negb (forallb isna (snd row))) body.

(** [.iloc[:, 0]] of one row. *)
Definition first_cell (row : nat * list cell) : cell := hd CEmpty (snd row).

(** [[str(v).strip() for v in header]] *)
Definition header_names (header : list cell) : list (option str) :=
  map (fun v => Some (strip (cell_str v))) header.

Definition insert_at {A : Type} (loc : nat) (x : A) (l : list A) : list A :=
  firstn loc l ++ x :: skipn loc l.

(** [data.insert(loc, name, value)]: pandas raises [ValueError] when the
    name is already a column. *)
Definition frame_insert (loc : nat) (name : str) (value : cell) (f : frame)
    : option frame :=
  if mem name (columns f) then None
  else Some (Frame (insert_at loc name (columns f))
                   (map (fun row => (fst row, insert_at loc value (snd row)))
                        (rows f))).

(** [extract_portfolio_id] *)
Definition conta_number (v : cell) : option str :=
  match search RE_CONTA (cell_str v) with
  | Some m => Some (group 1 (cell_str v) m)
  | None => None
  end.

Definition extract_portfolio_id (df : grid) : option str :=
  first_some
    (fun row => first_some conta_number (filter (fun v => negb (isna v)) row))
    (firstn (Nat.min 15 (length df)) df).

(** Sentinel texts. The second anchor is "NÚMERO DE CONTA" (U with
    acute accent, code point 218). *)
Definition HOLDINGS_ANCHORS : list str :=
  [lit "ISIN"; lit "N" ++ ["218"%char] ++ lit "MERO DE CONTA"].

Definition DETAILS_NAMES : list str := [lit "DETALHES"; lit "DETAILS"].

Definition is_anchor (v : cell) : bool := mem (UPPER_STRIP v) HOLDINGS_ANCHORS.

(** [re.search(r"DATA|DATE", col, re.I)] *)
Definition is_date_col (col : str) : bool :=
  match search RE_DATA_DATE col with
  | Some _ => true
  | None => false
  end.

Definition count_name (c : str) (cols : list str) : nat :=
  length (filter (str_eqb c) cols).

Fixpoint apply_where (flags : list bool) (f : cell -> cell) (r : list cell)
    : list cell :=
  match r, flags with
  | v :: r', b :: fl => (if b then f v else v) :: apply_where fl f r'
  | _, _ => r
  end.

(** The anchors of a holdings sheet, in row-major order. *)
Definition anchors_in_row (r : nat) (row : list cell) : list (nat * nat) :=
  map (fun cv => (r, fst cv)) (filter (fun cv => is_anchor (snd cv)) (enumerate row)).

Definition holdings_headers (df : grid) : list (nat * nat) :=
  flat_map (fun rrow => anchors_in_row (fst rrow) (snd rrow)) (enumerate df).

(** The body of the anchor at row [r]: lines 193-194. *)
Definition holdings_body (df : grid) (r next_r : nat) : list (nat * list cell) :=
  filter (fun row => negb (mem (UPPER_STRIP (first_cell row)) KEYWORDS_SKIP))
         (dropna_all (iloc_rows (r + 1) next_r df)).

(** The body of the anchor row at [start]: line 216. *)
Definition transactions_body (df : grid) (start stop : nat)
    : list (nat * list cell) :=
  dropna_all (iloc_rows (start + 1) stop df).

(** [_dedup_columns([str(v).strip() for v in header])[:len(data.columns)]] *)
Definition body_columns (df : grid) (r : nat) (width : nat) : list str :=
  firstn width (_dedup_columns (header_names (nth r df []))).

Definition ncols (df : grid) : nat :=
  match df with
  | [] => 0
  | row :: _ => length row
  end.

(** [pd.Series(d)] laid out on given columns: a missing key or [None]
    is an empty cell. *)
Definition series_row (cols : list str) (d : dict) : list cell :=
  map (fun k => match dict_get k d with Some v => v | None => CEmpty end) cols.

(** Column labels of [.apply(pd.Series)]: the keys, in order of first
    appearance down the rows. *)
Fixpoint union_keys (acc : list str) (ds : list dict) : list str :=
  match ds with
  | [] => acc
  | d :: t =>
      union_keys (acc ++ filter (fun k => negb (mem k acc)) (keys d)) t
  end.

Section Sheets.
Variable dtparse : str -> option date.

(** [for col in data.columns: if re.search(...): data[col] =
    data[col].apply(normalize_date)].  When a label occurs more than
    once, [data[col]] is a table and [apply] hands whole columns to
    [normalize_date], which returns them as they are. *)
Definition normalize_date_columns (f : frame) : frame :=
  let flags := map (fun c => is_date_col c && (count_name c (columns f) =? 1))
                   (columns f) in
  Frame (columns f)
        (map (fun row => (fst row, apply_where flags (normalize_date dtparse) (snd row)))
             (rows f)).

(** Lines 197-206 for one anchor with a non-empty body. *)
Definition holdings_subtable (df : grid) (portfolio : str) (r c : nat)
    (data : list (nat * list cell)) : option frame :=
  let data := Frame (body_columns df r (ncols df)) data in
  let asset_type :=
    if (0 <? r) && (0 <? c) then CStr (UPPER_STRIP (iat df (r - 1) (c - 1)))
    else CEmpty in
  let asset_name :=
    if 0 <? c then CStr (strip (cell_str (iat df r (c - 1)))) else CEmpty in
  data <- frame_insert 0 (lit "Portfolio") (CStr portfolio) data ;;
  data <- frame_insert 1 (lit "AssetType") asset_type data ;;
  data <- frame_insert 2 (lit "AssetName") asset_name data ;;
  Some (normalize_date_columns data).

(** The loop over [enumerate(headers)]. *)
Fixpoint holdings_loop (df : grid) (portfolio : str)
    (headers : list (nat * nat)) : option (list frame) :=
  match headers with
  | [] => Some []
  | (r, c) :: later =>
      let next_r := match later with
                    | (r', _) :: _ => r'
                    | [] => length df
                    end in
      match holdings_body df r next_r with
      | [] => holdings_loop df portfolio later
      | data =>
          sub <- holdings_subtable df portfolio r c data ;;
          subtables <- holdings_loop df portfolio later ;;
          Some (sub :: subtables)
      end
  end.

(** [parse_holdings_sheet] *)
Definition parse_holdings_sheet (df : grid) (portfolio : str)
    : option (list frame) :=
  holdings_loop df portfolio (holdings_headers df).

(** Lines 220-223: the details column, decomposed and appended. *)
Definition expand_details (body : frame) : frame :=
  match find (fun cn => mem (UPPER_STRIP (CStr (snd cn))) DETAILS_NAMES)
             (enumerate (columns body)) with
  | Some (j, _) =>
      let ds := map (fun row => parse_details dtparse (nth j (snd row) CEmpty))
                    (rows body) in
      let new_cols := union_keys [] ds in
      Frame (columns body ++ new_cols)
            (map (fun rd => (fst (fst rd), snd (fst rd) ++ series_row new_cols (snd rd)))
                 (combine (rows body) ds))
  | None => body
  end.

(** Lines 219-228 for one anchor row with a non-empty body. *)
Definition transactions_subtable (df : grid) (portfolio : str) (start : nat)
    (body : list (nat * list cell)) : option frame :=
  let body := Frame (body_columns df start (ncols df)) body in
  let body := expand_details body in
  let body := normalize_date_columns body in
  frame_insert 0 (lit "Portfolio") (CStr portfolio) body.

Fixpoint transactions_loop (df : grid) (portfolio : str) (idxs : list nat)
    : option (list frame) :=
  match idxs with
  | [] => Some []
  | start :: later =>
      let stop := match later with
                  | next :: _ => next
                  | [] => length df
                  end in
      match transactions_body df start stop with
      | [] => transactions_loop df portfolio later
      | body =>
          sub <- transactions_subtable df portfolio start body ;;
          out <- transactions_loop df portfolio later ;;
          Some (sub :: out)
      end
  end.

(** [parse_transactions_sheet]; [df.iloc[:, 0]] raises [IndexError] on
    a sheet without columns. *)
Definition parse_transactions_sheet (df : grid) (portfolio : str)
    : option (list frame) :=
  match ncols df with
  | O => None
  | S _ =>
      let idxs := map fst (filter (fun row => str_eqb (UPPER_STRIP (first_cell row))
                                                      (lit "CARTEIRA"))
                                  (enumerate df)) in
      transactions_loop df portfolio idxs
  end.
End Sheets.

(* ------------------------------------------------------------------ *)
(** ** A reference day-first parser                                    *)
(* ------------------------------------------------------------------ *)

(** An instance for the parameter [dtparse], used where a statement is
    evaluated on a concrete input.  It reads the shapes the module
    itself produces, "DD MON YYYY", "DD/MM/YYYY" and, for a year below
    100, "DD/MM/YY", and rejects everything else.  As the library does,
    it takes a year written with four digits as it stands and a year
    written with two digits in the century around the running year
    (2026: 76 to 99 are 1976 to 1999, 00 to 75 are 2000 to 2075), and
    it rejects a day the month does not have. *)
Fixpoint digits_value (acc : nat) (s : str) : option nat :=
  match s with
  | [] => Some acc
  | c :: t => if is_digit c then digits_value (10 * acc + (code c - 48)) t
              else None
  end.

Definition MONTHS_EN : list str :=
  map lit ["JAN"; "FEB"; "MAR"; "APR"; "MAY"; "JUN"; "JUL"; "AUG"; "SEP";
           "OCT"; "NOV"; "DEC"]%string.

Fixpoint index_of (x : str) (l : list str) (i : nat) : option nat :=
  match l with
  | [] => None
  | y :: t => if str_eqb x y then Some i else index_of x t (S i)
  end.

Definition leap_year (y : nat) : bool :=
  (y mod 4 =? 0) && (negb (y mod 100 =? 0) || (y mod 400 =? 0)).

Definition days_in_month (m y : nat) : nat :=
  match m with
  | 2 => if leap_year y then 29 else 28
  | 4 | 6 | 9 | 11 => 30
  | _ => 31
  end.

Definition valid_date (d m y : nat) : option date :=
  if (1 <=? d) && (d <=? days_in_month m y) && (1 <=? m) && (m <=? 12)
     && (1 <=? y) && (y <=? 99 * 101)
  then Some (Date d m y) else None.

Definition two_digit_year (y : nat) : nat :=
  if 76 <=? y then 1900 + y else 2000 + y.

(** The day, the month and the year written in the text. *)
Definition read_fields (s : str) : option (nat * nat * nat) :=
  match s with
  | d1 :: d2 :: sep :: t =>
      d <- digits_value 0 [d1; d2] ;;
      if Ascii.eqb sep "/" then
        match t with
        | [m1; m2; sep2; y1; y2; y3; y4] =>
            if Ascii.eqb sep2 "/" then
              m <- digits_value 0 [m1; m2] ;;
              y <- digits_value 0 [y1; y2; y3; y4] ;;
              Some (d, m, y)
            else None
        | [m1; m2; sep2; y1; y2] =>
            if Ascii.eqb sep2 "/" then
              m <- digits_value 0 [m1; m2] ;;
              y <- digits_value 0 [y1; y2] ;;
              Some (d, m, two_digit_year y)
            else None
        | _ => None
        end
      else if Ascii.eqb sep " " then
        match t with
        | [m1; m2; m3; sep2; y1; y2; y3; y4] =>
            if Ascii.eqb sep2 " " then
              m <- index_of [m1; m2; m3] MONTHS_EN 1 ;;
              y <- digits_value 0 [y1; y2; y3; y4] ;;
              Some (d, m, y)
            else None
        | _ => None
        end
      else None
  | _ => None
  end.

Definition parse_dmy (s : str) : option date :=
  f <- read_fields s ;;
  valid_date (fst (fst f)) (snd (fst f)) (snd f).

(* ------------------------------------------------------------------ *)
(** ** Vocabulary of the statements, and sample inputs                 *)
(* ------------------------------------------------------------------ *)

Unset Implicit Arguments.



(** The first narration of the specification. *)
Definition narration_purchase : str :=
  lit "SECURITIES PURCHASE ADVICE#: AB123.45 1,000/500 USD 15MAI23 PETROBRAS".

(** The second narration of the specification. *)
Definition narration_sale : str := lit "SECURITIES SALE 250 EUR VALE".




(** An entry that is either missing or holds a string. *)
Definition absent_or_text (o : option cell) : Prop :=
  o = None \/ exists x, o = Some (CStr x).

(** No input name is another input name followed by a generated suffix. *)
Definition no_suffix_clash (names : list str) : Prop :=
  forall a b k, In a names -> In b names -> 1 <= k ->
                b <> a ++ lit "_" ++ dec k.

(** [matches r st st']: from state [st] the pattern [r] can read up to
    state [st']. *)
Inductive matches : re -> mstate -> mstate -> Prop :=
| M_Eps st : matches Eps st st
| M_Cls p st c t :
    rest st = c :: t -> p c = true ->
    matches (Cls p) st (MState (S (pos st)) (Some c) t (caps st))
| M_Seq r1 r2 st st1 st2 :
    matches r1 st st1 -> matches r2 st1 st2 -> matches (Seq r1 r2) st st2
| M_AltL r1 r2 st st1 : matches r1 st st1 -> matches (Alt r1 r2) st st1
| M_AltR r1 r2 st st1 : matches r2 st st1 -> matches (Alt r1 r2) st st1
| M_Star0 r st : matches (Star r) st st
| M_StarS r st st1 st2 :
    matches r st st1 -> matches (Star r) st1 st2 -> matches (Star r) st st2
| M_Grp n r st st1 :
    matches r st st1 ->
    matches (Grp n r) st
      (MState (pos st1) (prev st1) (rest st1) ((n, (pos st, pos st1)) :: caps st1))
| M_Bol st : pos st = 0 -> matches Bol st st
| M_Wb st : at_boundary st = true -> matches Wb st st.

#[local] Hint Constructors matches : core.

(** The text from which [extract_portfolio_id] takes a number: the word
    CONTA in any case, blanks, "#", blanks, then the digits captured. *)
Definition conta_shape (txt num : str) : Prop :=
  exists pre w sp1 sp2 post,
    txt = pre ++ w ++ sp1 ++ lit "#" ++ sp2 ++ num ++ post
    /\ map fold_case w = lit "conta"
    /\ Forall (fun c => is_space c = true) sp1
    /\ Forall (fun c => is_space c = true) sp2
    /\ Forall (fun c => is_digit c = true) num
    /\ num <> [].


(** None of the three inserted labels is already a column. *)
Definition metadata_free (cols : list str) : Prop :=
  mem (lit "Portfolio") cols = false
  /\ mem (lit "AssetType") cols = false
  /\ mem (lit "AssetName") cols = false.

(** A holdings sheet with two anchors, a TOTAL row under each and an
    empty row. *)
Definition sheet_two_anchors : grid :=
  [ [CStr (lit "Renda Fixa"); CEmpty; CEmpty];
    [CStr (lit "Tesouro"); CStr (lit "isin"); CStr (lit "Data Compra")];
    [CEmpty; CStr (lit "BR0001"); CStr (lit "15MAI23")];
    [CStr (lit " total "); CStr (lit "x"); CEmpty];
    [CEmpty; CEmpty; CEmpty];
    [CStr (lit "Fundo"); CStr (lit "ISIN "); CStr (lit "Valor")];
    [CStr (lit "Total"); CEmpty; COther (lit "10.0")];
    [CEmpty; CStr (lit "BR0002"); COther (lit "7.5")] ].

(** A sheet with two anchors whose first header row has a cell
    reading Portfolio. *)
Definition sheet_header_clash : grid :=
  [ [CStr (lit "ISIN"); CStr (lit "Portfolio")];
    [CStr (lit "BR0001"); CStr (lit "A")];
    [CStr (lit "ISIN"); CStr (lit "Nome")];
    [CStr (lit "BR0002"); CStr (lit "B")] ].

(** A transactions body with a details column; the second row has no
    details. *)
Definition body_with_details : frame :=
  Frame [lit "Carteira"; lit "Detalhes"; lit "Valor"]
        [ (1, [CStr (lit "A"); CStr narration_sale; COther (lit "1.0")]);
          (2, [CStr (lit "B"); CEmpty; COther (lit "2.0")]) ].

(** [x] occurs in [s] as a contiguous piece. *)
Definition infix_of (x s : str) : Prop := exists a b, s = a ++ x ++ b.

(** A text with a labelled advice code, as the advice stage can meet it. *)
Definition text_labelled : str := lit "ompra ADVICE#: - AB12.3- / VALE".

(** The row windows cut by a list of anchor rows on a sheet of [n]
    rows: each anchor row with the row of the next anchor, the last one
    with the end of the sheet. *)
Fixpoint windows (n : nat) (anchors : list nat) : list (nat * nat) :=
  match anchors with
  | [] => []
  | r :: later =>
      (r, match later with r' :: _ => r' | [] => n end) :: windows n later
  end.

(** The index labels of the rows of a table. *)
Definition labels (t : frame) : list nat := map fst (rows t).

(** The rows where a transactions table begins: line 211. *)
Definition transactions_idxs (df : grid) : list nat :=
  map fst (filter (fun row => str_eqb (UPPER_STRIP (first_cell row)) (lit "CARTEIRA"))
                  (enumerate df)).

Definition nonempty {A : Type} (l : list A) : bool :=
  match l with [] => false | _ :: _ => true end.

(** The eight keys a details record can have. *)
Definition DET_KEYS : list str :=
  [Det_Tipo; Det_Advice; Det_Qty1; Det_Qty2; Det_Ccy; Det_Date;
   Det_AdviceType; Det_AssetName].

(** A table whose first column is the portfolio, the same in every row. *)
Definition portfolio_first (portfolio : str) (t : frame) : Prop :=
  (exists cols, columns t = lit "Portfolio" :: cols)
  /\ Forall (fun row => exists cells, snd row = CStr portfolio :: cells) (rows t).

(** Every key of the record is one of the eight. *)
Definition keys_within (d : dict) : Prop :=
  forall x, In x (keys d) -> In x DET_KEYS.

(* ------------------------------------------------------------------ *)
(** ** build_dataframes: the loop over the sheets                      *)
(* ------------------------------------------------------------------ *)

(** [extract_portfolio_id(df_sheet) or "UNKNOWN"] *)
Definition portfolio_or_unknown (df_sheet : grid) : str :=
  match extract_portfolio_id df_sheet with
  | Some ((_ :: _) as p) => p
  | _ => lit "UNKNOWN"
  end.

(** The three lists the loop fills: [df_curr_list], [df_past_list],
    [df_tx_list]. *)
Record sheet_lists : Type := SheetLists {
  curr_list : list frame;
  past_list : list frame;
  tx_list : list frame
}.

(** One turn of the loop, lines 242-255, on a sheet given by its name
    and its grid. The name [_extract_advice_code] called for a sheet
    named CORPORATE ACTIVITY is defined nowhere: the call raises
    [NameError]. *)
Definition add_sheet (dtparse : str -> option date) (acc : sheet_lists)
    (sheet : str * grid) : option sheet_lists :=
  let df_sheet := snd sheet in
  let portfolio := portfolio_or_unknown df_sheet in
  let name_u := upper (fst sheet) in
  if contains (lit "CORPORATE ACTIVITY") name_u then None
  else if contains (lit "HOLDING") name_u && contains (lit "CURRENT") name_u then
    ts <- parse_holdings_sheet dtparse df_sheet portfolio ;;
    Some (SheetLists (curr_list acc ++ ts) (past_list acc) (tx_list acc))
  else if contains (lit "HOLDING") name_u && contains (lit "PAST") name_u then
    ts <- parse_holdings_sheet dtparse df_sheet portfolio ;;
    Some (SheetLists (curr_list acc) (past_list acc ++ ts) (tx_list acc))
  else if contains (lit "TRANSACTION") name_u then
    ts <- parse_transactions_sheet dtparse df_sheet portfolio ;;
    Some (SheetLists (curr_list acc) (past_list acc) (tx_list acc ++ ts))
  else Some acc.

Fixpoint add_sheets (dtparse : str -> option date) (acc : sheet_lists)
    (sheets : list (str * grid)) : option sheet_lists :=
  match sheets with
  | [] => Some acc
  | sheet :: later =>
      acc <- add_sheet dtparse acc sheet ;;
      add_sheets dtparse acc later
  end.

(** Lines 237-255 of [build_dataframes]: the lists before they are
    concatenated. *)
Definition build_lists (dtparse : str -> option date)
    (sheets : list (str * grid)) : option sheet_lists :=
  add_sheets dtparse (SheetLists [] [] []) sheets.

(** Which list a sheet name leads to. *)
Definition to_current (name : str) : bool :=
  contains (lit "HOLDING") (upper name) && contains (lit "CURRENT") (upper name).

Definition to_past (name : str) : bool :=
  negb (to_current name)
  && contains (lit "HOLDING") (upper name) && contains (lit "PAST") (upper name).

Definition to_transactions (name : str) : bool :=
  negb (to_current name) && negb (to_past name)
  && contains (lit "TRANSACTION") (upper name).

(** The tables a segmenter gives for a sheet, none when it raises. *)
Definition tables_of (f : grid -> str -> option (list frame))
    (sheet : str * grid) : list frame :=
  match f (snd sheet) (portfolio_or_unknown (snd sheet)) with
  | Some ts => ts
  | None => []
  end.

(** A portfolio value as the loop passes it on: a captured number or
    the word UNKNOWN. *)
Definition portfolio_value (p : str) : Prop :=
  p = lit "UNKNOWN" \/ (p <> [] /\ Forall (fun c => is_digit c = true) p).

(** A transactions sheet with two anchor rows, the second without body. *)
Definition sheet_transactions : grid :=
  [ [CStr (lit "Conta # 99"); CEmpty; CEmpty];
    [CStr (lit "Carteira"); CStr (lit "Detalhes"); CStr (lit "Data")];
    [CStr (lit "A"); CStr (lit "SECURITIES SALE 250 EUR VALE 15MAI23");
     CStr (lit "01/02/2023")];
    [CEmpty; CEmpty; CEmpty];
    [CStr (lit "B"); CEmpty; CStr (lit "junk")];
    [CStr (lit "carteira "); CStr (lit "x"); CStr (lit "x")] ].

(** A workbook of three sheets. *)
Definition workbook_sample : list (str * grid) :=
  [ (lit "Holdings Current", sheet_two_anchors);
    (lit "Resumo", sheet_header_clash);
    (lit "Transactions", sheet_transactions) ].

(** The position of the details column among the names: the first
    name that normalises to DETALHES or DETAILS. *)
Definition details_column (cols : list str) : option nat :=
  option_map fst
    (find (fun cn => mem (UPPER_STRIP (CStr (snd cn))) DETAILS_NAMES)
          (enumerate cols)).

(** The cells [extra] appended to the sheet row [orig] under the names
    [new_cols], for a body with the column names [cols]: with a details
    column, one cell per name, holding what the record decomposed from
    the details cell of the row has under that name and empty when it
    has nothing, every key of the record being one of the names;
    without a details column, nothing. *)
Definition details_appended (dtparse : str -> option date)
    (cols new_cols : list str) (orig extra : list cell) : Prop :=
  match details_column cols with
  | Some j =>
      let d := parse_details dtparse (nth j orig CEmpty) in
      length extra = length new_cols
      /\ (forall m k, nth_error new_cols m = Some k ->
                      nth_error extra m
                      = Some (match dict_get k d with
                              | Some v => v
                              | None => CEmpty
                              end))
      /\ (forall k, In k (keys d) -> In k new_cols)
  | None => extra = [] /\ new_cols = []
  end.

(** A name that holds, anywhere and in any letter case, the word DATA
    or the word DATE. *)
Definition date_named (name : str) : Prop :=
  exists w, infix_of w name
            /\ (map fold_case w = lit "data" \/ map fold_case w = lit "date").

(** Every class of the pattern lies within [P]. *)
Fixpoint classes_in (P : ascii -> bool) (r : re) : Prop :=
  match r with
  | Cls p => forall c, p c = true -> P c = true
  | Seq a b => classes_in P a /\ classes_in P b
  | Alt a b => classes_in P a /\ classes_in P b
  | Star a => classes_in P a
  | Grp _ a => classes_in P a
  | Eps | Bol | Wb => True
  end.

(** Every class inside the groups numbered [n] lies within [P]. *)
Fixpoint groups_in (P : ascii -> bool) (n : nat) (r : re) : Prop :=
  match r with
  | Grp k a => (k = n -> classes_in P a) /\ groups_in P n a
  | Seq a b => groups_in P n a /\ groups_in P n b
  | Alt a b => groups_in P n a /\ groups_in P n b
  | Star a => groups_in P n a
  | Eps | Cls _ | Bol | Wb => True
  end.

(** The characters of a cleaned quantity: digits and the dot. *)
Definition qty_char (c : ascii) : bool := is_digit c || Ascii.eqb c ".".

(** The cells [orig] of a sheet row as they stand in a row [cells] of
    the table [t], [shift] places to the right: each one is there as it
    was, or as its normalised date under a column named as a date. *)
Definition carried (dtparse : str -> option date) (t : frame) (shift : nat)
    (orig cells : list cell) : Prop :=
  forall j v, nth_error orig j = Some v ->
    exists v', nth_error cells (shift + j) = Some v'
      /\ (v' = v
          \/ (v' = normalize_date dtparse v
              /\ exists name, nth_error (columns t) (shift + j) = Some name
                              /\ is_date_col name = true)).

(* ================================================================== *)
(** * Properties                                                       *)
(* ================================================================== *)

(* ------------------------------------------------------------------ *)
(** ** Text                                                            *)
(* ------------------------------------------------------------------ *)

Lemma str_eqb_eq a b : str_eqb a b = true <-> a = b.
Proof.
  unfold str_eqb. destruct (list_eq_dec ascii_dec a b); split; congruence.
Qed.

Lemma str_eqb_refl a : str_eqb a a = true.
Proof. apply str_eqb_eq. reflexivity. Qed.

Lemma str_eqb_neq a b : str_eqb a b = false <-> a <> b.
Proof.
  unfold str_eqb. destruct (list_eq_dec ascii_dec a b); split; congruence.
Qed.

(** Case analysis over the 256 characters. *)
Ltac by_cases_on c :=
  destruct c as [[] [] [] [] [] [] [] []]; vm_compute; intuition congruence.

Lemma lstrip_by_id p s :
  Forall (fun c => p c = false) s -> lstrip_by p s = s.
Proof.
  intros H. destruct H as [|c t Hc _]; simpl; [reflexivity|].
  rewrite Hc. reflexivity.
Qed.

Lemma strip_by_id p s :
  Forall (fun c => p c = false) s -> strip_by p s = s.
Proof.
  intros H. unfold strip_by, rstrip_by.
  rewrite (lstrip_by_id p s H).
  rewrite lstrip_by_id by (apply Forall_rev; exact H).
  apply rev_involutive.
Qed.

Lemma upper_id s :
  Forall (fun c => upper_char c = [c]) s -> upper s = s.
Proof.
  induction 1 as [|c t Hc _ IH]; simpl; [reflexivity|].
  rewrite Hc, IH. reflexivity.
Qed.








Lemma dec_digits k : Forall (fun c => is_digit c = true) (dec k).
Proof.
  unfold dec. generalize (Nat.to_uint k). intros u.
  induction u; cbn [DecimalString.NilEmpty.string_of_uint lit list_ascii_of_string];
    constructor; auto.
Qed.

Lemma dec_nonempty k : dec k <> [].
Proof.
  unfold dec. destruct k as [|k]; [discriminate|].
  intros H.
  assert (E : Nat.to_uint (S k) = Decimal.Nil).
  { destruct (Nat.to_uint (S k)); try discriminate H. reflexivity. }
  apply (f_equal Nat.of_uint) in E.
  rewrite DecimalNat.Unsigned.of_to in E. discriminate E.
Qed.

Lemma dec_inj j k : dec j = dec k -> j = k.
Proof.
  unfold dec, lit. intros H.
  apply (f_equal string_of_list_ascii) in H.
  rewrite !string_of_list_ascii_of_string in H.
  apply (f_equal DecimalString.NilEmpty.uint_of_string) in H.
  rewrite !DecimalString.NilEmpty.usu in H.
  injection H as H.
  apply (f_equal Nat.of_uint) in H.
  rewrite !DecimalNat.Unsigned.of_to in H. exact H.
Qed.






(* ------------------------------------------------------------------ *)
(** ** normalize_date                                                  *)
(* ------------------------------------------------------------------ *)

(** C5. A value that is not a string is returned as it is, and a string
    whose prepared text (upper-cased, trimmed, months translated,
    compact token expanded) the date parser rejects is returned exactly
    as it was given, not in its prepared form. *)
Theorem normalize_date_fallback (dtparse : str -> option date) (v : cell) :
  (is_str v = false -> normalize_date dtparse v = v) /\
  (forall s, v = CStr s -> dtparse (date_text s) = None ->
             normalize_date dtparse v = CStr s).
Proof.
  split.
  - destruct v; simpl; intros H; [reflexivity | discriminate | reflexivity].
  - intros s -> H. simpl. rewrite H. reflexivity.
Qed.

Lemma normalize_date_fallback_witness :
  normalize_date parse_dmy (COther (lit "12.5")) = COther (lit "12.5") /\
  date_text (lit " not a date ") = lit "NOT A DATE" /\
  normalize_date parse_dmy (CStr (lit " not a date ")) = CStr (lit " not a date ").
Proof.
  split; [|split].
  - apply (proj1 (normalize_date_fallback parse_dmy (COther (lit "12.5")))).
    reflexivity.
  - vm_compute. reflexivity.
  - apply (proj2 (normalize_date_fallback parse_dmy (CStr (lit " not a date ")))
                 (lit " not a date ")); [reflexivity | vm_compute; reflexivity].
Defined.









(* ------------------------------------------------------------------ *)
(** ** parse_details on the two narrations of the specification        *)
(* ------------------------------------------------------------------ *)

(** C1, as the code has it. The leading run of capitals and blanks runs
    up to the "#", so the type is "SECURITIES PURCHASE ADVICE" and no
    labelled advice code is left to find; the quantity stage keeps what
    follows "1,000/500"; the currency is recorded but, not being at the
    end, stays in the residual name. *)
Theorem parse_details_purchase (dtparse : str -> option date) :
  dtparse (lit "15 MAY 2023") = Some (Date 15 5 2023) ->
  parse_details dtparse (CStr narration_purchase)
  = [ (Det_Tipo, CStr (lit "SECURITIES PURCHASE ADVICE"));
      (Det_Qty1, CStr (lit "1000"));
      (Det_Qty2, CStr (lit "500"));
      (Det_Ccy, CStr (lit "USD"));
      (Det_Date, CStr (lit "15/05/2023"));
      (Det_AdviceType, CStr (lit "SECURITIES PURCHASE ADVICE"));
      (Det_AssetName, CStr (lit "USD  PETROBRAS")) ].
Proof.
  intros H.
  assert (E : date_stage dtparse (lit "USD 15MAI23 PETROBRAS")
                [ (Det_Tipo, CStr (lit "SECURITIES PURCHASE ADVICE"));
                  (Det_Qty1, CStr (lit "1000")); (Det_Qty2, CStr (lit "500"));
                  (Det_Ccy, CStr (lit "USD")) ]
              = ([ (Det_Tipo, CStr (lit "SECURITIES PURCHASE ADVICE"));
                   (Det_Qty1, CStr (lit "1000")); (Det_Qty2, CStr (lit "500"));
                   (Det_Ccy, CStr (lit "USD"));
                   (Det_Date, CStr (lit "15/05/2023")) ],
                 lit "USD  PETROBRAS")).
  { unfold date_stage.
    replace (search RE_DATE_TOKEN (lit "USD 15MAI23 PETROBRAS"))
      with (Some (MObj 4 11 [])) by (vm_compute; reflexivity).
    replace (group0 (lit "USD 15MAI23 PETROBRAS") (MObj 4 11 []))
      with (lit "15MAI23") by (vm_compute; reflexivity).
    unfold normalize_date.
    replace (date_text (lit "15MAI23")) with (lit "15 MAY 2023")
      by (vm_compute; reflexivity).
    rewrite H. vm_compute. reflexivity. }
  unfold parse_details.
  replace (tipo_stage (strip narration_purchase))
    with (Some (lit "SECURITIES PURCHASE ADVICE"),
          lit "#: AB123.45 1,000/500 USD 15MAI23 PETROBRAS")
    by (vm_compute; reflexivity).
  replace (_extract_advice (lit "#: AB123.45 1,000/500 USD 15MAI23 PETROBRAS"))
    with (@None str, lit "#: AB123.45 1,000/500 USD 15MAI23 PETROBRAS")
    by (vm_compute; reflexivity).
  replace (quantity_stage (Some (lit "SECURITIES PURCHASE ADVICE"))
             (lit "#: AB123.45 1,000/500 USD 15MAI23 PETROBRAS")
             (set_if_text
                (dict_set [] Det_Tipo (opt_cell (Some (lit "SECURITIES PURCHASE ADVICE"))))
                Det_Advice None))
    with ([ (Det_Tipo, CStr (lit "SECURITIES PURCHASE ADVICE"));
            (Det_Qty1, CStr (lit "1000")); (Det_Qty2, CStr (lit "500")) ], 21)
    by (vm_compute; reflexivity).
  replace (currency_stage (lit "#: AB123.45 1,000/500 USD 15MAI23 PETROBRAS")
             (after_quantity (lit "#: AB123.45 1,000/500 USD 15MAI23 PETROBRAS") 21))
    with (Some (lit "USD"), lit "USD 15MAI23 PETROBRAS")
    by (vm_compute; reflexivity).
  replace (dict_set
             [ (Det_Tipo, CStr (lit "SECURITIES PURCHASE ADVICE"));
               (Det_Qty1, CStr (lit "1000")); (Det_Qty2, CStr (lit "500")) ]
             Det_Ccy (opt_cell (Some (lit "USD"))))
    with [ (Det_Tipo, CStr (lit "SECURITIES PURCHASE ADVICE"));
           (Det_Qty1, CStr (lit "1000")); (Det_Qty2, CStr (lit "500"));
           (Det_Ccy, CStr (lit "USD")) ]
    by (vm_compute; reflexivity).
  rewrite E. vm_compute. reflexivity.
Qed.

Lemma parse_details_purchase_witness :
  parse_dmy (lit "15 MAY 2023") = Some (Date 15 5 2023) /\
  parse_details parse_dmy (CStr narration_purchase)
  = [ (Det_Tipo, CStr (lit "SECURITIES PURCHASE ADVICE"));
      (Det_Qty1, CStr (lit "1000"));
      (Det_Qty2, CStr (lit "500"));
      (Det_Ccy, CStr (lit "USD"));
      (Det_Date, CStr (lit "15/05/2023"));
      (Det_AdviceType, CStr (lit "SECURITIES PURCHASE ADVICE"));
      (Det_AssetName, CStr (lit "USD  PETROBRAS")) ].
Proof.
  split; [vm_compute; reflexivity|].
  apply (parse_details_purchase parse_dmy). vm_compute. reflexivity.
Defined.

(** C1 as the specification words it does not hold: the type is not
    "SECURITIES PURCHASE", no advice code is recorded, and the residual
    name is not "PETROBRAS". *)
Lemma parse_details_purchase_not_as_specified :
  let out := parse_details parse_dmy (CStr narration_purchase) in
  ~ (dict_get Det_Tipo out = Some (CStr (lit "SECURITIES PURCHASE")) /\
     dict_get Det_Advice out = Some (CStr (lit "AB123.45")) /\
     dict_get Det_Qty1 out = Some (CStr (lit "1000")) /\
     dict_get Det_Qty2 out = Some (CStr (lit "500")) /\
     dict_get Det_Ccy out = Some (CStr (lit "USD")) /\
     dict_get Det_Date out = Some (CStr (lit "15/05/2023")) /\
     dict_get Det_AssetName out = Some (CStr (lit "PETROBRAS"))).
Proof.
  vm_compute. intros (H & _). discriminate H.
Qed.

(** C2, as the code has it. The currency "EUR" is found but does not end
    the remainder, so the remainder is left untouched and the residual
    name is "EUR VALE". *)
Theorem parse_details_sale (dtparse : str -> option date) :
  parse_details dtparse (CStr narration_sale)
  = [ (Det_Tipo, CStr (lit "SECURITIES SALE"));
      (Det_Qty1, CStr (lit "250"));
      (Det_Ccy, CStr (lit "EUR"));
      (Det_AssetName, CStr (lit "EUR VALE")) ].
Proof.
  unfold parse_details.
  replace (tipo_stage (strip narration_sale))
    with (Some (lit "SECURITIES SALE"), lit "250 EUR VALE")
    by (vm_compute; reflexivity).
  replace (_extract_advice (lit "250 EUR VALE"))
    with (@None str, lit "250 EUR VALE") by (vm_compute; reflexivity).
  replace (quantity_stage (Some (lit "SECURITIES SALE")) (lit "250 EUR VALE")
             (set_if_text (dict_set [] Det_Tipo (opt_cell (Some (lit "SECURITIES SALE"))))
                Det_Advice None))
    with ([ (Det_Tipo, CStr (lit "SECURITIES SALE"));
            (Det_Qty1, CStr (lit "250")) ], 3)
    by (vm_compute; reflexivity).
  replace (currency_stage (lit "250 EUR VALE")
             (after_quantity (lit "250 EUR VALE") 3))
    with (Some (lit "EUR"), lit "EUR VALE") by (vm_compute; reflexivity).
  unfold date_stage.
  replace (search RE_DATE_TOKEN (lit "EUR VALE")) with (@None mobj)
    by (vm_compute; reflexivity).
  vm_compute. reflexivity.
Qed.

(** C2 as the specification words it does not hold: the residual name
    is not "VALE". *)
Lemma parse_details_sale_not_as_specified :
  let out := parse_details parse_dmy (CStr narration_sale) in
  ~ (dict_get Det_Tipo out = Some (CStr (lit "SECURITIES SALE")) /\
     dict_get Det_Qty1 out = Some (CStr (lit "250")) /\
     dict_get Det_Ccy out = Some (CStr (lit "EUR")) /\
     dict_get Det_AssetName out = Some (CStr (lit "VALE"))).
Proof.
  vm_compute. intros (_ & _ & _ & H). discriminate H.
Qed.

(* ------------------------------------------------------------------ *)
(** ** The quantity stage of parse_details                             *)
(* ------------------------------------------------------------------ *)

Lemma lstrip_by_split p s :
  exists pre, s = pre ++ lstrip_by p s /\ Forall (fun c => p c = true) pre.
Proof.
  induction s as [|c t (pre & E & F)]; simpl.
  - exists []. split; [reflexivity | constructor].
  - destruct (p c) eqn:Hc.
    + exists (c :: pre). split; [simpl; congruence | constructor; assumption].
    + exists []. split; [reflexivity | constructor].
Qed.

Lemma rstrip_by_split p s :
  exists post, s = rstrip_by p s ++ post /\ Forall (fun c => p c = true) post.
Proof.
  unfold rstrip_by.
  destruct (lstrip_by_split p (rev s)) as (pre & E & F).
  exists (rev pre). split; [|apply Forall_rev; exact F].
  rewrite <- rev_app_distr, <- E. symmetry. apply rev_involutive.
Qed.

Lemma strip_by_split p s :
  exists pre post, s = pre ++ strip_by p s ++ post
                   /\ Forall (fun c => p c = true) pre
                   /\ Forall (fun c => p c = true) post.
Proof.
  unfold strip_by.
  destruct (lstrip_by_split p s) as (pre & E & F).
  destruct (rstrip_by_split p (lstrip_by p s)) as (post & E' & F').
  exists pre, post. repeat split; try assumption.
  rewrite <- E'. exact E.
Qed.


Lemma dict_get_set_same d k v : dict_get k (dict_set d k v) = Some v.
Proof.
  induction d as [|[k' v'] t IH]; simpl.
  - rewrite str_eqb_refl. reflexivity.
  - destruct (str_eqb k' k) eqn:E; simpl; rewrite E; [reflexivity | exact IH].
Qed.

Lemma dict_get_set_other d k k' v :
  k' <> k -> dict_get k (dict_set d k' v) = dict_get k d.
Proof.
  intros N. induction d as [|[k0 v0] t IH]; simpl.
  - apply str_eqb_neq in N. rewrite N. reflexivity.
  - destruct (str_eqb k0 k') eqn:E; simpl.
    + apply str_eqb_eq in E. subst k0.
      apply str_eqb_neq in N. rewrite N. reflexivity.
    + destruct (str_eqb k0 k); [reflexivity | exact IH].
Qed.

Lemma dict_has_set_same d k v : dict_has k (dict_set d k v) = true.
Proof. unfold dict_has. rewrite dict_get_set_same. reflexivity. Qed.

Lemma dict_has_set_other d k k' v :
  k' <> k -> dict_has k (dict_set d k' v) = dict_has k d.
Proof. intros N. unfold dict_has. rewrite dict_get_set_other by exact N. reflexivity. Qed.




(* ------------------------------------------------------------------ *)
(** ** The entries of the record built by parse_details                *)
(* ------------------------------------------------------------------ *)

Lemma quantity_stage_frame tipo rest out k :
  k <> Det_Qty1 -> k <> Det_Qty2 ->
  dict_get k (fst (quantity_stage tipo rest out)) = dict_get k out.
Proof.
  intros N1 N2. unfold quantity_stage.
  assert (S1 : forall d v, dict_get k (dict_set d Det_Qty1 v) = dict_get k d)
    by (intros; apply dict_get_set_other; congruence).
  assert (S2 : forall d v, dict_get k (dict_set d Det_Qty2 v) = dict_get k d)
    by (intros; apply dict_get_set_other; congruence).
  destruct (search RE_SLASH_QTY rest); cbn [fst]; [rewrite S2, S1; reflexivity|].
  destruct (search RE_QTY_PT1 rest), (search RE_QTY_PT2 rest);
    match goal with |- context [if ?b then _ else _] => destruct b end;
    try destruct (search RE_QTY_STANDALONE rest); cbn [fst];
    rewrite ?S1, ?S2, ?S1; reflexivity.
Qed.

(** The first quantity is missing exactly when neither the pair nor the
    label QUANTIDADE 1 is found and the fallback does not apply: the
    type lacks SECURITIES, or the rest holds no number. *)
Lemma quantity_stage_qty1 tipo rest out :
  dict_get Det_Qty1 out = None ->
  absent_or_text (dict_get Det_Qty1 (fst (quantity_stage tipo rest out))) /\
  (dict_get Det_Qty1 (fst (quantity_stage tipo rest out)) = None <->
   search RE_SLASH_QTY rest = None /\ search RE_QTY_PT1 rest = None /\
   (contains (lit "SECURITIES") (match tipo with Some t => t | None => [] end)
    = false
    \/ search RE_QTY_STANDALONE rest = None)).
Proof.
  intros H0. unfold quantity_stage, absent_or_text.
  assert (N : Det_Qty2 <> Det_Qty1) by (vm_compute; discriminate).
  assert (S2 : forall d v, dict_get Det_Qty1 (dict_set d Det_Qty2 v)
                           = dict_get Det_Qty1 d)
    by (intros; apply dict_get_set_other; exact N).
  assert (Hh : dict_has Det_Qty1 out = false)
    by (unfold dict_has; rewrite H0; reflexivity).
  destruct (search RE_SLASH_QTY rest); cbn [fst].
  { rewrite S2, dict_get_set_same. split; [right; eauto|].
    split; [discriminate | intros (A & _); discriminate A]. }
  destruct (search RE_QTY_PT1 rest), (search RE_QTY_PT2 rest);
    rewrite ?(dict_has_set_other _ Det_Qty1 Det_Qty2) by exact N;
    rewrite ?dict_has_set_same, ?Hh;
    destruct (contains (lit "SECURITIES") _); cbn [andb negb];
    try destruct (search RE_QTY_STANDALONE rest); cbn [fst];
    rewrite ?S2, ?dict_get_set_same, ?S2, ?dict_get_set_same, ?H0;
    (split; [first [left; reflexivity | right; eauto]
            | split; [intros G; try discriminate G; intuition congruence
                     | intros (A & B & [C|C]);
                       first [reflexivity | discriminate A | discriminate B
                             | discriminate C]]]).
Qed.

(** The second quantity is missing exactly when neither the pair nor
    the label QUANTIDADE 2 is found. *)
Lemma quantity_stage_qty2 tipo rest out :
  dict_get Det_Qty2 out = None ->
  absent_or_text (dict_get Det_Qty2 (fst (quantity_stage tipo rest out))) /\
  (dict_get Det_Qty2 (fst (quantity_stage tipo rest out)) = None <->
   search RE_SLASH_QTY rest = None /\ search RE_QTY_PT2 rest = None).
Proof.
  intros H0. unfold quantity_stage, absent_or_text.
  assert (N : Det_Qty1 <> Det_Qty2) by (vm_compute; discriminate).
  assert (S1 : forall d v, dict_get Det_Qty2 (dict_set d Det_Qty1 v)
                           = dict_get Det_Qty2 d)
    by (intros; apply dict_get_set_other; exact N).
  destruct (search RE_SLASH_QTY rest); cbn [fst].
  { rewrite dict_get_set_same. split; [right; eauto|].
    split; [discriminate | intros (A & _); discriminate A]. }
  destruct (search RE_QTY_PT1 rest), (search RE_QTY_PT2 rest);
    match goal with |- context [if ?b then _ else _] => destruct b end;
    try destruct (search RE_QTY_STANDALONE rest); cbn [fst];
    rewrite ?S1, ?dict_get_set_same, ?S1, ?H0;
    (split; [first [left; reflexivity | right; eauto]
            | split; [intros G; try discriminate G; auto
                     | intros (A & B);
                       first [reflexivity | discriminate A | discriminate B]]]).
Qed.

Lemma normalize_date_text dtparse s :
  exists x, normalize_date dtparse (CStr s) = CStr x.
Proof.
  simpl. destruct (dtparse (date_text s)); eauto.
Qed.

Lemma date_stage_frame dtparse remaining out k :
  k <> Det_Date ->
  dict_get k (fst (date_stage dtparse remaining out)) = dict_get k out.
Proof.
  intros N. unfold date_stage.
  destruct (search RE_DATE_TOKEN remaining); cbn [fst]; [|reflexivity].
  apply dict_get_set_other. congruence.
Qed.

Lemma date_stage_date dtparse remaining out :
  dict_get Det_Date out = None ->
  absent_or_text (dict_get Det_Date (fst (date_stage dtparse remaining out))) /\
  (dict_get Det_Date (fst (date_stage dtparse remaining out)) = None <->
   search RE_DATE_TOKEN remaining = None).
Proof.
  intros H0. unfold date_stage, absent_or_text.
  destruct (search RE_DATE_TOKEN remaining) as [m|]; cbn [fst].
  - rewrite dict_get_set_same.
    destruct (normalize_date_text dtparse (group0 remaining m)) as (x & ->).
    split; [right; eauto | split; discriminate].
  - rewrite H0. split; [left; reflexivity | split; reflexivity].
Qed.

Lemma set_if_text_frame out k k' o :
  k' <> k -> dict_get k (set_if_text out k' o) = dict_get k out.
Proof.
  intros N. destruct o as [[|c t]|]; cbn [set_if_text]; try reflexivity.
  apply dict_get_set_other. exact N.
Qed.

Lemma set_if_text_entry out k o :
  dict_get k out = None ->
  absent_or_text (dict_get k (set_if_text out k o)) /\
  (dict_get k (set_if_text out k o) = None <-> o = None \/ o = Some []).
Proof.
  intros H0. unfold absent_or_text.
  destruct o as [[|c t]|]; cbn [set_if_text]; rewrite ?dict_get_set_same, ?H0.
  - split; [left; reflexivity | split; auto].
  - split; [right; eauto | split; [discriminate | intros [A|A]; discriminate A]].
  - split; [left; reflexivity | split; auto].
Qed.

Lemma advice_type_stage_frame txt out k :
  k <> Det_AdviceType ->
  dict_get k (advice_type_stage txt out) = dict_get k out.
Proof.
  intros N. unfold advice_type_stage.
  destruct (search RE_ADVICE_TYPE txt); [|reflexivity].
  apply dict_get_set_other. congruence.
Qed.

Lemma advice_type_stage_entry txt out :
  dict_get Det_AdviceType out = None ->
  absent_or_text (dict_get Det_AdviceType (advice_type_stage txt out)) /\
  (dict_get Det_AdviceType (advice_type_stage txt out) = None <->
   search RE_ADVICE_TYPE txt = None).
Proof.
  intros H0. unfold advice_type_stage, absent_or_text.
  destruct (search RE_ADVICE_TYPE txt).
  - rewrite dict_get_set_same. split; [right; eauto | split; discriminate].
  - rewrite H0. split; [left; reflexivity | split; reflexivity].
Qed.

(** The keys of the record are pairwise different. *)
Ltac key_neq := let K := fresh in intro K; vm_compute in K; discriminate K.

(** Look an entry up through the stages that do not write it. *)
Ltac through_stages :=
  repeat first
    [ rewrite dict_get_set_other by key_neq
    | rewrite advice_type_stage_frame by key_neq
    | rewrite date_stage_frame by key_neq
    | rewrite quantity_stage_frame by key_neq
    | rewrite set_if_text_frame by key_neq ].

(** C10. On a string, the record always has the entries Det_Tipo,
    Det_Ccy and Det_AssetName, each null when its stage found nothing;
    the entries for the advice code, the two quantities, the date and
    the advice type hold a string when present, and each is missing
    exactly when its stage matched nothing: no code, or an empty one;
    for the first quantity, no pair, no label QUANTIDADE 1 and no
    fallback (the type lacks SECURITIES, or there is no number); for the
    second, no pair and no label QUANTIDADE 2; no date token in what is
    left after the currency; no advice type in the text. A record
    without entries is returned exactly for an input that is not a
    string. *)
Theorem parse_details_entries (dtparse : str -> option date) (v : cell) :
  (is_str v = false <-> parse_details dtparse v = []) /\
  (forall s, v = CStr s ->
   let out := parse_details dtparse v in
   let txt := strip s in
   let tipo := fst (tipo_stage txt) in
   let advice := fst (_extract_advice (snd (tipo_stage txt))) in
   let rest := snd (_extract_advice (snd (tipo_stage txt))) in
   let qty := quantity_stage tipo rest
                (set_if_text (dict_set [] Det_Tipo (opt_cell tipo)) Det_Advice advice) in
   let remaining := after_quantity rest (snd qty) in
   let ccy := currency_stage rest remaining in
   let dat := date_stage dtparse (snd ccy)
                (dict_set (fst qty) Det_Ccy (opt_cell (fst ccy))) in
   (* always present *)
   dict_get Det_Tipo out = Some (opt_cell tipo) /\
   (rmatch RE_TIPO txt = None -> dict_get Det_Tipo out = Some CEmpty) /\
   dict_get Det_Ccy out = Some (opt_cell (fst ccy)) /\
   (find (fun c => mem c CURRENCIES)
         (rev (findall1 RE_CCY (or_else remaining rest))) = None ->
    dict_get Det_Ccy out = Some CEmpty) /\
   dict_get Det_AssetName out
   = Some (match snd dat with [] => CEmpty | _ :: _ => CStr (snd dat) end) /\
   (* present only when matched *)
   absent_or_text (dict_get Det_Advice out) /\
   (dict_get Det_Advice out = None <-> advice = None \/ advice = Some []) /\
   absent_or_text (dict_get Det_Qty1 out) /\
   (dict_get Det_Qty1 out = None <->
    search RE_SLASH_QTY rest = None /\ search RE_QTY_PT1 rest = None /\
    (contains (lit "SECURITIES") (match tipo with Some t => t | None => [] end)
     = false
     \/ search RE_QTY_STANDALONE rest = None)) /\
   absent_or_text (dict_get Det_Qty2 out) /\
   (dict_get Det_Qty2 out = None <->
    search RE_SLASH_QTY rest = None /\ search RE_QTY_PT2 rest = None) /\
   absent_or_text (dict_get Det_Date out) /\
   (dict_get Det_Date out = None <-> search RE_DATE_TOKEN (snd ccy) = None) /\
   absent_or_text (dict_get Det_AdviceType out) /\
   (dict_get Det_AdviceType out = None <-> search RE_ADVICE_TYPE txt = None)).
Proof.
  assert (Main : forall s,
   let out := parse_details dtparse (CStr s) in
   let txt := strip s in
   let tipo := fst (tipo_stage txt) in
   let advice := fst (_extract_advice (snd (tipo_stage txt))) in
   let rest := snd (_extract_advice (snd (tipo_stage txt))) in
   let qty := quantity_stage tipo rest
                (set_if_text (dict_set [] Det_Tipo (opt_cell tipo)) Det_Advice advice) in
   let ccy := currency_stage rest (after_quantity rest (snd qty)) in
   let dat := date_stage dtparse (snd ccy)
                (dict_set (fst qty) Det_Ccy (opt_cell (fst ccy))) in
   out = dict_set (advice_type_stage txt (fst dat)) Det_AssetName
           (match snd dat with [] => CEmpty | _ :: _ => CStr (snd dat) end)).
  { intros s. cbv zeta. unfold parse_details.
    destruct (tipo_stage (strip s)) as [tipo rest0]. cbn [fst snd].
    destruct (_extract_advice rest0) as [advice rest]. cbn [fst snd].
    destruct (quantity_stage tipo rest _) as [out1 qty_end]. cbn [fst snd].
    destruct (currency_stage rest _) as [ccy rem2]. cbn [fst snd].
    destruct (date_stage dtparse rem2 _) as [out3 rem3]. reflexivity. }
  split.
  - destruct v as [|s|r]; cbn [is_str]; split; intros H;
      try reflexivity; try discriminate H.
    exfalso. rewrite (Main s) in H. cbv zeta in H.
    apply (f_equal (dict_get Det_AssetName)) in H.
    rewrite dict_get_set_same in H. discriminate H.
  - intros s -> out txt tipo advice rest qty remaining ccy dat.
    pose proof (Main s) as E. cbv zeta in E.
    fold txt tipo advice rest qty remaining ccy dat in E. fold out in E.
    clearbody out. subst out.
    assert (T0 : forall k, k <> Det_Tipo ->
                 dict_get k (dict_set [] Det_Tipo (opt_cell tipo)) = None).
    { intros k N. rewrite dict_get_set_other by congruence. reflexivity. }
    repeat match goal with |- _ /\ _ => split end.
    + through_stages. subst dat. through_stages. subst qty. through_stages.
      apply dict_get_set_same.
    + intros H. through_stages. subst dat. through_stages. subst qty.
      through_stages. rewrite dict_get_set_same.
      subst tipo. unfold tipo_stage. fold txt. rewrite H. reflexivity.
    + through_stages. subst dat. through_stages. apply dict_get_set_same.
    + intros H. through_stages. subst dat. through_stages.
      rewrite dict_get_set_same. subst ccy. unfold currency_stage.
      fold remaining. rewrite H. reflexivity.
    + apply dict_get_set_same.
    + through_stages. subst dat. through_stages. subst qty. through_stages.
      apply set_if_text_entry. first [reflexivity | apply T0; key_neq].
    + through_stages. subst dat. through_stages. subst qty. through_stages.
      apply set_if_text_entry. first [reflexivity | apply T0; key_neq].
    + through_stages. subst dat. through_stages. subst qty.
      apply quantity_stage_qty1. through_stages. first [reflexivity | apply T0; key_neq].
    + through_stages. subst dat. through_stages. subst qty.
      apply quantity_stage_qty1. through_stages. first [reflexivity | apply T0; key_neq].
    + through_stages. subst dat. through_stages. subst qty.
      apply quantity_stage_qty2. through_stages. first [reflexivity | apply T0; key_neq].
    + through_stages. subst dat. through_stages. subst qty.
      apply quantity_stage_qty2. through_stages. first [reflexivity | apply T0; key_neq].
    + through_stages. subst dat. apply date_stage_date.
      through_stages. subst qty. through_stages. first [reflexivity | apply T0; key_neq].
    + through_stages. subst dat. apply date_stage_date.
      through_stages. subst qty. through_stages. first [reflexivity | apply T0; key_neq].
    + through_stages. apply advice_type_stage_entry.
      subst dat. through_stages. subst qty. through_stages. first [reflexivity | apply T0; key_neq].
    + through_stages. apply advice_type_stage_entry.
      subst dat. through_stages. subst qty. through_stages. first [reflexivity | apply T0; key_neq].
Qed.

Lemma parse_details_entries_witness :
  parse_details parse_dmy (COther (lit "42")) = [] /\
  parse_details parse_dmy (CStr []) <> [] /\
  dict_get Det_Tipo (parse_details parse_dmy (CStr [])) = Some CEmpty /\
  dict_get Det_Ccy (parse_details parse_dmy (CStr [])) = Some CEmpty /\
  dict_get Det_AssetName (parse_details parse_dmy (CStr [])) = Some CEmpty /\
  dict_get Det_Advice (parse_details parse_dmy (CStr [])) = None /\
  dict_get Det_Qty1 (parse_details parse_dmy (CStr [])) = None /\
  dict_get Det_Qty2 (parse_details parse_dmy (CStr [])) = None /\
  dict_get Det_Date (parse_details parse_dmy (CStr [])) = None /\
  dict_get Det_AdviceType (parse_details parse_dmy (CStr [])) = None /\
  dict_get Det_Qty1 (parse_details parse_dmy (CStr (lit "SALE 10 USD"))) = None.
Proof.
  destruct (parse_details_entries parse_dmy (COther (lit "42"))) as ((H1 & _) & _).
  destruct (parse_details_entries parse_dmy (CStr [])) as ((_ & H2) & H3).
  destruct (parse_details_entries parse_dmy (CStr (lit "SALE 10 USD"))) as (_ & H4).
  specialize (H3 [] eq_refl). cbv zeta in H3.
  specialize (H4 (lit "SALE 10 USD") eq_refl). cbv zeta in H4.
  destruct H3 as (_ & T & _ & C & A & _ & Adv & _ & Q1 & _ & Q2 & _ & D & _ & AT).
  destruct H4 as (_ & _ & _ & _ & _ & _ & _ & _ & Q1' & _).
  split; [apply H1; reflexivity|].
  split; [intros E; specialize (H2 E); discriminate H2|].
  split; [apply T; reflexivity|].
  split; [apply C; reflexivity|].
  split; [exact A|].
  split; [apply (proj2 Adv); left; reflexivity|].
  split; [apply (proj2 Q1); repeat split; try reflexivity; left; reflexivity|].
  split; [apply (proj2 Q2); split; reflexivity|].
  split; [apply (proj2 D); reflexivity|].
  split; [apply (proj2 AT); reflexivity|].
  apply (proj2 Q1'). split; [vm_compute; reflexivity|].
  split; [vm_compute; reflexivity|]. left. vm_compute. reflexivity.
Defined.

(* ------------------------------------------------------------------ *)
(** ** _dedup_columns                                                  *)
(* ------------------------------------------------------------------ *)

Lemma str_eqb_sym a b : str_eqb a b = str_eqb b a.
Proof.
  destruct (str_eqb b a) eqn:E.
  - apply str_eqb_eq in E. subst. apply str_eqb_refl.
  - apply str_eqb_neq. apply str_eqb_neq in E. congruence.
Qed.

Lemma seen_get_set seen col k c :
  seen_get (seen_set seen col k) c
  = if str_eqb col c then k else seen_get seen c.
Proof.
  induction seen as [|[c0 k0] t IH]; simpl; [reflexivity|].
  destruct (str_eqb c0 col) eqn:E0; simpl.
  - apply str_eqb_eq in E0. subst c0.
    destruct (str_eqb col c); reflexivity.
  - rewrite IH. destruct (str_eqb c0 c) eqn:E1; [|reflexivity].
    apply str_eqb_eq in E1. subst c0.
    rewrite str_eqb_sym, E0. reflexivity.
Qed.

(** Every output name is the input name with the number of its earlier
    occurrences as suffix. *)
Lemma dedup_loop_nth cols : forall seen i c,
  nth_error cols i = Some c ->
  nth_error (dedup_loop seen cols) i
  = Some (suffixed c (seen_get seen c + count_name c (firstn i cols))).
Proof.
  induction cols as [|col t IH]; intros seen i c H.
  - destruct i; discriminate H.
  - destruct i as [|i]; cbn [nth_error dedup_loop firstn] in *.
    + injection H as ->. unfold count_name. cbn [filter length].
      rewrite Nat.add_0_r. reflexivity.
    + rewrite (IH _ i c H), seen_get_set.
      unfold count_name. cbn [filter]. rewrite (str_eqb_sym c col).
      destruct (str_eqb col c) eqn:E; cbn [length].
      * apply str_eqb_eq in E. subst col. f_equal. f_equal. lia.
      * reflexivity.
Qed.

Lemma dedup_loop_length cols : forall seen,
  length (dedup_loop seen cols) = length cols.
Proof.
  induction cols as [|col t IH]; intros seen; simpl; [reflexivity|].
  rewrite IH. reflexivity.
Qed.

Lemma count_name_grows n ns i j :
  nth_error ns i = Some n -> i < j ->
  count_name n (firstn i ns) < count_name n (firstn j ns).
Proof.
  intros H Hij.
  destruct (nth_error_split ns i H) as (l1 & l2 & -> & <-).
  unfold count_name.
  rewrite firstn_app, Nat.sub_diag, firstn_all, firstn_O, app_nil_r.
  rewrite firstn_app, firstn_all2 by lia.
  replace (j - length l1) with (S (j - length l1 - 1)) by lia.
  cbn [firstn]. rewrite filter_app. cbn [filter].
  rewrite str_eqb_refl, length_app. cbn [length]. lia.
Qed.

(** Splitting at the last separator: the separator occurs in neither tail. *)
Lemma app_sep_inj (x : ascii) a : forall a' d d',
  ~ In x d -> ~ In x d' -> a ++ x :: d = a' ++ x :: d' -> a = a' /\ d = d'.
Proof.
  induction a as [|y a IH]; intros [|y' a'] d d' Hd Hd' E; cbn [app] in E.
  - injection E as E. auto.
  - injection E as <- E. exfalso. apply Hd. rewrite E.
    apply in_or_app. right. left. reflexivity.
  - injection E as -> E. exfalso. apply Hd'. rewrite <- E.
    apply in_or_app. right. left. reflexivity.
  - injection E as <- E. destruct (IH a' d d' Hd Hd' E) as (-> & ->). auto.
Qed.

Lemma dec_no_underscore k : ~ In "_"%char (dec k).
Proof.
  intros H. pose proof (dec_digits k) as F.
  rewrite Forall_forall in F. specialize (F _ H). discriminate F.
Qed.

Lemma suffixed_inj a b j k :
  suffixed a (S j) = suffixed b (S k) -> a = b /\ j = k.
Proof.
  cbn [suffixed]. intros E.
  change (lit "_" ++ dec (S j)) with ("_"%char :: dec (S j)) in E.
  change (lit "_" ++ dec (S k)) with ("_"%char :: dec (S k)) in E.
  apply app_sep_inj in E; try apply dec_no_underscore.
  destruct E as (-> & E). apply dec_inj in E. split; [reflexivity | lia].
Qed.

(** C4, as the code has it. The result has the length and order of the
    input; an empty or null name counts as "_"; a name comes out
    unchanged at its first occurrence and with suffix _k at its k-th
    repeat. The result is free of duplicates when no input name is
    itself another input name followed by such a suffix. *)
Theorem dedup_columns_spec (cols : list (option str)) :
  let names := map name_or_placeholder cols in
  length (_dedup_columns cols) = length cols /\
  (forall c, name_or_placeholder c
             = match c with
               | None => lit "_"
               | Some s => or_else s (lit "_")
               end) /\
  (forall i n, nth_error names i = Some n ->
     let k := count_name n (firstn i names) in
     nth_error (_dedup_columns cols) i
     = Some (if k =? 0 then n else n ++ lit "_" ++ dec k)) /\
  (no_suffix_clash names -> NoDup (_dedup_columns cols)).
Proof.
  intros names.
  assert (Nth : forall i n, nth_error names i = Some n ->
            nth_error (_dedup_columns cols) i
            = Some (suffixed n (count_name n (firstn i names)))).
  { intros i n H. unfold _dedup_columns. fold names.
    rewrite (dedup_loop_nth names [] i n H). reflexivity. }
  assert (Len : length (_dedup_columns cols) = length names).
  { unfold _dedup_columns. apply dedup_loop_length. }
  split; [rewrite Len; apply length_map|].
  split; [intros [[|c t]|]; reflexivity|].
  split.
  - intros i n H k. rewrite (Nth i n H). fold k.
    destruct k; reflexivity.
  - intros Clash. apply NoDup_nth_error.
    assert (Lt : forall i j ni nj,
              i < j -> nth_error names i = Some ni -> nth_error names j = Some nj ->
              suffixed ni (count_name ni (firstn i names))
              <> suffixed nj (count_name nj (firstn j names))).
    { intros i j ni nj Hij Hi Hj E.
      pose proof (count_name_grows ni names i j Hi Hij) as G.
      pose proof (nth_error_In _ _ Hi) as Ii.
      pose proof (nth_error_In _ _ Hj) as Ij.
      destruct (count_name ni (firstn i names)) as [|ki] eqn:Ki;
        destruct (count_name nj (firstn j names)) as [|kj] eqn:Kj.
      - cbn [suffixed] in E. subst nj. lia.
      - cbn [suffixed] in E. apply (Clash nj ni (S kj) Ij Ii); [lia | exact E].
      - cbn [suffixed] in E. apply (Clash ni nj (S ki) Ii Ij); [lia | congruence].
      - apply suffixed_inj in E. destruct E as (-> & ->). lia. }
    intros i j Hi E.
    rewrite Len in Hi.
    destruct (nth_error names i) as [ni|] eqn:Ei;
      [|apply nth_error_None in Ei; lia].
    rewrite (Nth i ni Ei) in E.
    destruct (nth_error names j) as [nj|] eqn:Ej.
    + rewrite (Nth j nj Ej) in E. injection E as E.
      destruct (Nat.lt_trichotomy i j) as [L|[L|L]]; [|exact L|].
      * exfalso. exact (Lt i j ni nj L Ei Ej E).
      * exfalso. exact (Lt j i nj ni L Ej Ei (eq_sym E)).
    + apply nth_error_None in Ej. rewrite <- Len in Ej.
      apply nth_error_None in Ej. rewrite Ej in E. discriminate E.
Qed.

Lemma dedup_columns_spec_witness :
  no_suffix_clash (map name_or_placeholder
                     [Some (lit "a"); None; Some (lit "a"); Some []; Some (lit "b")]) /\
  _dedup_columns [Some (lit "a"); None; Some (lit "a"); Some []; Some (lit "b")]
  = [lit "a"; lit "_"; lit "a_1"; lit "__1"; lit "b"] /\
  NoDup (_dedup_columns
           [Some (lit "a"); None; Some (lit "a"); Some []; Some (lit "b")]).
Proof.
  assert (C : no_suffix_clash (map name_or_placeholder
                [Some (lit "a"); None; Some (lit "a"); Some []; Some (lit "b")])).
  { intros a b k Ha Hb Hk E.
    apply (f_equal (@length ascii)) in E. rewrite !length_app in E.
    assert (La : 1 <= length a).
    { cbn in Ha. repeat (destruct Ha as [<-|Ha]; [cbn; lia|]). destruct Ha. }
    assert (Lb : length b <= 1).
    { cbn in Hb. repeat (destruct Hb as [<-|Hb]; [cbn; lia|]). destruct Hb. }
    cbn [lit list_ascii_of_string length] in E. lia. }
  split; [exact C|]. split; [vm_compute; reflexivity|].
  apply (dedup_columns_spec
           [Some (lit "a"); None; Some (lit "a"); Some []; Some (lit "b")]).
  exact C.
Defined.

(** C4 as the specification words it does not hold: a name that already
    carries a suffix can meet a generated one. *)
Lemma dedup_columns_can_repeat :
  _dedup_columns [Some (lit "a"); Some (lit "a"); Some (lit "a_1")]
  = [lit "a"; lit "a_1"; lit "a_1"] /\
  ~ NoDup (_dedup_columns [Some (lit "a"); Some (lit "a"); Some (lit "a_1")]).
Proof.
  split; [vm_compute; reflexivity|].
  intros H.
  replace (_dedup_columns [Some (lit "a"); Some (lit "a"); Some (lit "a_1")])
    with [lit "a"; lit "a_1"; lit "a_1"] in H by (vm_compute; reflexivity).
  inversion H as [|x l _ H1]. inversion H1 as [|y l' N _].
  apply N. left. reflexivity.
Qed.

(* ------------------------------------------------------------------ *)
(** ** What a successful run of the matcher means                      *)
(* ------------------------------------------------------------------ *)

(** Whatever the continuation accepts was reached by reading [r]. *)
Lemma run_sound (A : Type) (r : re) : forall st (k : mstate -> option A) x,
  run r st k = Some x -> exists st', matches r st st' /\ k st' = Some x.
Proof.
  induction r as [|p|r1 IH1 r2 IH2|r1 IH1 r2 IH2|r1 IH1|n r1 IH1| |];
    intros st k x H; cbn [run] in H.
  - eauto.
  - destruct (rest st) as [|c t] eqn:E; [discriminate|].
    destruct (p c) eqn:Hp; [|discriminate]. eauto.
  - apply IH1 in H. destruct H as (st1 & M1 & H).
    apply IH2 in H. destruct H as (st2 & M2 & H). eauto.
  - destruct (run r1 st k) eqn:E.
    + injection H as ->. apply IH1 in E. destruct E as (st1 & M1 & E). eauto.
    + apply IH2 in H. destruct H as (st1 & M1 & H). eauto.
  - assert (L : forall n st0,
              (fix loop (n : nat) (st : mstate) : option A :=
                 match n with
                 | O => k st
                 | S n' =>
                     match run r1 st (fun st1 => if pos st <? pos st1
                                                 then loop n' st1 else None) with
                     | Some x => Some x
                     | None => k st
                     end
                 end) n st0 = Some x ->
              exists st', matches (Star r1) st0 st' /\ k st' = Some x).
    { induction n as [|n IHn]; intros st0 H0; [eauto|].
      match type of H0 with
      | match ?e with _ => _ end = _ => destruct e eqn:E
      end; [|eauto].
      injection H0 as ->. apply IH1 in E. destruct E as (st1 & M1 & E).
      destruct (pos st0 <? pos st1); [|discriminate].
      apply IHn in E. destruct E as (st2 & M2 & E). eauto. }
    exact (L (S (length (rest st))) st H).
  - apply IH1 in H. destruct H as (st1 & M1 & H). eauto.
  - destruct (pos st =? 0) eqn:E; [|discriminate].
    apply Nat.eqb_eq in E. eauto.
  - destruct (at_boundary st) eqn:E; [|discriminate]. eauto.
Qed.

(** Reading consumes a prefix of the text still to read. *)
Lemma matches_reads r st st' :
  matches r st st' ->
  exists w, rest st = w ++ rest st' /\ pos st' = pos st + length w.
Proof.
  induction 1 as [st|p st c t E Hp|r1 r2 st st1 st2 _ (w1 & E1 & P1) _ (w2 & E2 & P2)
                 |r1 r2 st st1 _ IH|r1 r2 st st1 _ IH|r st
                 |r st st1 st2 _ (w1 & E1 & P1) _ (w2 & E2 & P2)
                 |n r st st1 _ IH|st _|st _];
    try (exists []; split; [reflexivity | cbn; lia]); try exact IH.
  - exists [c]. cbn [pos rest length app]. split; [exact E | lia].
  - exists (w1 ++ w2). rewrite length_app, <- app_assoc, <- E2. split; [exact E1 | lia].
  - exists (w1 ++ w2). rewrite length_app, <- app_assoc, <- E2. split; [exact E1 | lia].
Qed.

(** On a subject [s], the text read is the slice between the offsets. *)
Lemma reads_slice (s : str) st st' w :
  skipn (pos st) s = rest st ->
  rest st = w ++ rest st' -> pos st' = pos st + length w ->
  slice (pos st) (pos st') s = w /\ skipn (pos st') s = rest st'.
Proof.
  intros H0 E P. unfold slice. rewrite P, H0, E. split.
  - replace (pos st + length w - pos st) with (length w + 0) by lia.
    rewrite firstn_app_2. cbn. apply app_nil_r.
  - rewrite Nat.add_comm, <- skipn_skipn, H0, E.
    rewrite skipn_app, skipn_all, Nat.sub_diag. reflexivity.
Qed.

Lemma attempt_sound r n p s m :
  attempt r n p s Some = Some m ->
  mstart m = n /\
  exists st', matches r (MState n p s []) st'
              /\ mend m = pos st' /\ mcaps m = caps st'.
Proof.
  unfold attempt. intros H.
  destruct (run r (MState n p s []) Some) as [st|] eqn:E; [|discriminate].
  injection H as <-. apply run_sound in E. destruct E as (st' & M & E).
  injection E as ->. cbn. eauto.
Qed.

(** A successful search started at some offset of the subject. *)
Lemma search_from_sound r s : forall n p m,
  search_from r n p s = Some m ->
  exists pre s0 p0 st',
    s = pre ++ s0 /\ mstart m = n + length pre
    /\ matches r (MState (mstart m) p0 s0 []) st'
    /\ mend m = pos st' /\ mcaps m = caps st'.
Proof.
  induction s as [|c t IH]; intros n p m H; cbn [search_from] in H.
  - destruct (attempt r n p [] Some) as [m'|] eqn:E; [|discriminate].
    injection H as ->. apply attempt_sound in E. destruct E as (S0 & st' & M & E).
    exists [], [], p, st'. rewrite S0. cbn. rewrite Nat.add_0_r. auto.
  - destruct (attempt r n p (c :: t) Some) as [m'|] eqn:E.
    + injection H as ->. apply attempt_sound in E. destruct E as (S0 & st' & M & E).
      exists [], (c :: t), p, st'. rewrite S0. cbn. rewrite Nat.add_0_r. auto.
    + apply IH in H. destruct H as (pre & s0 & p0 & st' & -> & S0 & M & E').
      exists (c :: pre), s0, p0, st'. cbn [app length].
      split; [reflexivity|]. split; [lia | auto].
Qed.

Lemma matches_cls p st st' :
  matches (Cls p) st st' ->
  exists c, rest st = c :: rest st' /\ p c = true
            /\ pos st' = S (pos st) /\ caps st' = caps st.
Proof. inversion 1; subst. cbn. eauto. Qed.

Lemma matches_star_cls p st st' :
  matches (Star (Cls p)) st st' ->
  exists w, rest st = w ++ rest st' /\ Forall (fun c => p c = true) w
            /\ pos st' = pos st + length w /\ caps st' = caps st.
Proof.
  intros H. remember (Star (Cls p)) as r eqn:R.
  induction H as [| | | | | r0 st|r0 st st1 st2 H1 _ _ IH| | |]; try discriminate R.
  - exists []. cbn. auto.
  - injection R as ->. apply matches_cls in H1.
    destruct H1 as (c & E1 & Hc & P1 & C1).
    destruct (IH eq_refl) as (w & E2 & F & P2 & C2).
    exists (c :: w). cbn [app length]. rewrite E1, E2, P2, P1, C2, C1.
    repeat split; [constructor; assumption | lia].
Qed.

Lemma matches_classes (ps : list (ascii -> bool)) : forall st st',
  matches (seqs (map Cls ps)) st st' ->
  exists w, rest st = w ++ rest st' /\ Forall2 (fun p c => p c = true) ps w
            /\ pos st' = pos st + length w /\ caps st' = caps st.
Proof.
  induction ps as [|p ps IH]; intros st st' H; cbn [seqs map fold_right] in H.
  - inversion H; subst. exists []. cbn. auto.
  - inversion H as [| |r1 r2 s0 s1 s2 H1 H2| | | | | | |]; subst.
    apply matches_cls in H1. destruct H1 as (c & E1 & Hc & P1 & C1).
    apply IH in H2. destruct H2 as (w & E2 & F & P2 & C2).
    exists (c :: w). cbn [app length]. rewrite E1, E2, P2, P1, C2, C1.
    repeat split; [constructor; assumption | lia].
Qed.

Lemma slice_middle (x y z : str) :
  slice (length x) (length x + length y) (x ++ y ++ z) = y.
Proof.
  unfold slice. rewrite skipn_app, skipn_all, Nat.sub_diag. cbn [app skipn].
  replace (length x + length y - length x) with (length y + 0) by lia.
  rewrite firstn_app_2. cbn. apply app_nil_r.
Qed.

Lemma conta_number_sound v num :
  conta_number v = Some num -> conta_shape (cell_str v) num.
Proof.
  unfold conta_number. generalize (cell_str v). intros s H.
  destruct (search RE_CONTA s) as [m|] eqn:E; [|discriminate].
  injection H as <-. unfold search in E.
  apply search_from_sound in E.
  destruct E as (pre & s0 & p0 & st' & -> & S0 & M & Me & Mc).
  cbn [Nat.add] in S0.
  unfold RE_CONTA in M. cbn [seqs fold_right] in M.
  inversion M as [| |? ? ? s1 ? M1 M'| | | | | | |]; subst; clear M.
  inversion M' as [| |? ? ? s2 ? M2 M''| | | | | | |]; subst; clear M'.
  inversion M'' as [| |? ? ? s3 ? M3 M'| | | | | | |]; subst; clear M''.
  inversion M' as [| |? ? ? s4 ? M4 M''| | | | | | |]; subst; clear M'.
  inversion M'' as [| |? ? ? s5 ? M5 M'| | | | | | |]; subst; clear M''.
  inversion M'; subst; clear M'.
  inversion M5 as [| | | | | | |? ? ? s6 M6| |]; subst; clear M5.
  inversion M6 as [| |? ? ? s7 ? M7 M8| | | | | | |]; subst; clear M6.
  change (word_i "CONTA")
    with (seqs (map Cls (map (fun c x => Ascii.eqb (fold_case x) (fold_case c))
                             (lit "CONTA")))) in M1.
  apply matches_classes in M1. destruct M1 as (w & E1 & F1 & P1 & _).
  apply matches_star_cls in M2. destruct M2 as (sp1 & E2 & F2 & P2 & _).
  apply matches_cls in M3. destruct M3 as (h & E3 & F3 & P3 & _).
  apply matches_star_cls in M4. destruct M4 as (sp2 & E4 & F4 & P4 & _).
  apply matches_cls in M7. destruct M7 as (d & E7 & F7 & P7 & _).
  apply matches_star_cls in M8. destruct M8 as (ds & E8 & F8 & P8 & _).
  cbn [rest pos] in *.
  apply Ascii.eqb_eq in F3. subst h.
  assert (G : group 1 (pre ++ s0) m = d :: ds).
  { unfold group. rewrite Mc. cbn [caps cap_lookup Nat.eqb].
    rewrite E1, E2, E3, E4, E7, E8.
    replace (pre ++ w ++ sp1 ++ "#"%char :: sp2 ++ d :: ds ++ rest s6)
      with ((pre ++ w ++ sp1 ++ "#"%char :: sp2) ++ (d :: ds) ++ rest s6)
      by (rewrite <- ?app_assoc; cbn [app]; rewrite <- ?app_assoc; reflexivity).
    replace (pos s4) with (length (pre ++ w ++ sp1 ++ "#"%char :: sp2))
      by (rewrite ?length_app; cbn [length]; rewrite ?length_app; cbn [length]; lia).
    replace (pos s6) with (length (pre ++ w ++ sp1 ++ "#"%char :: sp2)
                           + length (d :: ds))
      by (rewrite ?length_app; cbn [length]; rewrite ?length_app; cbn [length]; lia).
    apply slice_middle. }
  rewrite G. exists pre, w, sp1, sp2, (rest s6).
  split; [rewrite E1, E2, E3, E4, E7, E8; reflexivity|].
  split.
  { clear - F1. cbn [lit list_ascii_of_string map] in F1.
    repeat match goal with
           | H : Forall2 _ (_ :: _) _ |- _ => inversion H; subst; clear H
           | H : Forall2 _ [] _ |- _ => inversion H; subst; clear H
           | H : (_ =? _)%char = true |- _ => apply Ascii.eqb_eq in H
           end.
    match goal with
    | A : _ = fold_case "C", B : _ = fold_case "O", C : _ = fold_case "N",
      D : _ = fold_case "T", E : _ = fold_case "A" |- _ =>
        cbn [map]; rewrite A, B, C, D, E; reflexivity
    end. }
  repeat split; try assumption; [constructor; assumption | discriminate].
Qed.

(* ------------------------------------------------------------------ *)
(** ** extract_portfolio_id                                            *)
(* ------------------------------------------------------------------ *)


(** [first_some] answers with the first element on which [f] answers. *)
Lemma first_some_spec {A B : Type} (f : A -> option B) l y :
  first_some f l = Some y <->
  exists i x, nth_error l i = Some x /\ f x = Some y
              /\ forall i' x', i' < i -> nth_error l i' = Some x' -> f x' = None.
Proof.
  induction l as [|a t IH]; cbn [first_some].
  - split; [discriminate|]. intros (i & x & H & _). destruct i; discriminate H.
  - destruct (f a) eqn:E.
    + split.
      * intros H. injection H as ->. exists 0, a. cbn. repeat split; auto.
        intros i' x' L. lia.
      * intros (i & x & H & Hy & Hn). destruct i as [|i].
        -- cbn in H. injection H as ->. congruence.
        -- rewrite (Hn 0 a) in E by (cbn; auto; lia). discriminate.
    + rewrite IH. split.
      * intros (i & x & H & Hy & Hn). exists (S i), x. repeat split; auto.
        intros [|i'] x' L Hx; cbn in Hx.
        -- injection Hx as <-. exact E.
        -- apply (Hn i'); [lia | exact Hx].
      * intros (i & x & H & Hy & Hn). destruct i as [|i].
        -- cbn in H. injection H as ->. congruence.
        -- exists i, x. repeat split; auto.
           intros i' x' L Hx. apply (Hn (S i')); [lia | exact Hx].
Qed.

(** Dropping the empty cells of a row does not change what is found. *)
Lemma first_some_dropna row :
  first_some conta_number (filter (fun v => negb (isna v)) row)
  = first_some conta_number row.
Proof.
  induction row as [|v t IH]; [reflexivity|].
  assert (E : conta_number CEmpty = None) by (vm_compute; reflexivity).
  destruct v; cbn [filter isna negb first_some]; rewrite IH, ?E; reflexivity.
Qed.

Lemma window_15 (df : grid) : firstn (Nat.min 15 (length df)) df = firstn 15 df.
Proof.
  destruct (Nat.le_ge_cases 15 (length df)) as [L|L].
  - rewrite Nat.min_l by exact L. reflexivity.
  - rewrite Nat.min_r by exact L. rewrite firstn_all, firstn_all2 by exact L.
    reflexivity.
Qed.


(** The scan as one search over the rows 0-14. *)
Lemma extract_portfolio_id_rows df :
  extract_portfolio_id df
  = first_some (first_some conta_number) (firstn 15 df).
Proof.
  unfold extract_portfolio_id. rewrite window_15.
  induction (firstn 15 df) as [|row t IH]; cbn [first_some]; [reflexivity|].
  rewrite first_some_dropna, IH. reflexivity.
Qed.



(* ------------------------------------------------------------------ *)
(** ** Tables: rows and labels                                         *)
(* ------------------------------------------------------------------ *)

Lemma nth_error_enumerate_from {A : Type} (l : list A) : forall a i,
  nth_error (combine (seq a (length l)) l) i
  = option_map (pair (a + i)) (nth_error l i).
Proof.
  induction l as [|x t IH]; intros a i; cbn [length seq combine].
  - destruct i; reflexivity.
  - destruct i as [|i]; cbn [nth_error option_map].
    + rewrite Nat.add_0_r. reflexivity.
    + rewrite IH. replace (S a + i) with (a + S i) by lia. reflexivity.
Qed.

Lemma nth_error_enumerate {A : Type} (l : list A) i :
  nth_error (enumerate l) i = option_map (pair i) (nth_error l i).
Proof. unfold enumerate. apply nth_error_enumerate_from. Qed.

(** [df.iloc[a:b]] holds the rows [a <= i < b] of the sheet, labelled. *)
Lemma in_iloc_rows (df : grid) a b i row :
  In (i, row) (iloc_rows a b df) <-> a <= i < b /\ nth_error df i = Some row.
Proof.
  unfold iloc_rows. split.
  - intros H. apply In_nth_error in H. destruct H as (k & H).
    rewrite nth_error_firstn in H.
    destruct (k <? b - a) eqn:L; [|discriminate]. apply Nat.ltb_lt in L.
    rewrite nth_error_skipn, nth_error_enumerate in H.
    destruct (nth_error df (a + k)) as [x|] eqn:E; [|discriminate].
    cbn in H. injection H as <- <-. split; [lia | exact E].
  - intros ((L1 & L2) & H).
    apply (nth_error_In _ (i - a)).
    rewrite nth_error_firstn.
    assert (L : (i - a <? b - a) = true) by (apply Nat.ltb_lt; lia).
    rewrite L, nth_error_skipn, nth_error_enumerate.
    replace (a + (i - a)) with i by lia. rewrite H. reflexivity.
Qed.

(** The rows that survive under a holdings anchor. *)
Lemma in_holdings_body (df : grid) r next_r i row :
  In (i, row) (holdings_body df r next_r) <->
  r < i < next_r /\ nth_error df i = Some row
  /\ forallb isna row = false
  /\ mem (UPPER_STRIP (hd CEmpty row)) KEYWORDS_SKIP = false.
Proof.
  unfold holdings_body, dropna_all. rewrite !filter_In, in_iloc_rows.
  unfold first_cell. cbn [snd]. rewrite !negb_true_iff.
  split; [intros (((L & H) & E) & K) | intros (L & H & E & K)];
    repeat split; try assumption; lia.
Qed.

Lemma in_transactions_body (df : grid) start stop i row :
  In (i, row) (transactions_body df start stop) <->
  start < i < stop /\ nth_error df i = Some row /\ forallb isna row = false.
Proof.
  unfold transactions_body, dropna_all. rewrite filter_In, in_iloc_rows.
  cbn [snd]. rewrite negb_true_iff.
  split; [intros ((L & H) & E) | intros (L & H & E)];
    repeat split; try assumption; lia.
Qed.

Lemma frame_insert_rows loc name value f f' :
  frame_insert loc name value f = Some f' ->
  map fst (rows f') = map fst (rows f)
  /\ columns f' = insert_at loc name (columns f).
Proof.
  unfold frame_insert. destruct (mem name (columns f)); [discriminate|].
  intros H. injection H as <-. cbn [rows columns]. split; [|reflexivity].
  rewrite map_map. apply map_ext. reflexivity.
Qed.

Lemma normalize_date_columns_rows dtparse f :
  map fst (rows (normalize_date_columns dtparse f)) = map fst (rows f)
  /\ columns (normalize_date_columns dtparse f) = columns f.
Proof.
  unfold normalize_date_columns. cbn [rows columns]. split; [|reflexivity].
  rewrite map_map. apply map_ext. reflexivity.
Qed.

Lemma nth_error_combine_map {A B : Type} (f : A -> B) (l : list A) : forall i,
  nth_error (combine l (map f l)) i = option_map (fun x => (x, f x)) (nth_error l i).
Proof.
  induction l as [|x t IH]; intros [|i]; cbn; auto.
Qed.

Lemma series_row_empty cols : Forall (fun v => v = CEmpty) (series_row cols []).
Proof.
  unfold series_row. apply Forall_forall. intros v H.
  apply in_map_iff in H. destruct H as (k & <- & _). reflexivity.
Qed.

(** C9. Decomposing the details column keeps every row of the table, in
    order and under its label; the cells of the columns that were there
    stay as they are, the new columns come after them; and a row whose
    details cell decomposes to the empty record gets only empty cells in
    the new columns. The table returned for an anchor row has the rows
    of its body. *)
Theorem expand_details_keeps_rows (dtparse : str -> option date) (body : frame) :
  let out := expand_details dtparse body in
  map fst (rows out) = map fst (rows body) /\
  (exists new_cols,
     columns out = columns body ++ new_cols /\
     forall i row, nth_error (rows body) i = Some row ->
       exists extra,
         nth_error (rows out) i = Some (fst row, snd row ++ extra)
         /\ length extra = length new_cols
         /\ (forall j name,
               find (fun cn => mem (UPPER_STRIP (CStr (snd cn))) DETAILS_NAMES)
                    (enumerate (columns body)) = Some (j, name) ->
               parse_details dtparse (nth j (snd row) CEmpty) = [] ->
               Forall (fun v => v = CEmpty) extra)) /\
  (forall df portfolio start data sub,
     transactions_subtable dtparse df portfolio start data = Some sub ->
     map fst (rows sub) = map fst data).
Proof.
  assert (Main : forall b,
    map fst (rows (expand_details dtparse b)) = map fst (rows b) /\
    exists new_cols,
     columns (expand_details dtparse b) = columns b ++ new_cols /\
     forall i row, nth_error (rows b) i = Some row ->
       exists extra,
         nth_error (rows (expand_details dtparse b)) i = Some (fst row, snd row ++ extra)
         /\ length extra = length new_cols
         /\ (forall j name,
               find (fun cn => mem (UPPER_STRIP (CStr (snd cn))) DETAILS_NAMES)
                    (enumerate (columns b)) = Some (j, name) ->
               parse_details dtparse (nth j (snd row) CEmpty) = [] ->
               Forall (fun v => v = CEmpty) extra)).
  { intros b. unfold expand_details.
    destruct (find _ (enumerate (columns b))) as [[j name]|] eqn:F.
    - cbn [rows columns].
      set (f := fun row : nat * list cell => parse_details dtparse (nth j (snd row) CEmpty)).
      set (new_cols := union_keys [] (map f (rows b))).
      split.
      + rewrite map_map. cbn [fst].
        generalize (rows b). intros l. induction l as [|x t IH]; cbn; congruence.
      + exists new_cols. split; [reflexivity|].
        intros i row H. exists (series_row new_cols (f row)).
        split; [|split].
        * rewrite nth_error_map, nth_error_combine_map, H. reflexivity.
        * unfold series_row. apply length_map.
        * intros j' name' E' Hd. injection E' as <- <-.
          unfold f. rewrite Hd. apply series_row_empty.
    - split; [reflexivity|]. exists []. split; [symmetry; apply app_nil_r|].
      intros i row H. exists []. rewrite app_nil_r.
      split; [rewrite H; destruct row; reflexivity|].
      split; [reflexivity|]. intros j name E. discriminate E. }
  intros out. subst out.
  destruct (Main body) as (R & C). split; [exact R|]. split; [exact C|].
  intros df portfolio start data sub H. unfold transactions_subtable in H.
  apply frame_insert_rows in H. destruct H as (H & _). rewrite H.
  rewrite (proj1 (normalize_date_columns_rows dtparse _)).
  rewrite (proj1 (Main _)). reflexivity.
Qed.

(* ------------------------------------------------------------------ *)
(** ** parse_holdings_sheet                                            *)
(* ------------------------------------------------------------------ *)

Lemma holdings_subtable_rows dtparse df portfolio r c data :
  metadata_free (body_columns df r (ncols df)) ->
  exists t, holdings_subtable dtparse df portfolio r c data = Some t
            /\ map fst (rows t) = map fst data
            /\ columns t = lit "Portfolio" :: lit "AssetType" :: lit "AssetName"
                           :: body_columns df r (ncols df).
Proof.
  intros (H1 & H2 & H3). unfold holdings_subtable, frame_insert.
  assert (Cons : forall x y l, mem x (y :: l) = str_eqb x y || mem x l)
    by reflexivity.
  cbn [columns rows bind]. rewrite H1.
  cbn [bind columns rows insert_at firstn skipn app].
  rewrite Cons, H2.
  replace (str_eqb (lit "AssetType") (lit "Portfolio")) with false
    by (vm_compute; reflexivity).
  cbn [orb bind columns rows insert_at firstn skipn app].
  rewrite !Cons, H3.
  replace (str_eqb (lit "AssetName") (lit "Portfolio")) with false
    by (vm_compute; reflexivity).
  replace (str_eqb (lit "AssetName") (lit "AssetType")) with false
    by (vm_compute; reflexivity).
  cbn [orb bind].
  eexists. split; [reflexivity|].
  split; [|reflexivity].
  rewrite (proj1 (normalize_date_columns_rows dtparse _)). cbn [rows].
  rewrite !map_map. apply map_ext. reflexivity.
Qed.

(** C8, as the code has it. With exactly two anchors, at least one
    surviving row strictly between the two anchor rows and at least one
    after the second anchor row, and no header name of an anchor row
    equal to one of the three inserted labels, two tables are returned:
    the first holds the surviving rows strictly between the anchor rows,
    the second those from the row after the second anchor to the end of
    the sheet; a row whose first cell normalises to TOTAL is in neither.
    A row survives when it is not entirely empty and its first cell does
    not normalise to a word of the skip list. *)
Theorem parse_holdings_two_anchors (dtparse : str -> option date)
    (df : grid) (portfolio : str) (r1 c1 r2 c2 : nat) :
  holdings_headers df = [(r1, c1); (r2, c2)] ->
  holdings_body df r1 r2 <> [] ->
  holdings_body df r2 (length df) <> [] ->
  metadata_free (body_columns df r1 (ncols df)) ->
  metadata_free (body_columns df r2 (ncols df)) ->
  exists t1 t2,
    parse_holdings_sheet dtparse df portfolio = Some [t1; t2]
    /\ map fst (rows t1) = map fst (holdings_body df r1 r2)
    /\ map fst (rows t2) = map fst (holdings_body df r2 (length df))
    /\ (forall i, In i (map fst (rows t1)) <->
          r1 < i < r2 /\ exists row, nth_error df i = Some row
            /\ forallb isna row = false
            /\ mem (UPPER_STRIP (hd CEmpty row)) KEYWORDS_SKIP = false)
    /\ (forall i, In i (map fst (rows t2)) <->
          r2 < i < length df /\ exists row, nth_error df i = Some row
            /\ forallb isna row = false
            /\ mem (UPPER_STRIP (hd CEmpty row)) KEYWORDS_SKIP = false)
    /\ (forall i row, nth_error df i = Some row ->
          UPPER_STRIP (hd CEmpty row) = lit "TOTAL" ->
          ~ In i (map fst (rows t1)) /\ ~ In i (map fst (rows t2))).
Proof.
  intros Hh B1 B2 F1 F2.
  destruct (holdings_subtable_rows dtparse df portfolio r1 c1
              (holdings_body df r1 r2) F1) as (t1 & S1 & R1 & _).
  destruct (holdings_subtable_rows dtparse df portfolio r2 c2
              (holdings_body df r2 (length df)) F2) as (t2 & S2 & R2 & _).
  assert (Rows : forall a b i,
            In i (map fst (holdings_body df a b)) <->
            a < i < b /\ exists row, nth_error df i = Some row
              /\ forallb isna row = false
              /\ mem (UPPER_STRIP (hd CEmpty row)) KEYWORDS_SKIP = false).
  { intros a b i. rewrite in_map_iff. split.
    - intros ([i' row] & E & H). cbn in E. subst i'.
      apply in_holdings_body in H. destruct H as (L & H). eauto.
    - intros (L & row & H). exists (i, row). split; [reflexivity|].
      apply in_holdings_body. auto. }
  exists t1, t2. split; [|split; [exact R1|split; [exact R2|split; [|split]]]].
  - unfold parse_holdings_sheet. rewrite Hh. cbn [holdings_loop].
    destruct (holdings_body df r1 r2) as [|x1 b1] eqn:E1; [congruence|].
    rewrite S1. cbn [bind].
    destruct (holdings_body df r2 (length df)) as [|x2 b2] eqn:E2; [congruence|].
    rewrite S2. reflexivity.
  - intros i. rewrite R1. apply Rows.
  - intros i. rewrite R2. apply Rows.
  - intros i row H T. rewrite R1, R2, !Rows.
    assert (K : mem (UPPER_STRIP (hd CEmpty row)) KEYWORDS_SKIP = true)
      by (rewrite T; vm_compute; reflexivity).
    split; intros (_ & row' & H' & _ & K'); congruence.
Qed.

Lemma parse_holdings_two_anchors_witness :
  holdings_headers sheet_two_anchors = [(1, 1); (5, 1)] /\
  map fst (holdings_body sheet_two_anchors 1 5) = [2] /\
  map fst (holdings_body sheet_two_anchors 5 8) = [7] /\
  exists t1 t2,
    parse_holdings_sheet parse_dmy sheet_two_anchors (lit "4711") = Some [t1; t2]
    /\ map fst (rows t1) = [2] /\ map fst (rows t2) = [7].
Proof.
  assert (Hh : holdings_headers sheet_two_anchors = [(1, 1); (5, 1)])
    by (vm_compute; reflexivity).
  assert (E1 : map fst (holdings_body sheet_two_anchors 1 5) = [2])
    by (vm_compute; reflexivity).
  assert (E2 : map fst (holdings_body sheet_two_anchors 5 8) = [7])
    by (vm_compute; reflexivity).
  split; [exact Hh|]. split; [exact E1|]. split; [exact E2|].
  destruct (parse_holdings_two_anchors parse_dmy sheet_two_anchors (lit "4711")
              1 1 5 1 Hh) as (t1 & t2 & P & R1 & R2 & _).
  - intros E. rewrite E in E1. discriminate E1.
  - intros E. change (length sheet_two_anchors) with 8 in E.
    rewrite E in E2. discriminate E2.
  - vm_compute. auto.
  - vm_compute. auto.
  - exists t1, t2. split; [exact P|].
    change (length sheet_two_anchors) with 8 in R2.
    rewrite R1, R2, E1, E2. auto.
Defined.

(** C8 as the specification words it does not hold on every sheet: a
    header cell reading "Portfolio" makes [data.insert] raise, and no
    table is returned. *)
Lemma parse_holdings_header_clash :
  holdings_headers sheet_header_clash = [(0, 0); (2, 0)] /\
  map fst (holdings_body sheet_header_clash 0 2) = [1] /\
  map fst (holdings_body sheet_header_clash 2 4) = [3] /\
  parse_holdings_sheet parse_dmy sheet_header_clash (lit "4711") = None.
Proof.
  vm_compute. repeat split; reflexivity.
Qed.

Lemma expand_details_keeps_rows_witness :
  map fst (rows (expand_details parse_dmy body_with_details)) = [1; 2] /\
  columns (expand_details parse_dmy body_with_details)
  = [lit "Carteira"; lit "Detalhes"; lit "Valor";
     Det_Tipo; Det_Qty1; Det_Ccy; Det_AssetName] /\
  nth_error (rows (expand_details parse_dmy body_with_details)) 1
  = Some (2, [CStr (lit "B"); CEmpty; COther (lit "2.0");
              CEmpty; CEmpty; CEmpty; CEmpty]).
Proof.
  destruct (expand_details_keeps_rows parse_dmy body_with_details) as (R & _ & _).
  split; [rewrite R; reflexivity|].
  split; vm_compute; reflexivity.
Defined.

(* ------------------------------------------------------------------ *)
(** ** Spans of matches                                                *)
(* ------------------------------------------------------------------ *)

(** A successful search cuts the subject in three: what stands before
    the match, the match, what stands after it. *)
Lemma search_span r s m :
  search r s = Some m ->
  exists pre w post,
    s = pre ++ w ++ post
    /\ mstart m = length pre /\ mend m = length pre + length w.
Proof.
  unfold search. intros H. apply search_from_sound in H.
  destruct H as (pre & s0 & p0 & st' & -> & S0 & M & Me & _).
  apply matches_reads in M. destruct M as (w & E & P).
  cbn [rest pos] in E, P. cbn [Nat.add] in S0.
  exists pre, w, (rest st'). rewrite E. repeat split; lia.
Qed.

Lemma span_group0 (pre w post : str) m :
  mstart m = length pre -> mend m = length pre + length w ->
  group0 (pre ++ w ++ post) m = w.
Proof. intros S0 S1. unfold group0. rewrite S0, S1. apply slice_middle. Qed.

Lemma span_excise (pre w post : str) m :
  mstart m = length pre -> mend m = length pre + length w ->
  excise (pre ++ w ++ post) m = pre ++ post.
Proof.
  intros S0 S1. unfold excise. rewrite S0, S1.
  rewrite firstn_app, Nat.sub_diag, firstn_all, firstn_O, app_nil_r.
  rewrite skipn_app, skipn_all2 by lia.
  replace (length pre + length w - length pre) with (length w) by lia.
  rewrite skipn_app, skipn_all, Nat.sub_diag. reflexivity.
Qed.

(** Captures made while reading lie between the two offsets. *)
Lemma matches_caps r st st' :
  matches r st st' ->
  pos st <= pos st'
  /\ exists new, caps st' = new ++ caps st
     /\ Forall (fun c => pos st <= fst (snd c) /\ fst (snd c) <= snd (snd c)
                         /\ snd (snd c) <= pos st') new.
Proof.
  induction 1 as [st|p st c t E Hp
                 |r1 r2 st st1 st2 _ (L1 & n1 & C1 & F1) _ (L2 & n2 & C2 & F2)
                 |r1 r2 st st1 _ IH|r1 r2 st st1 _ IH|r st
                 |r st st1 st2 _ (L1 & n1 & C1 & F1) _ (L2 & n2 & C2 & F2)
                 |n r st st1 _ (L1 & n1 & C1 & F1)|st _|st _];
    try (split; [lia | exists []; split; [reflexivity | constructor]]);
    try exact IH.
  - cbn [pos caps]. split; [lia | exists []; split; [reflexivity | constructor]].
  - split; [lia|]. exists (n2 ++ n1). rewrite C2, C1, app_assoc.
    split; [reflexivity|]. apply Forall_app. split.
    + eapply Forall_impl; [|exact F2]. cbn. intros; lia.
    + eapply Forall_impl; [|exact F1]. cbn. intros; lia.
  - split; [lia|]. exists (n2 ++ n1). rewrite C2, C1, app_assoc.
    split; [reflexivity|]. apply Forall_app. split.
    + eapply Forall_impl; [|exact F2]. cbn. intros; lia.
    + eapply Forall_impl; [|exact F1]. cbn. intros; lia.
  - cbn [pos caps]. split; [lia|]. exists ((n, (pos st, pos st1)) :: n1).
    rewrite C1. split; [reflexivity|]. constructor; [cbn; lia | exact F1].
Qed.

Lemma cap_lookup_in n l span :
  cap_lookup n l = Some span -> In (n, span) l.
Proof.
  induction l as [|[i sp] t IH]; cbn [cap_lookup]; [discriminate|].
  destruct (i =? n) eqn:E.
  - intros H. injection H as ->. apply Nat.eqb_eq in E. subst. left. reflexivity.
  - intros H. right. auto.
Qed.

Lemma slice_inside (pre w post : str) a b :
  length pre <= a -> a <= b -> b <= length pre + length w ->
  infix_of (slice a b (pre ++ w ++ post)) w.
Proof.
  intros L1 L2 L3. unfold slice, infix_of.
  rewrite skipn_app, skipn_all2, app_nil_l by lia.
  rewrite skipn_app, firstn_app.
  replace (b - a - length (skipn (a - length pre) w)) with 0
    by (rewrite length_skipn; lia).
  rewrite firstn_O, app_nil_r.
  exists (firstn (a - length pre) w),
         (skipn (b - a) (skipn (a - length pre) w)).
  rewrite firstn_skipn, firstn_skipn. reflexivity.
Qed.

(** Every group of a match found by [search] is a piece of the match. *)
Lemma search_group r s m n :
  search r s = Some m ->
  exists pre w post,
    s = pre ++ w ++ post
    /\ mstart m = length pre /\ mend m = length pre + length w
    /\ infix_of (group n s m) w.
Proof.
  unfold search. intros H. apply search_from_sound in H.
  destruct H as (pre & s0 & p0 & st' & -> & S0 & M & Me & Mc).
  pose proof (matches_caps _ _ _ M) as (_ & new & C & F).
  apply matches_reads in M. destruct M as (w & E & P).
  cbn [rest pos caps] in E, P, C, F. cbn [Nat.add] in S0.
  exists pre, w, (rest st'). rewrite E.
  split; [reflexivity|]. split; [lia|]. split; [lia|].
  unfold group. rewrite Mc, C, app_nil_r.
  destruct (cap_lookup n new) as [[a b]|] eqn:L.
  - apply cap_lookup_in in L. rewrite Forall_forall in F.
    specialize (F _ L). cbn in F. apply slice_inside; lia.
  - exists [], w. reflexivity.
Qed.

Lemma infix_of_trans (x y z : str) :
  infix_of x y -> infix_of y z -> infix_of x z.
Proof.
  intros (a & b & ->) (c & d & ->). exists (c ++ a), (b ++ d).
  rewrite <- !app_assoc. reflexivity.
Qed.

Lemma strip_by_infix p s : infix_of (strip_by p s) s.
Proof.
  destruct (strip_by_split p s) as (pre & post & E & _).
  exists pre, post. exact E.
Qed.

(* ------------------------------------------------------------------ *)
(** ** _extract_advice                                                 *)
(* ------------------------------------------------------------------ *)

(** When a code is found, it is a piece of one span of the text, and
    the text handed on is the text without that span, trimmed of the
    separators " /-" at both ends; when none is found, the text is
    handed on as it is and none of the three patterns occurs in it. *)
Theorem extract_advice_excises (rest : str) :
  (forall code rest',
     _extract_advice rest = (Some code, rest') ->
     exists pre w post,
       rest = pre ++ w ++ post
       /\ infix_of code w
       /\ rest' = strip_chars " /-" (pre ++ post)) /\
  (forall rest',
     _extract_advice rest = (None, rest') ->
     rest' = rest
     /\ search RE_ADVICE rest = None
     /\ search RE_FX_CODE rest = None
     /\ search RE_GENERIC_ADV rest = None).
Proof.
  unfold _extract_advice. split.
  - intros code rest' H.
    destruct (search RE_ADVICE rest) as [m|] eqn:E1.
    { injection H as <- <-.
      destruct (search_group _ _ _ 1 E1) as (pre & w & post & Es & S0 & S1 & I).
      exists pre, w, post. split; [exact Es|]. split.
      - eapply infix_of_trans; [apply strip_by_infix | exact I].
      - rewrite Es at 1. rewrite (span_excise pre w post m S0 S1). reflexivity. }
    destruct (search RE_FX_CODE rest) as [m|] eqn:E2.
    { injection H as <- <-.
      destruct (search_span _ _ _ E2) as (pre & w & post & Es & S0 & S1).
      exists pre, w, post. split; [exact Es|].
      rewrite Es at 1 2.
      rewrite (span_group0 pre w post m S0 S1), (span_excise pre w post m S0 S1).
      split; [exists [], []; rewrite app_nil_r; reflexivity | reflexivity]. }
    destruct (search RE_GENERIC_ADV rest) as [m|] eqn:E3; [|discriminate H].
    injection H as <- <-.
    destruct (search_span _ _ _ E3) as (pre & w & post & Es & S0 & S1).
    exists pre, w, post. split; [exact Es|].
    rewrite Es at 1 2.
    rewrite (span_group0 pre w post m S0 S1), (span_excise pre w post m S0 S1).
    split; [exists [], []; rewrite app_nil_r; reflexivity | reflexivity].
  - intros rest' H.
    destruct (search RE_ADVICE rest); [discriminate H|].
    destruct (search RE_FX_CODE rest); [discriminate H|].
    destruct (search RE_GENERIC_ADV rest); [discriminate H|].
    injection H as <-. auto.
Qed.

Lemma extract_advice_excises_witness :
  _extract_advice (text_labelled)
  = (Some (lit "AB12.3"), lit "ompra  / VALE") /\
  exists pre w post,
    text_labelled = pre ++ w ++ post
    /\ infix_of (lit "AB12.3") w
    /\ lit "ompra  / VALE" = strip_chars " /-" (pre ++ post).
Proof.
  assert (E : _extract_advice (text_labelled)
              = (Some (lit "AB12.3"), lit "ompra  / VALE"))
    by (vm_compute; reflexivity).
  split; [exact E|].
  apply (proj1 (extract_advice_excises (text_labelled))).
  exact E.
Defined.

(* ------------------------------------------------------------------ *)
(** ** _clean_num                                                      *)
(* ------------------------------------------------------------------ *)

Lemma replace_char_delete c s :
  replace [c] [] s = filter (fun x => negb (Ascii.eqb c x)) s.
Proof.
  unfold replace. induction s as [|a t IH]; [reflexivity|].
  cbn [replace_go startswith filter length Nat.sub].
  destruct (Ascii.eqb c a); cbn [andb negb app]; rewrite IH; reflexivity.
Qed.

Lemma lstrip_by_head p s c t : lstrip_by p s = c :: t -> p c = false.
Proof.
  induction s as [|a u IH]; cbn [lstrip_by]; [discriminate|].
  destruct (p a) eqn:E; [exact IH|]. intros H. injection H as <- _. exact E.
Qed.

Lemma lstrip_by_incl p s x : In x (lstrip_by p s) -> In x s.
Proof.
  destruct (lstrip_by_split p s) as (pre & E & _). intros H.
  rewrite E. apply in_or_app. right. exact H.
Qed.

Lemma digits_value_lstrip_zero s :
  digits_value 0 (lstrip "0" s) = digits_value 0 s.
Proof.
  unfold lstrip. induction s as [|a t IH]; [reflexivity|].
  cbn [lstrip_by]. destruct (one_of "0" a) eqn:E; [|reflexivity].
  assert (a = "0"%char).
  { cbn in E. rewrite orb_false_r in E. apply Ascii.eqb_eq in E. exact E. }
  subst a. rewrite IH. reflexivity.
Qed.

(** A cleaned number is never empty, holds no comma, has no leading
    zero unless it is "0", is left as it is by a second cleaning, and
    reads as the same decimal number as the text without its commas. *)
Theorem clean_num_canonical (s : str) :
  let c := _clean_num s in
  c <> []
  /\ ~ In ","%char c
  /\ (c = lit "0" \/ exists h t, c = h :: t /\ h <> "0"%char)
  /\ _clean_num c = c
  /\ digits_value 0 c
     = digits_value 0 (filter (fun x => negb (Ascii.eqb "," x)) s).
Proof.
  cbv zeta. unfold _clean_num.
  change (lit ",") with [","%char]. rewrite replace_char_delete.
  set (f := filter (fun x => negb (Ascii.eqb "," x)) s).
  assert (NoComma : ~ In ","%char f).
  { unfold f. intros H. apply filter_In in H. destruct H as (_ & H).
    rewrite Ascii.eqb_refl in H. discriminate H. }
  destruct (lstrip "0" f) as [|h t] eqn:E; cbn [or_else].
  - split; [discriminate|]. split.
    { intros [H|[]]. discriminate H. }
    split; [left; reflexivity|]. split; [vm_compute; reflexivity|].
    rewrite <- (digits_value_lstrip_zero f), E. reflexivity.
  - assert (Hh : h <> "0"%char).
    { intros ->. apply lstrip_by_head in E. discriminate E. }
    assert (NC : ~ In ","%char (h :: t)).
    { intros H. apply NoComma. apply (lstrip_by_incl (one_of "0")).
      unfold lstrip in E. rewrite E. exact H. }
    split; [discriminate|]. split; [exact NC|].
    split; [right; eauto|]. split.
    + rewrite replace_char_delete.
      assert (F : filter (fun x => negb (Ascii.eqb "," x)) (h :: t) = h :: t).
      { apply forallb_filter_id. apply forallb_forall. intros x Hx.
        apply negb_true_iff. destruct (Ascii.eqb_spec "," x) as [<-|]; [|reflexivity].
        contradiction. }
      rewrite F. unfold lstrip. cbn [lstrip_by].
      assert (Z : one_of "0" h = false).
      { cbn. rewrite orb_false_r. apply Ascii.eqb_neq. exact Hh. }
      rewrite Z. reflexivity.
    + rewrite <- E. apply digits_value_lstrip_zero.
Qed.

(* ------------------------------------------------------------------ *)
(** ** _dedup_columns on names without repeats                         *)
(* ------------------------------------------------------------------ *)

Lemma dedup_loop_fresh cols : forall seen,
  NoDup cols -> (forall c, In c cols -> seen_get seen c = 0) ->
  dedup_loop seen cols = cols.
Proof.
  induction cols as [|col t IH]; intros seen N Z; [reflexivity|].
  cbn [dedup_loop]. rewrite (Z col) by (left; reflexivity). cbn [suffixed].
  inversion N as [|? ? Hin N']; subst. f_equal. apply IH; [exact N'|].
  intros c Hc. rewrite seen_get_set.
  destruct (str_eqb col c) eqn:E.
  - apply str_eqb_eq in E. subst c. contradiction.
  - apply Z. right. exact Hc.
Qed.

Lemma suffixed_longer n k : suffixed n (S k) <> n.
Proof.
  cbn [suffixed]. intros H. apply (f_equal (@length ascii)) in H.
  rewrite !length_app in H. cbn in H. lia.
Qed.

(** The names come back unchanged exactly when, with the placeholder
    put in, no name is repeated. *)
Theorem dedup_columns_unchanged_iff (cols : list (option str)) :
  _dedup_columns cols = map name_or_placeholder cols
  <-> NoDup (map name_or_placeholder cols).
Proof.
  unfold _dedup_columns. set (names := map name_or_placeholder cols).
  split.
  - intros H. apply NoDup_nth_error. intros i j Hi E.
    destruct (nth_error names i) as [n|] eqn:Ei;
      [|apply nth_error_None in Ei; lia].
    symmetry in E.
    assert (K : forall a b, a < b -> nth_error names a = Some n ->
                nth_error names b = Some n -> False).
    { intros a b L Ha Hb.
      pose proof (dedup_loop_nth names [] b n Hb) as D.
      rewrite H, Hb in D. injection D as D. cbn [seen_get Nat.add] in D.
      pose proof (count_name_grows n names a b Ha L) as G.
      destruct (count_name n (firstn b names)) as [|k]; [lia|].
      symmetry in D. exact (suffixed_longer n k D). }
    destruct (Nat.lt_trichotomy i j) as [L|[L|L]]; [|exact L|].
    + exfalso. exact (K i j L Ei E).
    + exfalso. exact (K j i L E Ei).
  - intros N. apply dedup_loop_fresh; [exact N | reflexivity].
Qed.

(* ------------------------------------------------------------------ *)
(** ** parse_details: what the entries hold                            *)
(* ------------------------------------------------------------------ *)

(** The record as the composition of the stages. *)
Lemma parse_details_stages dtparse s :
  let txt := strip s in
  let tipo := fst (tipo_stage txt) in
  let advice := fst (_extract_advice (snd (tipo_stage txt))) in
  let rest := snd (_extract_advice (snd (tipo_stage txt))) in
  let qty := quantity_stage tipo rest
               (set_if_text (dict_set [] Det_Tipo (opt_cell tipo)) Det_Advice advice) in
  let ccy := currency_stage rest (after_quantity rest (snd qty)) in
  let dat := date_stage dtparse (snd ccy)
               (dict_set (fst qty) Det_Ccy (opt_cell (fst ccy))) in
  parse_details dtparse (CStr s)
  = dict_set (advice_type_stage txt (fst dat)) Det_AssetName
      (match snd dat with [] => CEmpty | _ :: _ => CStr (snd dat) end).
Proof.
  cbv zeta. unfold parse_details.
  destruct (tipo_stage (strip s)) as [tipo rest0]. cbn [fst snd].
  destruct (_extract_advice rest0) as [advice rest]. cbn [fst snd].
  destruct (quantity_stage tipo rest _) as [out1 qty_end]. cbn [fst snd].
  destruct (currency_stage rest _) as [ccy rem2]. cbn [fst snd].
  destruct (date_stage dtparse rem2 _) as [out3 rem3]. reflexivity.
Qed.

Lemma mem_In x l : mem x l = true <-> In x l.
Proof.
  unfold mem. rewrite existsb_exists. split.
  - intros (y & Hy & E). apply str_eqb_eq in E. subst. exact Hy.
  - intros H. exists x. split; [exact H | apply str_eqb_refl].
Qed.

Lemma currency_stage_whitelisted rest remaining c :
  fst (currency_stage rest remaining) = Some c -> In c CURRENCIES.
Proof.
  unfold currency_stage.
  destruct (find _ _) as [ccy|] eqn:F; cbn [fst]; [|discriminate].
  intros H. injection H as <-. apply find_some in F.
  apply mem_In. tauto.
Qed.

(** A recorded currency is one of the seven codes of the whitelist. *)
Theorem parse_details_currency (dtparse : str -> option date) (v : cell) (c : str) :
  dict_get Det_Ccy (parse_details dtparse v) = Some (CStr c) ->
  In c CURRENCIES.
Proof.
  destruct v as [|s|r]; [discriminate| |discriminate].
  rewrite parse_details_stages. cbv zeta. through_stages.
  rewrite dict_get_set_same.
  destruct (fst (currency_stage _ _)) as [c'|] eqn:E; cbn [opt_cell];
    [|discriminate].
  intros H. injection H as <-. eapply currency_stage_whitelisted. exact E.
Qed.

Lemma parse_details_currency_witness :
  dict_get Det_Ccy (parse_details parse_dmy (CStr narration_sale))
  = Some (CStr (lit "EUR"))
  /\ In (lit "EUR") CURRENCIES.
Proof.
  assert (E : dict_get Det_Ccy (parse_details parse_dmy (CStr narration_sale))
              = Some (CStr (lit "EUR"))) by (vm_compute; reflexivity).
  split; [exact E|].
  exact (parse_details_currency parse_dmy (CStr narration_sale) (lit "EUR") E).
Defined.

Lemma clean_num_shape s :
  _clean_num s <> []
  /\ ~ In ","%char (_clean_num s)
  /\ (_clean_num s = lit "0"
      \/ exists h t, _clean_num s = h :: t /\ h <> "0"%char).
Proof.
  unfold _clean_num.
  change (lit ",") with [","%char]. rewrite replace_char_delete.
  destruct (lstrip "0" (filter (fun x => negb (Ascii.eqb "," x)) s))
    as [|h t] eqn:E; cbn [or_else].
  - split; [discriminate|]. split; [|left; reflexivity].
    intros [H|[]]. discriminate H.
  - split; [discriminate|]. split.
    + intros H. rewrite <- E in H.
      apply (lstrip_by_incl (one_of "0")) in H. apply filter_In in H.
      destruct H as (_ & H). rewrite Ascii.eqb_refl in H. discriminate H.
    + right. exists h, t. split; [reflexivity|].
      intros ->. apply lstrip_by_head in E. discriminate E.
Qed.

Lemma quantity_stage_cleaned tipo rest out k v :
  k = Det_Qty1 \/ k = Det_Qty2 ->
  dict_get k out = None ->
  dict_get k (fst (quantity_stage tipo rest out)) = Some v ->
  exists s, v = CStr (_clean_num s).
Proof.
  intros K H0. unfold quantity_stage.
  assert (N12 : Det_Qty1 <> Det_Qty2) by key_neq.
  assert (N21 : Det_Qty2 <> Det_Qty1) by key_neq.
  destruct (search RE_SLASH_QTY rest); cbn [fst].
  { destruct K as [-> | ->]; rewrite ?dict_get_set_same;
      rewrite ?(dict_get_set_other _ Det_Qty1 Det_Qty2) by exact N21;
      rewrite ?dict_get_set_same; intros H; injection H as <-; eauto. }
  destruct (search RE_QTY_PT1 rest), (search RE_QTY_PT2 rest);
    match goal with |- context [if ?b then _ else _] => destruct b end;
    try destruct (search RE_QTY_STANDALONE rest); cbn [fst];
    destruct K as [-> | ->];
    rewrite ?dict_get_set_same;
    rewrite ?(dict_get_set_other _ Det_Qty1 Det_Qty2) by exact N21;
    rewrite ?(dict_get_set_other _ Det_Qty2 Det_Qty1) by exact N12;
    rewrite ?dict_get_set_same;
    rewrite ?(dict_get_set_other _ Det_Qty1 Det_Qty2) by exact N21;
    rewrite ?(dict_get_set_other _ Det_Qty2 Det_Qty1) by exact N12;
    rewrite ?dict_get_set_same, ?H0;
    intros H; try discriminate H; injection H as <-; eauto.
Qed.

(** A recorded quantity is a cleaned number: not empty, without comma,
    without leading zero unless it is "0". *)
Theorem parse_details_quantity (dtparse : str -> option date) (v : cell)
    (k : str) (q : cell) :
  k = Det_Qty1 \/ k = Det_Qty2 ->
  dict_get k (parse_details dtparse v) = Some q ->
  exists x, q = CStr x
            /\ x <> [] /\ ~ In ","%char x
            /\ (x = lit "0" \/ exists h t, x = h :: t /\ h <> "0"%char).
Proof.
  intros K. destruct v as [|s|r]; [discriminate| |discriminate].
  rewrite parse_details_stages. cbv zeta.
  assert (E : dict_get k (set_if_text (dict_set [] Det_Tipo
                 (opt_cell (fst (tipo_stage (strip s))))) Det_Advice
                 (fst (_extract_advice (snd (tipo_stage (strip s)))))) = None).
  { destruct K as [-> | ->]; through_stages; reflexivity. }
  intros H.
  assert (H' : dict_get k (fst (quantity_stage (fst (tipo_stage (strip s)))
                 (snd (_extract_advice (snd (tipo_stage (strip s)))))
                 (set_if_text (dict_set [] Det_Tipo
                    (opt_cell (fst (tipo_stage (strip s))))) Det_Advice
                    (fst (_extract_advice (snd (tipo_stage (strip s)))))))) = Some q).
  { destruct K as [-> | ->]; revert H; through_stages; auto. }
  destruct (quantity_stage_cleaned _ _ _ k q K E H') as (x & ->).
  exists (_clean_num x). split; [reflexivity|].
  exact (clean_num_shape x).
Qed.

Lemma parse_details_quantity_witness :
  dict_get Det_Qty1 (parse_details parse_dmy (CStr (lit "BUY 0,001,200/007 x")))
  = Some (CStr (lit "1200"))
  /\ exists x, CStr (lit "1200") = CStr x
               /\ x <> [] /\ ~ In ","%char x
               /\ (x = lit "0" \/ exists h t, x = h :: t /\ h <> "0"%char).
Proof.
  assert (E : dict_get Det_Qty1
                (parse_details parse_dmy (CStr (lit "BUY 0,001,200/007 x")))
              = Some (CStr (lit "1200"))) by (vm_compute; reflexivity).
  split; [exact E|].
  exact (parse_details_quantity parse_dmy (CStr (lit "BUY 0,001,200/007 x"))
           Det_Qty1 (CStr (lit "1200")) (or_introl eq_refl) E).
Defined.

(** A trimmed text does not begin with a trimmed character. *)
Lemma strip_by_head p s c t : strip_by p s = c :: t -> p c = false.
Proof.
  unfold strip_by. intros H.
  destruct (rstrip_by_split p (lstrip_by p s)) as (post & E & F).
  rewrite H in E. cbn [app] in E. apply (lstrip_by_head p s c (t ++ post)).
  exact E.
Qed.

(** Trimming the right end of a text that begins with a kept character
    leaves a non-empty prefix. *)
Lemma rstrip_by_prefix p c t :
  p c = false ->
  exists u post, rstrip_by p (c :: t) = c :: u /\ c :: t = (c :: u) ++ post.
Proof.
  intros Hc. destruct (rstrip_by_split p (c :: t)) as (post & E & F).
  destruct (rstrip_by p (c :: t)) as [|c' u] eqn:R.
  - cbn [app] in E. subst post. inversion F; subst. congruence.
  - cbn [app] in E. injection E as <- E. exists u, post.
    split; [reflexivity|]. cbn [app]. rewrite E. reflexivity.
Qed.

Lemma rmatch_tipo_sound txt m :
  rmatch RE_TIPO txt = Some m ->
  exists c w tail,
    txt = (c :: w) ++ tail
    /\ Forall (fun x => AZ_sp x = true) (c :: w)
    /\ mstart m = 0 /\ mend m = length (c :: w).
Proof.
  unfold rmatch. intros H. apply attempt_sound in H.
  destruct H as (S0 & st' & M & Me & _).
  unfold RE_TIPO in M. cbn [seqs fold_right] in M.
  inversion M as [| |? ? ? s1 ? M1 M'| | | | | | |]; subst; clear M.
  inversion M1; subst; clear M1.
  inversion M' as [| |? ? ? s2 ? M2 M''| | | | | | |]; subst; clear M'.
  inversion M''; subst; clear M''.
  inversion M2 as [| |? ? ? s3 ? M3 M4| | | | | | |]; subst; clear M2.
  apply matches_cls in M3. destruct M3 as (c & E3 & F3 & P3 & _).
  apply matches_star_cls in M4. destruct M4 as (w & E4 & F4 & P4 & _).
  cbn [rest pos] in *.
  exists c, w, (rest st'). rewrite E3, E4.
  split; [reflexivity|]. split; [constructor; assumption|].
  split; [exact S0|]. cbn [length]. lia.
Qed.

Lemma rmatch_tipo_total c t :
  AZ_sp c = true -> rmatch RE_TIPO (c :: t) <> None.
Proof.
  intros H. unfold rmatch, attempt.
  cbn -[AZ_sp]. rewrite H.
  match goal with
  | |- context [match ?e with Some x => Some x | None => Some ?y end] =>
      destruct e
  end; discriminate.
Qed.

(** The type recorded for a narration is a non-empty prefix of the
    trimmed narration, made of capital letters and blanks and beginning
    with a capital letter; it is null exactly when the trimmed narration
    is empty or does not begin with a capital letter. *)
Theorem parse_details_tipo (dtparse : str -> option date) (s : str) :
  let txt := strip s in
  match dict_get Det_Tipo (parse_details dtparse (CStr s)) with
  | Some (CStr t) =>
      Forall (fun x => AZ_sp x = true) t
      /\ (exists tail, txt = t ++ tail)
      /\ (exists c u, t = c :: u /\ is_AZ c = true)
  | Some CEmpty =>
      txt = [] \/ exists c u, txt = c :: u /\ is_AZ c = false
  | _ => False
  end.
Proof.
  cbv zeta. rewrite parse_details_stages. cbv zeta. through_stages.
  rewrite dict_get_set_same. unfold tipo_stage.
  destruct (rmatch RE_TIPO (strip s)) as [m|] eqn:E; cbn [fst opt_cell].
  - apply rmatch_tipo_sound in E.
    destruct E as (c & w & tail & Et & F & S0 & S1).
    assert (Hc : is_space c = false).
    { apply (strip_by_head is_space s c (w ++ tail)). exact Et. }
    assert (G : group0 (strip s) m = c :: w).
    { rewrite Et. unfold group0. rewrite S0, S1.
      change (slice 0 (length (c :: w)) ((c :: w) ++ tail))
        with (slice (length (@nil ascii)) (length (@nil ascii) + length (c :: w))
                    ([] ++ (c :: w) ++ tail)).
      apply slice_middle. }
    rewrite G. unfold strip, strip_by. cbn [lstrip_by]. rewrite Hc.
    destruct (rstrip_by_prefix is_space c w Hc) as (u & post & R & Ew).
    rewrite R. split; [|split].
    + rewrite Ew in F. apply Forall_app in F. tauto.
    + exists (post ++ tail). fold (strip_by is_space s). fold (strip s).
      rewrite Et, Ew, <- app_assoc. reflexivity.
    + exists c, u. split; [reflexivity|].
      inversion F as [|? ? Fc _]; subst. unfold AZ_sp in Fc.
      destruct (is_AZ c); [reflexivity|]. cbn [orb] in Fc.
      cbn in Fc. rewrite orb_false_r in Fc. apply Ascii.eqb_eq in Fc.
      subst c. discriminate Hc.
  - destruct (strip s) as [|c u] eqn:Es; [left; reflexivity|].
    right. exists c, u. split; [reflexivity|].
    destruct (is_AZ c) eqn:A; [|reflexivity].
    exfalso. apply (rmatch_tipo_total c u); [|exact E].
    unfold AZ_sp. rewrite A. reflexivity.
Qed.

(* ------------------------------------------------------------------ *)
(** ** UPPER_STRIP                                                     *)
(* ------------------------------------------------------------------ *)

Lemma upper_app a b : upper (a ++ b) = upper a ++ upper b.
Proof. unfold upper. apply flat_map_app. Qed.

Lemma space_upper c : is_space c = true -> upper_char c = [c].
Proof. by_cases_on c. Qed.

Lemma upper_char_fixed c :
  forallb (fun x => str_eqb (upper_char x) [x]) (upper_char c) = true.
Proof. destruct c as [[] [] [] [] [] [] [] []]; vm_compute; reflexivity. Qed.

Lemma upper_fixed s : Forall (fun x => upper_char x = [x]) (upper s).
Proof.
  unfold upper. apply Forall_forall. intros x H.
  apply in_flat_map in H. destruct H as (c & _ & H).
  pose proof (upper_char_fixed c) as F. rewrite forallb_forall in F.
  apply str_eqb_eq. exact (F x H).
Qed.

Lemma upper_upper s : upper (upper s) = upper s.
Proof. apply upper_id. apply upper_fixed. Qed.

Lemma lstrip_by_app_l p ws x :
  Forall (fun c => p c = true) ws -> lstrip_by p (ws ++ x) = lstrip_by p x.
Proof.
  induction 1 as [|c t Hc _ IH]; [reflexivity|].
  cbn [app lstrip_by]. rewrite Hc. exact IH.
Qed.

Lemma rstrip_by_app_r p x ws :
  Forall (fun c => p c = true) ws -> rstrip_by p (x ++ ws) = rstrip_by p x.
Proof.
  intros F. unfold rstrip_by. rewrite rev_app_distr.
  rewrite lstrip_by_app_l by (apply Forall_rev; exact F). reflexivity.
Qed.

Lemma lstrip_by_all p s :
  Forall (fun c => p c = true) s -> lstrip_by p s = [].
Proof.
  intros F. rewrite <- (app_nil_r s). rewrite lstrip_by_app_l by exact F.
  reflexivity.
Qed.

Lemma strip_by_app_r p x ws :
  Forall (fun c => p c = true) ws -> strip_by p (x ++ ws) = strip_by p x.
Proof.
  intros F. unfold strip_by.
  destruct (lstrip_by_split p x) as (pre & E & Fp).
  destruct (lstrip_by p x) as [|c t] eqn:L.
  - rewrite app_nil_r in E. subst pre.
    rewrite lstrip_by_all by (apply Forall_app; auto). reflexivity.
  - rewrite E at 1. rewrite <- app_assoc, lstrip_by_app_l by exact Fp.
    pose proof (lstrip_by_head p x c t L) as Hc.
    cbn [app lstrip_by]. rewrite Hc.
    change (c :: t ++ ws) with ((c :: t) ++ ws).
    apply rstrip_by_app_r. exact F.
Qed.

Lemma strip_by_around p ws1 x ws2 :
  Forall (fun c => p c = true) ws1 -> Forall (fun c => p c = true) ws2 ->
  strip_by p (ws1 ++ x ++ ws2) = strip_by p x.
Proof.
  intros F1 F2. rewrite <- (strip_by_app_r p x ws2 F2).
  unfold strip_by. rewrite lstrip_by_app_l by exact F1. reflexivity.
Qed.

Lemma lstrip_by_idem p s : lstrip_by p (lstrip_by p s) = lstrip_by p s.
Proof.
  destruct (lstrip_by p s) as [|c t] eqn:E; [reflexivity|].
  cbn [lstrip_by]. rewrite (lstrip_by_head p s c t E). reflexivity.
Qed.

Lemma strip_by_idem p s : strip_by p (strip_by p s) = strip_by p s.
Proof.
  assert (L : lstrip_by p (strip_by p s) = strip_by p s).
  { destruct (strip_by p s) as [|c t] eqn:E; [reflexivity|].
    cbn [lstrip_by]. rewrite (strip_by_head p s c t E). reflexivity. }
  unfold strip_by at 1. rewrite L. unfold strip_by, rstrip_by.
  rewrite rev_involutive, lstrip_by_idem. reflexivity.
Qed.

Lemma strip_by_Forall (P : ascii -> Prop) p s :
  Forall P s -> Forall P (strip_by p s).
Proof.
  intros F. destruct (strip_by_split p s) as (pre & post & E & _).
  rewrite E in F. apply Forall_app in F. destruct F as (_ & F).
  apply Forall_app in F. tauto.
Qed.

(** The normalisation used for every comparison of cell texts does not
    see blanks around the text nor the case of its letters, and applying
    it twice is applying it once. *)
Theorem UPPER_STRIP_robust (s ws1 ws2 : str) (v : cell) :
  Forall (fun c => is_space c = true) ws1 ->
  Forall (fun c => is_space c = true) ws2 ->
  UPPER_STRIP (CStr (ws1 ++ s ++ ws2)) = UPPER_STRIP (CStr s)
  /\ UPPER_STRIP (CStr (upper s)) = UPPER_STRIP (CStr s)
  /\ UPPER_STRIP (CStr (UPPER_STRIP v)) = UPPER_STRIP v.
Proof.
  intros F1 F2. cbn [UPPER_STRIP]. split; [|split].
  - rewrite !upper_app.
    assert (U : forall ws, Forall (fun c => is_space c = true) ws -> upper ws = ws).
    { intros ws F. apply upper_id. eapply Forall_impl; [|exact F].
      apply space_upper. }
    rewrite (U ws1 F1), (U ws2 F2). unfold strip.
    apply strip_by_around; assumption.
  - rewrite upper_upper. reflexivity.
  - destruct v as [|x|r]; cbn [UPPER_STRIP]; try reflexivity.
    rewrite (upper_id (strip (upper x))).
    + unfold strip. apply strip_by_idem.
    + unfold strip. apply strip_by_Forall. apply upper_fixed.
Qed.

Lemma UPPER_STRIP_robust_witness :
  UPPER_STRIP (CStr (lit "  Isin " )) = lit "ISIN"
  /\ UPPER_STRIP (CStr (lit "  " ++ lit "Isin" ++ lit " ")) = UPPER_STRIP (CStr (lit "Isin"))
  /\ is_anchor (CStr (lit "  Isin ")) = true.
Proof.
  split; [vm_compute; reflexivity|]. split; [|vm_compute; reflexivity].
  apply (UPPER_STRIP_robust (lit "Isin") (lit "  ") (lit " ") CEmpty);
    repeat constructor.
Defined.

(* ------------------------------------------------------------------ *)
(** ** Compact date tokens                                             *)
(* ------------------------------------------------------------------ *)

Lemma letter_not_digit l c :
  is_AZ l = true -> is_digit c = true -> Ascii.eqb l c = false.
Proof.
  intros Hl Hc. destruct (Ascii.eqb_spec l c) as [->|]; [|reflexivity].
  revert Hl Hc. by_cases_on c.
Qed.

Lemma month_step_other o1 o2 o3 new a b p1 p2 p3 c d :
  is_AZ o1 = true -> is_AZ o2 = true -> is_AZ o3 = true ->
  is_digit a = true -> is_digit b = true ->
  is_digit c = true -> is_digit d = true ->
  [o1; o2; o3] <> [p1; p2; p3] ->
  replace [o1; o2; o3] new [a; b; p1; p2; p3; c; d] = [a; b; p1; p2; p3; c; d].
Proof.
  intros L1 L2 L3 Da Db Dc Dd N. unfold replace.
  cbn [replace_go startswith].
  rewrite (letter_not_digit o1 a L1 Da). cbn [andb replace_go startswith].
  rewrite (letter_not_digit o1 b L1 Db). cbn [andb replace_go startswith].
  assert (E : Ascii.eqb o1 p1 && (Ascii.eqb o2 p2 && (Ascii.eqb o3 p3 && true)) = false).
  { destruct (Ascii.eqb_spec o1 p1) as [->|]; [|reflexivity].
    destruct (Ascii.eqb_spec o2 p2) as [->|]; [|reflexivity].
    destruct (Ascii.eqb_spec o3 p3) as [->|]; [|reflexivity].
    congruence. }
  rewrite E. cbn [replace_go startswith].
  rewrite (letter_not_digit o3 c L3 Dc), (letter_not_digit o2 c L2 Dc),
    (letter_not_digit o1 c L1 Dc), (letter_not_digit o1 d L1 Dd).
  rewrite ?andb_false_r. cbn [andb replace_go startswith].
  rewrite ?andb_false_r. cbn [andb replace_go startswith].
  rewrite ?andb_false_r. cbn [andb replace_go startswith].
  reflexivity.
Qed.

Lemma month_step_hit o1 o2 o3 n1 n2 n3 a b c d :
  is_AZ o1 = true ->
  is_digit a = true -> is_digit b = true ->
  is_digit c = true -> is_digit d = true ->
  replace [o1; o2; o3] [n1; n2; n3] [a; b; o1; o2; o3; c; d]
  = [a; b; n1; n2; n3; c; d].
Proof.
  intros L1 Da Db Dc Dd. unfold replace.
  cbn [replace_go startswith].
  rewrite (letter_not_digit o1 a L1 Da). cbn [andb replace_go startswith].
  rewrite (letter_not_digit o1 b L1 Db). cbn [andb replace_go startswith].
  rewrite !Ascii.eqb_refl. cbn [andb replace_go startswith length Nat.sub app].
  rewrite (letter_not_digit o1 c L1 Dc). cbn [andb replace_go startswith].
  rewrite (letter_not_digit o1 d L1 Dd). cbn [andb replace_go startswith].
  reflexivity.
Qed.

Lemma digit_plain c :
  is_digit c = true ->
  is_space c = false /\ upper_char c = [c] /\ is_word c = true.
Proof. by_cases_on c. Qed.

(** A compact token, two digits, a Portuguese month, two digits, goes
    to the date parser as "DD MMM 20YY" with the English month. *)
Theorem date_text_compact (d1 d2 y1 y2 : ascii) (pt en : str) :
  is_digit d1 = true -> is_digit d2 = true ->
  is_digit y1 = true -> is_digit y2 = true ->
  In (pt, en) MONTH_PT_EN ->
  date_text ([d1; d2] ++ pt ++ [y1; y2])
  = [d1; d2] ++ lit " " ++ en ++ lit " 20" ++ [y1; y2].
Proof.
  intros H1 H2 H3 H4 Hm.
  destruct (digit_plain d1 H1) as (S1 & U1 & W1).
  destruct (digit_plain d2 H2) as (S2 & U2 & _).
  destruct (digit_plain y1 H3) as (S3 & U3 & _).
  destruct (digit_plain y2 H4) as (S4 & U4 & W4).
  unfold MONTH_PT_EN in Hm. cbn [map fst snd lit list_ascii_of_string In] in Hm.
  repeat (destruct Hm as [Hm|Hm]; [injection Hm as <- <-|]); [..|destruct Hm].
  all: cbn [app]; unfold date_text.
  all: unfold strip; rewrite strip_by_id
         by (repeat constructor; first [assumption | reflexivity]).
  all: rewrite upper_id by (repeat constructor; first [assumption | reflexivity]).
  all: unfold translate_months, MONTH_PT_EN;
       cbn [map fold_left fst snd lit list_ascii_of_string].
  all: repeat first
         [ rewrite month_step_hit by first [reflexivity | assumption]
         | rewrite month_step_other by first [reflexivity | assumption | discriminate] ].
  all: unfold fullmatch, attempt.
  all: repeat (cbn -[is_digit is_word is_AZ at_boundary];
               unfold at_boundary; cbn [prev rest hd_error word_opt xorb];
               repeat match goal with
                      | |- context [is_AZ ?c] => change (is_AZ c) with true
                      end;
               rewrite ?W1, ?W4, ?H1, ?H2, ?H3, ?H4).
  all: reflexivity.
Qed.

Lemma date_text_compact_witness :
  date_text (lit "07DEZ24") = lit "07 DEC 2024".
Proof.
  apply (date_text_compact "0" "7" "2" "4" (lit "DEZ") (lit "DEC"));
    try reflexivity.
  unfold MONTH_PT_EN. cbn. tauto.
Defined.

(* ------------------------------------------------------------------ *)
(** ** Row windows                                                     *)
(* ------------------------------------------------------------------ *)


Lemma StronglySorted_filter {A : Type} (R : A -> A -> Prop) (f : A -> bool) l :
  StronglySorted R l -> StronglySorted R (filter f l).
Proof.
  induction 1 as [|x l S IH F]; cbn [filter]; [constructor|].
  destruct (f x); [|exact IH]. constructor; [exact IH|].
  apply Forall_forall. intros y Hy. apply filter_In in Hy.
  rewrite Forall_forall in F. apply F. tauto.
Qed.

Lemma StronglySorted_skipn {A : Type} (R : A -> A -> Prop) k : forall l,
  StronglySorted R l -> StronglySorted R (skipn k l).
Proof.
  induction k as [|k IH]; intros l S; [exact S|].
  destruct S as [|x l S F]; [constructor|]. cbn [skipn]. apply IH. exact S.
Qed.

Lemma StronglySorted_firstn {A : Type} (R : A -> A -> Prop) k : forall l,
  StronglySorted R l -> StronglySorted R (firstn k l).
Proof.
  induction k as [|k IH]; intros l S; [constructor|].
  destruct S as [|x l S F]; [constructor|]. cbn [firstn].
  constructor; [apply IH; exact S|].
  apply Forall_forall. intros y Hy. rewrite Forall_forall in F.
  apply F. rewrite <- (firstn_skipn k l). apply in_or_app. left. exact Hy.
Qed.

Lemma StronglySorted_map_fst {B : Type} (l : list (nat * B)) :
  StronglySorted (fun x y => fst x < fst y) l ->
  StronglySorted lt (map fst l).
Proof.
  induction 1 as [|x l S IH F]; cbn [map]; constructor; [exact IH|].
  apply Forall_forall. intros y Hy. apply in_map_iff in Hy.
  destruct Hy as (z & <- & Hz). rewrite Forall_forall in F. auto.
Qed.

Lemma enumerate_from_sorted {A : Type} (l : list A) : forall a,
  StronglySorted (fun x y => fst x < fst y) (combine (seq a (length l)) l)
  /\ Forall (fun x => a <= fst x) (combine (seq a (length l)) l).
Proof.
  induction l as [|x t IH]; intros a; cbn [length seq combine].
  - split; constructor.
  - destruct (IH (S a)) as (S1 & F1). split.
    + constructor; [exact S1|]. eapply Forall_impl; [|exact F1].
      cbn. intros; lia.
    + constructor; [cbn; lia|]. eapply Forall_impl; [|exact F1].
      cbn. intros; lia.
Qed.

Lemma enumerate_sorted {A : Type} (l : list A) :
  StronglySorted (fun x y => fst x < fst y) (enumerate l).
Proof. apply enumerate_from_sorted. Qed.

(** The labels of a body go up. *)
Lemma holdings_body_sorted df r next_r :
  StronglySorted lt (map fst (holdings_body df r next_r)).
Proof.
  apply StronglySorted_map_fst. unfold holdings_body, dropna_all, iloc_rows.
  do 2 apply StronglySorted_filter.
  apply StronglySorted_firstn, StronglySorted_skipn, enumerate_sorted.
Qed.

Lemma transactions_body_sorted df start stop :
  StronglySorted lt (map fst (transactions_body df start stop)).
Proof.
  apply StronglySorted_map_fst. unfold transactions_body, dropna_all, iloc_rows.
  apply StronglySorted_filter.
  apply StronglySorted_firstn, StronglySorted_skipn, enumerate_sorted.
Qed.

Lemma StronglySorted_app_lt (l1 l2 : list nat) :
  StronglySorted lt l1 -> StronglySorted lt l2 ->
  (forall x y, In x l1 -> In y l2 -> x < y) ->
  StronglySorted lt (l1 ++ l2).
Proof.
  induction 1 as [|x l S IH F]; intros S2 H; cbn [app]; [exact S2|].
  constructor.
  - apply IH; [exact S2|]. intros a b Ha Hb. apply H; [right|]; assumption.
  - apply Forall_app. split; [exact F|].
    apply Forall_forall. intros y Hy. apply H; [left; reflexivity | exact Hy].
Qed.

Lemma windows_start n anchors r next :
  In (r, next) (windows n anchors) -> In r anchors.
Proof.
  induction anchors as [|a t IH]; cbn [windows In]; [tauto|].
  intros [E|H]; [injection E as <- _; auto | auto].
Qed.

(** Between the two ends of a window of a sorted list of anchors there
    is no anchor. *)
Lemma windows_gap n anchors :
  StronglySorted le anchors ->
  forall r next x, In (r, next) (windows n anchors) -> In x anchors ->
                   ~ (r < x < next).
Proof.
  induction 1 as [|a t S IH F]; intros r next x Hw Hx; [destruct Hw|].
  rewrite Forall_forall in F. cbn [windows In] in Hw.
  destruct Hw as [E|Hw].
  - injection E as <- <-. destruct Hx as [<-|Hx]; [lia|].
    destruct t as [|r' t']; [destruct Hx|].
    inversion S as [|? ? _ F']; subst. rewrite Forall_forall in F'.
    destruct Hx as [<-|Hx]; [lia|]. specialize (F' x Hx). lia.
  - destruct Hx as [<-|Hx].
    + apply windows_start in Hw. specialize (F r Hw). lia.
    + exact (IH r next x Hw Hx).
Qed.

(** The bodies of the windows of a sorted list of anchors, one after
    the other, have labels that go up. *)
Lemma windows_bodies_sorted n (body : nat -> nat -> list nat) anchors :
  (forall r next, StronglySorted lt (body r next)) ->
  (forall r next i, In i (body r next) -> r < i < next) ->
  StronglySorted le anchors ->
  StronglySorted lt (concat (map (fun w => body (fst w) (snd w)) (windows n anchors)))
  /\ forall i, In i (concat (map (fun w => body (fst w) (snd w)) (windows n anchors))) ->
               exists r, In r anchors /\ r < i.
Proof.
  intros Bs Bi. induction 1 as [|a t S (IH1 & IH2) F];
    cbn [windows map concat]; [split; [constructor | intros i []]|].
  rewrite Forall_forall in F. cbn [fst snd]. split.
  - apply StronglySorted_app_lt; [apply Bs | exact IH1|].
    intros x y Hx Hy. apply Bi in Hx.
    destruct (IH2 y Hy) as (r & Hr & Lr).
    destruct t as [|r' t']; [destruct Hr|].
    inversion S as [|? ? _ F']; subst. rewrite Forall_forall in F'.
    destruct Hr as [<-|Hr]; [lia|]. specialize (F' r Hr). lia.
  - intros i Hi. apply in_app_or in Hi. destruct Hi as [Hi|Hi].
    + apply Bi in Hi. exists a. split; [left; reflexivity | lia].
    + destruct (IH2 i Hi) as (r & Hr & Lr). exists r. split; [right|]; assumption.
Qed.

Lemma concat_filter_nonempty {A : Type} (L : list (list A)) :
  concat (filter nonempty L) = concat L.
Proof.
  induction L as [|l t IH]; [reflexivity|].
  destruct l; cbn [filter nonempty concat app]; rewrite IH; reflexivity.
Qed.

(* ------------------------------------------------------------------ *)
(** ** parse_holdings_sheet on any number of anchors                   *)
(* ------------------------------------------------------------------ *)

Lemma StronglySorted_app_le (l1 l2 : list nat) :
  StronglySorted le l1 -> StronglySorted le l2 ->
  (forall x y, In x l1 -> In y l2 -> x <= y) ->
  StronglySorted le (l1 ++ l2).
Proof.
  induction 1 as [|x l S IH F]; intros S2 H; cbn [app]; [exact S2|].
  constructor.
  - apply IH; [exact S2|]. intros a b Ha Hb. apply H; [right|]; assumption.
  - apply Forall_app. split; [exact F|].
    apply Forall_forall. intros y Hy. apply H; [left; reflexivity | exact Hy].
Qed.

Lemma constant_sorted (r : nat) (l : list nat) :
  Forall (fun x => x = r) l -> StronglySorted le l.
Proof.
  induction 1 as [|x l Hx F IH]; constructor; [exact IH|].
  eapply Forall_impl; [|exact F]. cbn. intros; lia.
Qed.

(** The anchors of a holdings sheet come row after row. *)
Lemma holdings_headers_sorted df :
  StronglySorted le (map fst (holdings_headers df)).
Proof.
  unfold holdings_headers.
  assert (G : forall L : list (nat * list cell),
            StronglySorted (fun x y => fst x < fst y) L ->
            StronglySorted le
              (map fst (flat_map (fun rrow => anchors_in_row (fst rrow) (snd rrow)) L))
            /\ forall x, In x (map fst (flat_map
                     (fun rrow => anchors_in_row (fst rrow) (snd rrow)) L)) ->
                         exists y, In y L /\ x = fst y).
  { induction 1 as [|x L S (IH1 & IH2) F]; cbn [flat_map map];
      [split; [constructor | intros ? []]|].
    rewrite map_app.
    assert (C : Forall (fun a => a = fst x) (map fst (anchors_in_row (fst x) (snd x)))).
    { unfold anchors_in_row. rewrite map_map. cbn [fst].
      apply Forall_forall. intros a Ha. apply in_map_iff in Ha.
      destruct Ha as (? & <- & _). reflexivity. }
    rewrite Forall_forall in F, C. split.
    - apply StronglySorted_app_le; [apply (constant_sorted (fst x)); apply Forall_forall; exact C
                                   | exact IH1 |].
      intros a b Ha Hb. rewrite (C a Ha).
      destruct (IH2 b Hb) as (y & Hy & ->). specialize (F y Hy). lia.
    - intros a Ha. apply in_app_or in Ha. destruct Ha as [Ha|Ha].
      + exists x. split; [left; reflexivity | exact (C a Ha)].
      + destruct (IH2 a Ha) as (y & Hy & ->). exists y.
        split; [right; exact Hy | reflexivity]. }
  apply G. apply enumerate_sorted.
Qed.

Lemma holdings_subtable_shape dtparse df portfolio r c data t :
  holdings_subtable dtparse df portfolio r c data = Some t ->
  labels t = map fst data /\ portfolio_first portfolio t.
Proof.
  unfold holdings_subtable, frame_insert. cbn [columns rows bind].
  destruct (mem (lit "Portfolio") _); [discriminate|].
  cbn [bind columns rows insert_at firstn skipn app].
  destruct (mem (lit "AssetType") _); [discriminate|].
  cbn [bind columns rows insert_at firstn skipn app].
  destruct (mem (lit "AssetName") _); [discriminate|].
  cbn [bind]. intros H. injection H as <-.
  unfold labels, portfolio_first, normalize_date_columns. cbn [rows columns map].
  split; [|split].
  - rewrite !map_map. apply map_ext. reflexivity.
  - eexists. reflexivity.
  - apply Forall_forall. intros row Hr. rewrite !map_map in Hr.
    apply in_map_iff in Hr. destruct Hr as (row0 & <- & _).
    cbn [fst snd insert_at firstn skipn app].
    replace (is_date_col (lit "Portfolio")) with false by (vm_compute; reflexivity).
    cbn [andb apply_where]. eexists. reflexivity.
Qed.

Lemma holdings_loop_tables dtparse df portfolio hs : forall ts,
  holdings_loop dtparse df portfolio hs = Some ts ->
  map labels ts
  = filter nonempty
      (map (fun w => map fst (holdings_body df (fst w) (snd w)))
           (windows (length df) (map fst hs)))
  /\ Forall (fun t => rows t <> [] /\ portfolio_first portfolio t) ts.
Proof.
  induction hs as [|[r c] later IH]; intros ts H; cbn [holdings_loop] in H.
  - injection H as <-. split; [reflexivity | constructor].
  - cbn [map windows filter fst snd].
    assert (N : match map fst later with r' :: _ => r' | [] => length df end
                = match later with (r', _) :: _ => r' | [] => length df end).
    { destruct later as [|[r' c'] l']; reflexivity. }
    rewrite N.
    destruct (holdings_body df r _) as [|x b] eqn:B.
    + cbn [map nonempty]. apply IH. exact H.
    + cbn [map nonempty].
      destruct (holdings_subtable dtparse df portfolio r c (x :: b)) as [sub|] eqn:S;
        [|discriminate H].
      cbn [bind] in H.
      destruct (holdings_loop dtparse df portfolio later) as [rest_ts|] eqn:L;
        [|discriminate H].
      cbn [bind] in H. injection H as <-.
      destruct (IH rest_ts eq_refl) as (IH1 & IH2).
      destruct (holdings_subtable_shape _ _ _ _ _ _ _ S) as (Lb & Pf).
      split.
      * cbn [map]. rewrite Lb, IH1. reflexivity.
      * constructor; [|exact IH2]. split; [|exact Pf].
        intros E. unfold labels in Lb. rewrite E in Lb. discriminate Lb.
Qed.

(** Whatever the number of anchors, the tables returned are the
    non-empty bodies of the windows between consecutive anchors, in
    sheet order: no table is empty, the labels of the rows emitted go
    up from table to table, so that no sheet row is emitted twice, and
    no row holding an anchor is emitted as data. *)
Theorem parse_holdings_segments (dtparse : str -> option date)
    (df : grid) (portfolio : str) (ts : list frame) :
  parse_holdings_sheet dtparse df portfolio = Some ts ->
  map labels ts
  = filter nonempty
      (map (fun w => map fst (holdings_body df (fst w) (snd w)))
           (windows (length df) (map fst (holdings_headers df))))
  /\ Forall (fun t => rows t <> []) ts
  /\ StronglySorted lt (concat (map labels ts))
  /\ (forall i c, In i (concat (map labels ts)) ->
                  ~ In (i, c) (holdings_headers df)).
Proof.
  unfold parse_holdings_sheet. intros H.
  apply holdings_loop_tables in H. destruct H as (E & F).
  pose proof (windows_bodies_sorted (length df)
                (fun r next => map fst (holdings_body df r next))
                (map fst (holdings_headers df))
                (holdings_body_sorted df)) as W.
  assert (Bi : forall r next i,
            In i (map fst (holdings_body df r next)) -> r < i < next).
  { intros r next i Hi. apply in_map_iff in Hi.
    destruct Hi as ([i' row] & <- & Hi). apply in_holdings_body in Hi. tauto. }
  specialize (W Bi (holdings_headers_sorted df)). destruct W as (W1 & _).
  split; [exact E|]. split; [eapply Forall_impl; [|exact F]; cbn; tauto|].
  rewrite E, concat_filter_nonempty. split; [exact W1|].
  intros i c Hi Hc. apply in_concat in Hi. destruct Hi as (l & Hl & Hi).
  apply in_map_iff in Hl. destruct Hl as ([r next] & <- & Hw). cbn [fst snd] in Hi.
  apply Bi in Hi.
  apply (windows_gap (length df) _ (holdings_headers_sorted df) r next i Hw);
    [|exact Hi].
  apply in_map_iff. exists (i, c). auto.
Qed.

Lemma parse_holdings_segments_witness :
  exists ts,
    parse_holdings_sheet parse_dmy sheet_two_anchors (lit "4711") = Some ts
    /\ map labels ts = [[2]; [7]]
    /\ StronglySorted lt (concat (map labels ts)).
Proof.
  destruct (parse_holdings_sheet parse_dmy sheet_two_anchors (lit "4711"))
    as [ts|] eqn:E; [|vm_compute in E; discriminate E].
  exists ts. split; [reflexivity|].
  destruct (parse_holdings_segments parse_dmy sheet_two_anchors (lit "4711") ts E)
    as (L & _ & S & _).
  split; [rewrite L; vm_compute; reflexivity | exact S].
Defined.

(** Every table returned carries the portfolio in its first column,
    named Portfolio. *)
Theorem parse_holdings_portfolio (dtparse : str -> option date)
    (df : grid) (portfolio : str) (ts : list frame) :
  parse_holdings_sheet dtparse df portfolio = Some ts ->
  Forall (portfolio_first portfolio) ts.
Proof.
  unfold parse_holdings_sheet. intros H.
  apply holdings_loop_tables in H. destruct H as (_ & F).
  eapply Forall_impl; [|exact F]. cbn. tauto.
Qed.

Lemma parse_holdings_portfolio_witness :
  exists ts,
    parse_holdings_sheet parse_dmy sheet_two_anchors (lit "4711") = Some ts
    /\ length ts = 2
    /\ Forall (portfolio_first (lit "4711")) ts.
Proof.
  destruct (parse_holdings_sheet parse_dmy sheet_two_anchors (lit "4711"))
    as [ts|] eqn:E; [|vm_compute in E; discriminate E].
  exists ts. split; [reflexivity|]. split.
  - vm_compute in E. injection E as <-. reflexivity.
  - exact (parse_holdings_portfolio parse_dmy sheet_two_anchors (lit "4711") ts E).
Defined.

(** No exception leaves the function when no header name of an anchor
    row is one of the three inserted labels; without any anchor the
    result is the empty list. *)
Theorem parse_holdings_returns (dtparse : str -> option date)
    (df : grid) (portfolio : str) :
  (forall r c, In (r, c) (holdings_headers df) ->
               metadata_free (body_columns df r (ncols df))) ->
  (exists ts, parse_holdings_sheet dtparse df portfolio = Some ts
              /\ length ts <= length (holdings_headers df))
  /\ (holdings_headers df = [] ->
      parse_holdings_sheet dtparse df portfolio = Some []).
Proof.
  unfold parse_holdings_sheet. intros Free. split.
  - induction (holdings_headers df) as [|[r c] later IH]; cbn [holdings_loop].
    + exists []. split; [reflexivity | cbn; lia].
    + destruct IH as (ts & E & L).
      { intros r' c' H. apply (Free r' c'). right. exact H. }
      destruct (holdings_body df r _) as [|x b] eqn:B.
      * exists ts. split; [exact E | cbn [length]; lia].
      * destruct (holdings_subtable_rows dtparse df portfolio r c (x :: b)
                    (Free r c (or_introl eq_refl))) as (t & S & _).
        rewrite S, E. cbn [bind]. exists (t :: ts).
        split; [reflexivity | cbn [length]; lia].
  - intros ->. reflexivity.
Qed.

Lemma parse_holdings_returns_witness :
  (forall r c, In (r, c) (holdings_headers sheet_two_anchors) ->
               metadata_free (body_columns sheet_two_anchors r (ncols sheet_two_anchors)))
  /\ exists ts, parse_holdings_sheet parse_dmy sheet_two_anchors (lit "4711") = Some ts
                /\ length ts <= length (holdings_headers sheet_two_anchors).
Proof.
  assert (F : forall r c, In (r, c) (holdings_headers sheet_two_anchors) ->
               metadata_free (body_columns sheet_two_anchors r (ncols sheet_two_anchors))).
  { intros r c H.
    replace (holdings_headers sheet_two_anchors) with [(1, 1); (5, 1)] in H
      by (vm_compute; reflexivity).
    destruct H as [E|[E|[]]]; injection E as <- <-; vm_compute; auto. }
  split; [exact F|].
  exact (proj1 (parse_holdings_returns parse_dmy sheet_two_anchors (lit "4711") F)).
Defined.

(* ------------------------------------------------------------------ *)
(** ** parse_transactions_sheet on any number of anchor rows           *)
(* ------------------------------------------------------------------ *)

Lemma keys_dict_set d k v x :
  In x (keys (dict_set d k v)) -> x = k \/ In x (keys d).
Proof.
  unfold keys. induction d as [|[k' v'] t IH]; cbn [dict_set map fst In].
  - intros [<-|[]]. left. reflexivity.
  - destruct (str_eqb k' k) eqn:E; cbn [map fst In].
    + intros [<-|H]; [right; left; reflexivity | right; right; exact H].
    + intros [<-|H]; [right; left; reflexivity|].
      destruct (IH H) as [->|H']; [left; reflexivity | right; right; exact H'].
Qed.

Lemma keys_within_set d k v :
  In k DET_KEYS -> keys_within d -> keys_within (dict_set d k v).
Proof.
  intros Hk Hd x H. apply keys_dict_set in H. destruct H as [->|H]; auto.
Qed.

Ltac det_key := cbn; tauto.

Lemma keys_within_quantity tipo rest out :
  keys_within out -> keys_within (fst (quantity_stage tipo rest out)).
Proof.
  intros H. unfold quantity_stage.
  destruct (search RE_SLASH_QTY rest); cbn [fst].
  { repeat (apply keys_within_set; [det_key|]). exact H. }
  destruct (search RE_QTY_PT1 rest), (search RE_QTY_PT2 rest);
    match goal with |- context [if ?b then _ else _] => destruct b end;
    try destruct (search RE_QTY_STANDALONE rest); cbn [fst];
    repeat (apply keys_within_set; [det_key|]); exact H.
Qed.

(** The keys of a details record are among the eight. *)
Lemma parse_details_keys dtparse v : keys_within (parse_details dtparse v).
Proof.
  destruct v as [|s|r]; [intros x [] | | intros x []].
  rewrite parse_details_stages. cbv zeta.
  apply keys_within_set; [det_key|].
  unfold advice_type_stage.
  destruct (search RE_ADVICE_TYPE (strip s));
    [apply keys_within_set; [det_key|]|];
    (unfold date_stage;
     match goal with
     | |- context [search RE_DATE_TOKEN ?r] => destruct (search RE_DATE_TOKEN r)
     end; cbn [fst];
     [apply keys_within_set; [det_key|]|];
     (apply keys_within_set; [det_key|];
      apply keys_within_quantity;
      unfold set_if_text;
      match goal with
      | |- context [match ?o with Some _ => _ | None => _ end] =>
          destruct o as [[|? ?]|]
      end;
      repeat (apply keys_within_set; [det_key|]);
      intros x [])).
Qed.

Lemma union_keys_within (ds : list dict) : forall acc x,
  (forall d, In d ds -> keys_within d) ->
  In x (union_keys acc ds) -> In x acc \/ In x DET_KEYS.
Proof.
  induction ds as [|d t IH]; intros acc x Hd H; cbn [union_keys] in H; [auto|].
  apply IH in H; [|intros d' Hd'; apply Hd; right; exact Hd'].
  destruct H as [H|H]; [|auto].
  apply in_app_or in H. destruct H as [H|H]; [auto|].
  apply filter_In in H. destruct H as (H & _).
  right. apply (Hd d); [left; reflexivity | exact H].
Qed.

Lemma expand_details_shape dtparse body :
  labels (expand_details dtparse body) = labels body
  /\ (forall x, In x (columns (expand_details dtparse body)) ->
                In x (columns body) \/ In x DET_KEYS).
Proof.
  unfold expand_details, labels.
  destruct (find _ (enumerate (columns body))) as [[j name]|]; cbn [rows columns].
  - split.
    + rewrite map_map. cbn [fst].
      generalize (rows body). intros l. induction l as [|x t IH]; cbn; congruence.
    + intros x H. apply in_app_or in H. destruct H as [H|H]; [auto|].
      apply union_keys_within in H; [destruct H as [[]|H]; auto|].
      intros d Hd. apply in_map_iff in Hd. destruct Hd as (row & <- & _).
      apply parse_details_keys.
  - split; [reflexivity | auto].
Qed.

Lemma transactions_subtable_shape dtparse df portfolio start body t :
  transactions_subtable dtparse df portfolio start body = Some t ->
  labels t = map fst body /\ portfolio_first portfolio t.
Proof.
  unfold transactions_subtable. intros H. split.
  - apply frame_insert_rows in H. destruct H as (R & _).
    unfold labels. rewrite R.
    rewrite (proj1 (normalize_date_columns_rows dtparse _)).
    apply (proj1 (expand_details_shape dtparse (Frame _ body))).
  - unfold frame_insert in H.
    destruct (mem (lit "Portfolio") _); [discriminate|].
    injection H as <-. unfold portfolio_first.
    cbn [rows columns insert_at firstn skipn app]. split.
    + eexists. reflexivity.
    + apply Forall_forall. intros row Hr. apply in_map_iff in Hr.
      destruct Hr as (row0 & <- & _). cbn [snd]. eexists. reflexivity.
Qed.

Lemma transactions_subtable_returns dtparse df portfolio start body :
  mem (lit "Portfolio") (body_columns df start (ncols df)) = false ->
  exists t, transactions_subtable dtparse df portfolio start body = Some t.
Proof.
  intros H. unfold transactions_subtable, frame_insert.
  rewrite (proj2 (normalize_date_columns_rows dtparse _)).
  destruct (mem (lit "Portfolio") (columns (expand_details dtparse _))) eqn:E;
    [|eexists; reflexivity].
  exfalso. apply mem_In in E.
  apply (proj2 (expand_details_shape dtparse _)) in E. cbn [columns] in E.
  destruct E as [E|E].
  - apply mem_In in E. congruence.
  - cbn in E. repeat (destruct E as [E|E]; [discriminate E|]). exact E.
Qed.

Lemma transactions_loop_tables dtparse df portfolio idxs : forall ts,
  transactions_loop dtparse df portfolio idxs = Some ts ->
  map labels ts
  = filter nonempty
      (map (fun w => map fst (transactions_body df (fst w) (snd w)))
           (windows (length df) idxs))
  /\ Forall (fun t => rows t <> [] /\ portfolio_first portfolio t) ts.
Proof.
  induction idxs as [|start later IH]; intros ts H; cbn [transactions_loop] in H.
  - injection H as <-. split; [reflexivity | constructor].
  - cbn [map windows filter fst snd].
    destruct (transactions_body df start _) as [|x b] eqn:B.
    + cbn [map nonempty]. apply IH. exact H.
    + cbn [map nonempty].
      destruct (transactions_subtable dtparse df portfolio start (x :: b))
        as [sub|] eqn:S; [|discriminate H].
      cbn [bind] in H.
      destruct (transactions_loop dtparse df portfolio later) as [rest_ts|] eqn:L;
        [|discriminate H].
      cbn [bind] in H. injection H as <-.
      destruct (IH rest_ts eq_refl) as (IH1 & IH2).
      destruct (transactions_subtable_shape _ _ _ _ _ _ S) as (Lb & Pf).
      split.
      * cbn [map]. rewrite Lb, IH1. reflexivity.
      * constructor; [|exact IH2]. split; [|exact Pf].
        intros E. unfold labels in Lb. rewrite E in Lb. discriminate Lb.
Qed.

Lemma transactions_idxs_sorted df : StronglySorted le (transactions_idxs df).
Proof.
  assert (S : StronglySorted lt (transactions_idxs df)).
  { unfold transactions_idxs. apply StronglySorted_map_fst.
    apply StronglySorted_filter, enumerate_sorted. }
  induction S as [|x l S IH F]; constructor; [exact IH|].
  eapply Forall_impl; [|exact F]. cbn. intros; lia.
Qed.

Lemma in_transactions_idxs df i :
  In i (transactions_idxs df) <->
  exists row, nth_error df i = Some row
              /\ UPPER_STRIP (hd CEmpty row) = lit "CARTEIRA".
Proof.
  unfold transactions_idxs. rewrite in_map_iff. split.
  - intros ([i' row] & <- & H). apply filter_In in H. destruct H as (H & E).
    apply In_nth_error in H. destruct H as (k & H).
    rewrite nth_error_enumerate in H.
    destruct (nth_error df k) as [row'|] eqn:Ek; [|discriminate H].
    cbn in H. injection H as <- <-. exists row'. split; [exact Ek|].
    apply str_eqb_eq in E. exact E.
  - intros (row & H & E). exists (i, row). split; [reflexivity|].
    apply filter_In. split.
    + apply (nth_error_In _ i). rewrite nth_error_enumerate, H. reflexivity.
    + apply str_eqb_eq. exact E.
Qed.

(** The tables returned are the non-empty bodies of the windows between
    consecutive rows beginning with CARTEIRA, in sheet order: no table
    is empty, the labels of the rows emitted go up from table to table,
    no row beginning with CARTEIRA is emitted as data, and every table
    carries the portfolio in its first column. *)
Theorem parse_transactions_segments (dtparse : str -> option date)
    (df : grid) (portfolio : str) (ts : list frame) :
  parse_transactions_sheet dtparse df portfolio = Some ts ->
  map labels ts
  = filter nonempty
      (map (fun w => map fst (transactions_body df (fst w) (snd w)))
           (windows (length df) (transactions_idxs df)))
  /\ Forall (fun t => rows t <> []) ts
  /\ StronglySorted lt (concat (map labels ts))
  /\ (forall i row, In i (concat (map labels ts)) ->
                    nth_error df i = Some row ->
                    UPPER_STRIP (hd CEmpty row) <> lit "CARTEIRA")
  /\ Forall (portfolio_first portfolio) ts.
Proof.
  unfold parse_transactions_sheet. destruct (ncols df); [discriminate|].
  fold (transactions_idxs df). intros H.
  apply transactions_loop_tables in H. destruct H as (E & F).
  pose proof (windows_bodies_sorted (length df)
                (fun r next => map fst (transactions_body df r next))
                (transactions_idxs df)
                (transactions_body_sorted df)) as W.
  assert (Bi : forall r next i,
            In i (map fst (transactions_body df r next)) -> r < i < next).
  { intros r next i Hi. apply in_map_iff in Hi.
    destruct Hi as ([i' row] & <- & Hi). apply in_transactions_body in Hi. tauto. }
  specialize (W Bi (transactions_idxs_sorted df)). destruct W as (W1 & _).
  split; [exact E|]. split; [eapply Forall_impl; [|exact F]; cbn; tauto|].
  rewrite E, concat_filter_nonempty. split; [exact W1|]. split.
  - intros i row Hi Hr Hc. apply in_concat in Hi. destruct Hi as (l & Hl & Hi).
    apply in_map_iff in Hl. destruct Hl as ([r next] & <- & Hw). cbn [fst snd] in Hi.
    apply Bi in Hi.
    apply (windows_gap (length df) _ (transactions_idxs_sorted df) r next i Hw);
      [|exact Hi].
    apply in_transactions_idxs. eauto.
  - eapply Forall_impl; [|exact F]. cbn. tauto.
Qed.

(** The function raises on a sheet without columns; on any other sheet
    it returns when no header name of a CARTEIRA row is "Portfolio",
    and returns the empty list when no row begins with CARTEIRA. *)
Theorem parse_transactions_returns (dtparse : str -> option date)
    (df : grid) (portfolio : str) :
  (ncols df = 0 -> parse_transactions_sheet dtparse df portfolio = None) /\
  (ncols df <> 0 ->
   (forall start, In start (transactions_idxs df) ->
                  mem (lit "Portfolio") (body_columns df start (ncols df)) = false) ->
   exists ts, parse_transactions_sheet dtparse df portfolio = Some ts
              /\ length ts <= length (transactions_idxs df)) /\
  (ncols df <> 0 -> transactions_idxs df = [] ->
   parse_transactions_sheet dtparse df portfolio = Some []).
Proof.
  unfold parse_transactions_sheet. fold (transactions_idxs df).
  split; [intros ->; reflexivity|]. split.
  - intros N Free. destruct (ncols df) as [|n] eqn:En; [congruence|].
    rewrite <- En in Free. clear N.
    induction (transactions_idxs df) as [|start later IH]; cbn [transactions_loop].
    + exists []. split; [reflexivity | cbn; lia].
    + destruct IH as (ts & E & L).
      { intros s' H. apply Free. right. exact H. }
      destruct (transactions_body df start _) as [|x b] eqn:B.
      * exists ts. split; [exact E | cbn [length]; lia].
      * destruct (transactions_subtable_returns dtparse df portfolio start (x :: b)
                    (Free start (or_introl eq_refl))) as (t & S).
        rewrite S, E. cbn [bind]. exists (t :: ts).
        split; [reflexivity | cbn [length]; lia].
  - intros N ->. destruct (ncols df); [congruence | reflexivity].
Qed.

Lemma parse_transactions_segments_witness :
  exists ts,
    parse_transactions_sheet parse_dmy sheet_transactions (lit "99") = Some ts
    /\ map labels ts = [[2; 4]]
    /\ Forall (portfolio_first (lit "99")) ts.
Proof.
  destruct (parse_transactions_sheet parse_dmy sheet_transactions (lit "99"))
    as [ts|] eqn:E; [|vm_compute in E; discriminate E].
  exists ts. split; [reflexivity|].
  destruct (parse_transactions_segments parse_dmy sheet_transactions (lit "99") ts E)
    as (L & _ & _ & _ & P).
  split; [rewrite L; vm_compute; reflexivity | exact P].
Defined.

Lemma parse_transactions_returns_witness :
  parse_transactions_sheet parse_dmy [] (lit "99") = None
  /\ exists ts,
       parse_transactions_sheet parse_dmy sheet_transactions (lit "99") = Some ts
       /\ length ts <= length (transactions_idxs sheet_transactions).
Proof.
  destruct (parse_transactions_returns parse_dmy [] (lit "99")) as (H0 & _).
  destruct (parse_transactions_returns parse_dmy sheet_transactions (lit "99"))
    as (_ & H1 & _).
  split; [apply H0; reflexivity|].
  apply H1; [discriminate|].
  intros start H.
  replace (transactions_idxs sheet_transactions) with [1; 5] in H
    by (vm_compute; reflexivity).
  destruct H as [<-|[<-|[]]]; vm_compute; reflexivity.
Defined.

(* ------------------------------------------------------------------ *)
(** ** build_dataframes: routing of the sheets                         *)
(* ------------------------------------------------------------------ *)

Lemma add_sheets_none dtparse sheets : forall acc sheet,
  In sheet sheets ->
  contains (lit "CORPORATE ACTIVITY") (upper (fst sheet)) = true ->
  add_sheets dtparse acc sheets = None.
Proof.
  induction sheets as [|s later IH]; intros acc sheet Hin Hc; [destruct Hin|].
  cbn [add_sheets]. destruct Hin as [->|Hin].
  - unfold add_sheet. rewrite Hc. reflexivity.
  - destruct (add_sheet dtparse acc s) as [acc'|]; [|reflexivity].
    cbn [bind]. exact (IH acc' sheet Hin Hc).
Qed.

(** A sheet whose name holds CORPORATE ACTIVITY, in any case, makes the
    whole run raise, whatever the other sheets are. *)
Theorem build_lists_corporate (dtparse : str -> option date)
    (sheets : list (str * grid)) (sheet : str * grid) :
  In sheet sheets ->
  contains (lit "CORPORATE ACTIVITY") (upper (fst sheet)) = true ->
  build_lists dtparse sheets = None.
Proof. intros H C. unfold build_lists. exact (add_sheets_none _ _ _ _ H C). Qed.

Lemma build_lists_corporate_witness :
  build_lists parse_dmy
    (workbook_sample ++ [(lit "Corporate Activity 2024", [])]) = None.
Proof.
  apply (build_lists_corporate parse_dmy _ (lit "Corporate Activity 2024", [])).
  - apply in_or_app. right. left. reflexivity.
  - vm_compute. reflexivity.
Defined.

Lemma add_sheets_routes dtparse sheets : forall acc out,
  add_sheets dtparse acc sheets = Some out ->
  curr_list out
  = curr_list acc
    ++ flat_map (tables_of (parse_holdings_sheet dtparse))
                (filter (fun sh => to_current (fst sh)) sheets)
  /\ past_list out
     = past_list acc
       ++ flat_map (tables_of (parse_holdings_sheet dtparse))
                   (filter (fun sh => to_past (fst sh)) sheets)
  /\ tx_list out
     = tx_list acc
       ++ flat_map (tables_of (parse_transactions_sheet dtparse))
                   (filter (fun sh => to_transactions (fst sh)) sheets).
Proof.
  induction sheets as [|s later IH]; intros acc out H; cbn [add_sheets] in H.
  - injection H as <-. cbn [filter flat_map]. rewrite !app_nil_r. auto.
  - destruct (add_sheet dtparse acc s) as [acc'|] eqn:A; [|discriminate H].
    cbn [bind] in H. apply IH in H. destruct H as (Hc & Hp & Ht).
    rewrite Hc, Hp, Ht. clear Hc Hp Ht IH.
    unfold add_sheet in A. cbv zeta in A. cbn [filter].
    unfold to_transactions, to_past, to_current, tables_of.
    destruct (contains (lit "CORPORATE ACTIVITY") (upper (fst s))); [discriminate A|].
    destruct (contains (lit "HOLDING") (upper (fst s)));
      destruct (contains (lit "CURRENT") (upper (fst s)));
      destruct (contains (lit "PAST") (upper (fst s)));
      destruct (contains (lit "TRANSACTION") (upper (fst s)));
      cbn [andb negb] in A |- *; cbn [flat_map];
      first
        [ injection A as <-; solve [auto]
        | match type of A with
          | bind ?e _ = _ => destruct e as [ts|]; [|discriminate A]
          end;
          cbn [bind] in A; injection A as <-;
          cbn [curr_list past_list tx_list]; rewrite <- ?app_assoc; auto ].
Qed.

(** When the run returns, each list holds, in workbook order, the
    tables of the sheets routed to it: names with HOLDING and CURRENT
    go to the current holdings; else names with HOLDING and PAST to the
    past holdings; else names with TRANSACTION to the transactions; any
    other sheet adds nothing. A sheet feeds one list at most. *)
Theorem build_lists_routes (dtparse : str -> option date)
    (sheets : list (str * grid)) (out : sheet_lists) :
  build_lists dtparse sheets = Some out ->
  curr_list out
  = flat_map (tables_of (parse_holdings_sheet dtparse))
             (filter (fun sh => to_current (fst sh)) sheets)
  /\ past_list out
     = flat_map (tables_of (parse_holdings_sheet dtparse))
                (filter (fun sh => to_past (fst sh)) sheets)
  /\ tx_list out
     = flat_map (tables_of (parse_transactions_sheet dtparse))
                (filter (fun sh => to_transactions (fst sh)) sheets)
  /\ (forall name,
        (to_current name && to_past name = false)
        /\ (to_current name && to_transactions name = false)
        /\ (to_past name && to_transactions name = false)).
Proof.
  unfold build_lists. intros H. apply add_sheets_routes in H.
  cbn [curr_list past_list tx_list app] in H. destruct H as (Hc & Hp & Ht).
  repeat split; try assumption;
    unfold to_transactions, to_past;
    destruct (to_current name); cbn [negb andb]; try reflexivity;
    destruct (contains (lit "HOLDING") (upper name) && contains (lit "PAST") (upper name));
    reflexivity.
Qed.

Lemma build_lists_routes_witness :
  exists out,
    build_lists parse_dmy workbook_sample = Some out
    /\ map labels (curr_list out) = [[2]; [7]]
    /\ past_list out = []
    /\ map labels (tx_list out) = [[2; 4]].
Proof.
  destruct (build_lists parse_dmy workbook_sample) as [out|] eqn:E;
    [|vm_compute in E; discriminate E].
  exists out. split; [reflexivity|].
  destruct (build_lists_routes parse_dmy workbook_sample out E) as (C & P & T & _).
  rewrite C, P, T. repeat split; vm_compute; reflexivity.
Defined.

Lemma portfolio_or_unknown_value df : portfolio_value (portfolio_or_unknown df).
Proof.
  unfold portfolio_or_unknown, portfolio_value.
  destruct (extract_portfolio_id df) as [[|c p]|] eqn:E; auto.
  right. split; [discriminate|].
  rewrite extract_portfolio_id_rows in E.
  apply first_some_spec in E. destruct E as (i & row & _ & E & _).
  apply first_some_spec in E. destruct E as (j & v & _ & E & _).
  apply conta_number_sound in E. unfold conta_shape in E.
  destruct E as (pre & w & sp1 & sp2 & post & _ & _ & _ & _ & F & _). exact F.
Qed.

Lemma portfolio_or_unknown_eq df :
  portfolio_or_unknown df
  = match extract_portfolio_id df with
    | Some n => n
    | None => lit "UNKNOWN"
    end.
Proof.
  unfold portfolio_or_unknown.
  destruct (extract_portfolio_id df) as [[|c p]|] eqn:E; try reflexivity.
  exfalso.
  rewrite extract_portfolio_id_rows in E.
  apply first_some_spec in E. destruct E as (i & row & _ & E & _).
  apply first_some_spec in E. destruct E as (j & v & _ & E & _).
  apply conta_number_sound in E. unfold conta_shape in E.
  destruct E as (pre & w & sp1 & sp2 & post & _ & _ & _ & _ & _ & N).
  apply N. reflexivity.
Qed.

(** When the run returns, every table of the three lists comes from a
    sheet of the workbook, segmented with the portfolio of that very
    sheet: the number [extract_portfolio_id] captures on it, or the word
    UNKNOWN when it captures none; the table has that value in its first
    column, named Portfolio, in all its rows. *)
Theorem build_lists_portfolio (dtparse : str -> option date)
    (sheets : list (str * grid)) (out : sheet_lists) :
  build_lists dtparse sheets = Some out ->
  Forall (fun t =>
            exists sheet p ts,
              In sheet sheets
              /\ p = match extract_portfolio_id (snd sheet) with
                     | Some n => n
                     | None => lit "UNKNOWN"
                     end
              /\ (parse_holdings_sheet dtparse (snd sheet) p = Some ts
                  \/ parse_transactions_sheet dtparse (snd sheet) p = Some ts)
              /\ In t ts
              /\ portfolio_first p t
              /\ portfolio_value p)
         (curr_list out ++ past_list out ++ tx_list out).
Proof.
  intros H.
  assert (HT : forall sh t,
            In t (tables_of (parse_holdings_sheet dtparse) sh) ->
            exists p ts,
              p = match extract_portfolio_id (snd sh) with
                  | Some n => n
                  | None => lit "UNKNOWN"
                  end
              /\ (parse_holdings_sheet dtparse (snd sh) p = Some ts
                  \/ parse_transactions_sheet dtparse (snd sh) p = Some ts)
              /\ In t ts /\ portfolio_first p t /\ portfolio_value p).
  { intros sh t Hin. unfold tables_of in Hin.
    destruct (parse_holdings_sheet dtparse (snd sh) _) as [ts|] eqn:E; [|destruct Hin].
    exists (portfolio_or_unknown (snd sh)), ts.
    split; [apply portfolio_or_unknown_eq|]. split; [left; exact E|].
    split; [exact Hin|]. split; [|apply portfolio_or_unknown_value].
    apply holdings_loop_tables in E. destruct E as (_ & F).
    rewrite Forall_forall in F. apply F. exact Hin. }
  assert (TT : forall sh t,
            In t (tables_of (parse_transactions_sheet dtparse) sh) ->
            exists p ts,
              p = match extract_portfolio_id (snd sh) with
                  | Some n => n
                  | None => lit "UNKNOWN"
                  end
              /\ (parse_holdings_sheet dtparse (snd sh) p = Some ts
                  \/ parse_transactions_sheet dtparse (snd sh) p = Some ts)
              /\ In t ts /\ portfolio_first p t /\ portfolio_value p).
  { intros sh t Hin. unfold tables_of in Hin.
    destruct (parse_transactions_sheet dtparse (snd sh) _) as [ts|] eqn:E;
      [|destruct Hin].
    exists (portfolio_or_unknown (snd sh)), ts.
    split; [apply portfolio_or_unknown_eq|]. split; [right; exact E|].
    split; [exact Hin|]. split; [|apply portfolio_or_unknown_value].
    unfold parse_transactions_sheet in E. destruct (ncols (snd sh)); [discriminate|].
    apply transactions_loop_tables in E. destruct E as (_ & F).
    rewrite Forall_forall in F. apply F. exact Hin. }
  unfold build_lists in H. apply add_sheets_routes in H.
  cbn [curr_list past_list tx_list app] in H. destruct H as (-> & -> & ->).
  rewrite !Forall_app. repeat split; apply Forall_forall; intros t Hin;
    apply in_flat_map in Hin; destruct Hin as (sh & Hsh & Hin);
    apply filter_In in Hsh; destruct Hsh as (Hsh & _);
    [ destruct (HT sh t Hin) as (p & ts & K)
    | destruct (HT sh t Hin) as (p & ts & K)
    | destruct (TT sh t Hin) as (p & ts & K) ];
    exists sh, p, ts; tauto.
Qed.

Lemma build_lists_portfolio_witness :
  exists out,
    build_lists parse_dmy workbook_sample = Some out
    /\ length (curr_list out ++ past_list out ++ tx_list out) = 3
    /\ map (fun sh => extract_portfolio_id (snd sh)) workbook_sample
       = [None; None; Some (lit "99")]
    /\ Forall (fun t =>
                 exists sheet p ts,
                   In sheet workbook_sample
                   /\ p = match extract_portfolio_id (snd sheet) with
                          | Some n => n
                          | None => lit "UNKNOWN"
                          end
                   /\ (parse_holdings_sheet parse_dmy (snd sheet) p = Some ts
                       \/ parse_transactions_sheet parse_dmy (snd sheet) p = Some ts)
                   /\ In t ts
                   /\ portfolio_first p t
                   /\ portfolio_value p)
              (curr_list out ++ past_list out ++ tx_list out).
Proof.
  destruct (build_lists parse_dmy workbook_sample) as [out|] eqn:E;
    [|vm_compute in E; discriminate E].
  exists out. split; [reflexivity|]. split; [|split].
  - vm_compute in E. injection E as <-. reflexivity.
  - vm_compute. reflexivity.
  - exact (build_lists_portfolio parse_dmy workbook_sample out E).
Defined.

(* ------------------------------------------------------------------ *)
(** ** The characters a match and its groups can hold                  *)
(* ------------------------------------------------------------------ *)

Lemma matches_classes_in P r st st' :
  matches r st st' -> classes_in P r ->
  exists w, rest st = w ++ rest st'
            /\ pos st' = pos st + length w
            /\ Forall (fun c => P c = true) w.
Proof.
  induction 1 as [st|p st c t E Hp|r1 r2 st st1 st2 _ IH1 _ IH2
                 |r1 r2 st st1 _ IH|r1 r2 st st1 _ IH|r st
                 |r st st1 st2 _ IH1 _ IH2
                 |n r st st1 _ IH|st _|st _]; intros C; cbn [classes_in] in C;
    try (exists []; cbn; repeat split; [lia | constructor]).
  - exists [c]. cbn [pos rest length app]. repeat split; [exact E | lia | auto].
  - destruct (IH1 (proj1 C)) as (w1 & E1 & P1 & F1).
    destruct (IH2 (proj2 C)) as (w2 & E2 & P2 & F2).
    exists (w1 ++ w2). rewrite length_app, <- app_assoc, <- E2.
    repeat split; [exact E1 | lia | apply Forall_app; auto].
  - exact (IH (proj1 C)).
  - exact (IH (proj2 C)).
  - destruct (IH1 C) as (w1 & E1 & P1 & F1).
    destruct (IH2 C) as (w2 & E2 & P2 & F2).
    exists (w1 ++ w2). rewrite length_app, <- app_assoc, <- E2.
    repeat split; [exact E1 | lia | apply Forall_app; auto].
  - exact (IH C).
Qed.

Lemma matches_on_subject (s : str) r st st' :
  matches r st st' -> skipn (pos st) s = rest st -> skipn (pos st') s = rest st'.
Proof.
  intros M H. destruct (matches_reads _ _ _ M) as (w & E & P).
  exact (proj2 (reads_slice s st st' w H E P)).
Qed.

Lemma matches_groups_in P n (s : str) r st st' :
  matches r st st' -> groups_in P n r -> skipn (pos st) s = rest st ->
  exists new, caps st' = new ++ caps st
              /\ forall a b, In (n, (a, b)) new ->
                             Forall (fun c => P c = true) (slice a b s).
Proof.
  induction 1 as [st|p st c t E Hp|r1 r2 st st1 st2 M1 IH1 M2 IH2
                 |r1 r2 st st1 _ IH|r1 r2 st st1 _ IH|r st
                 |r st st1 st2 M1 IH1 M2 IH2
                 |k r st st1 M IH|st _|st _]; intros G H0; cbn [groups_in] in G;
    try (exists []; split; [reflexivity | intros a b []]).
  - destruct (IH1 (proj1 G) H0) as (n1 & C1 & F1).
    destruct (IH2 (proj2 G) (matches_on_subject s _ _ _ M1 H0)) as (n2 & C2 & F2).
    exists (n2 ++ n1). rewrite C2, C1, app_assoc. split; [reflexivity|].
    intros a b Hin. apply in_app_or in Hin. destruct Hin; eauto.
  - exact (IH (proj1 G) H0).
  - exact (IH (proj2 G) H0).
  - destruct (IH1 G H0) as (n1 & C1 & F1).
    destruct (IH2 G (matches_on_subject s _ _ _ M1 H0)) as (n2 & C2 & F2).
    exists (n2 ++ n1). rewrite C2, C1, app_assoc. split; [reflexivity|].
    intros a b Hin. apply in_app_or in Hin. destruct Hin; eauto.
  - destruct (IH (proj2 G) H0) as (n1 & C1 & F1).
    exists ((k, (pos st, pos st1)) :: n1). cbn [caps]. rewrite C1.
    split; [reflexivity|]. intros a b [E|Hin]; [|eauto].
    injection E as -> <- <-.
    destruct (matches_classes_in P _ _ _ M (proj1 G eq_refl)) as (w & Ew & Pw & Fw).
    rewrite (proj1 (reads_slice s st st1 w H0 Ew Pw)). exact Fw.
Qed.

(** The text of group [n] of a match found by [search]. *)
Lemma search_group_chars P n r s m :
  groups_in P n r -> search r s = Some m ->
  Forall (fun c => P c = true) (group n s m).
Proof.
  unfold search. intros G H. apply search_from_sound in H.
  destruct H as (pre & s0 & p0 & st' & -> & S0 & M & Me & Mc).
  cbn [Nat.add] in S0.
  assert (H0 : skipn (pos (MState (mstart m) p0 s0 [])) (pre ++ s0)
               = rest (MState (mstart m) p0 s0 [])).
  { cbn [pos rest]. rewrite S0, skipn_app, skipn_all, Nat.sub_diag. reflexivity. }
  destruct (matches_groups_in P n (pre ++ s0) _ _ _ M G H0) as (new & C & F).
  unfold group. rewrite Mc, C. cbn [caps]. rewrite app_nil_r.
  destruct (cap_lookup n new) as [[a b]|] eqn:L; [|constructor].
  apply cap_lookup_in in L. exact (F a b L).
Qed.

(** The whole text of a match found by [search]. *)
Lemma search_group0_chars P r s m :
  classes_in P r -> search r s = Some m ->
  Forall (fun c => P c = true) (group0 s m).
Proof.
  unfold search. intros C H. apply search_from_sound in H.
  destruct H as (pre & s0 & p0 & st' & -> & S0 & M & Me & _).
  cbn [Nat.add] in S0.
  destruct (matches_classes_in P _ _ _ M C) as (w & E & Pw & F).
  cbn [rest pos] in E, Pw. rewrite E.
  rewrite (span_group0 pre w (rest st') m S0) by lia. exact F.
Qed.

(* ------------------------------------------------------------------ *)
(** ** The characters of a recorded quantity                           *)
(* ------------------------------------------------------------------ *)

Lemma quantity_patterns_chars :
  groups_in num_tail 1 RE_SLASH_QTY
  /\ groups_in num_tail 2 RE_SLASH_QTY
  /\ groups_in num_tail 1 RE_QTY_PT1
  /\ groups_in num_tail 1 RE_QTY_PT2
  /\ classes_in num_tail RE_QTY_STANDALONE.
Proof.
  assert (D : forall c, is_digit c = true -> num_tail c = true)
    by (intros c; by_cases_on c).
  cbn [RE_SLASH_QTY RE_QTY_PT1 RE_QTY_PT2 RE_QTY_STANDALONE number seqs
       word_i chr_i chr opt plus digit ws map lit list_ascii_of_string
       fold_right groups_in classes_in].
  repeat split; auto; discriminate.
Qed.

Lemma clean_num_chars s :
  Forall (fun c => num_tail c = true) s ->
  Forall (fun c => qty_char c = true) (_clean_num s).
Proof.
  intros F. unfold _clean_num.
  change (lit ",") with [","%char]. rewrite replace_char_delete.
  destruct (lstrip "0" (filter (fun x => negb (Ascii.eqb "," x)) s))
    as [|h t] eqn:E; cbn [or_else].
  - repeat constructor.
  - apply Forall_forall. intros x Hx. rewrite <- E in Hx.
    apply (lstrip_by_incl (one_of "0")) in Hx. apply filter_In in Hx.
    destruct Hx as (Hin & Hc).
    pose proof (proj1 (Forall_forall _ _) F x Hin) as Hn. cbv beta in Hn.
    revert Hn Hc. clear. by_cases_on x.
Qed.

Lemma quantity_stage_chars tipo rest out k v :
  k = Det_Qty1 \/ k = Det_Qty2 ->
  dict_get k out = None ->
  dict_get k (fst (quantity_stage tipo rest out)) = Some v ->
  exists s, v = CStr (_clean_num s) /\ Forall (fun c => num_tail c = true) s.
Proof.
  intros K H0. unfold quantity_stage.
  destruct quantity_patterns_chars as (S1 & S2 & P1 & P2 & St).
  assert (N12 : Det_Qty1 <> Det_Qty2) by key_neq.
  assert (N21 : Det_Qty2 <> Det_Qty1) by key_neq.
  destruct (search RE_SLASH_QTY rest) as [m|] eqn:E0; cbn [fst].
  { pose proof (search_group_chars num_tail 1 _ _ _ S1 E0) as F1.
    pose proof (search_group_chars num_tail 2 _ _ _ S2 E0) as F2.
    destruct K as [-> | ->]; rewrite ?dict_get_set_same;
      rewrite ?(dict_get_set_other _ Det_Qty1 Det_Qty2) by exact N21;
      rewrite ?dict_get_set_same; intros H; injection H as <-; eauto. }
  assert (G1 : forall m, search RE_QTY_PT1 rest = Some m ->
                 Forall (fun c => num_tail c = true) (group 1 rest m))
    by (intros m; apply search_group_chars; exact P1).
  assert (G2 : forall m, search RE_QTY_PT2 rest = Some m ->
                 Forall (fun c => num_tail c = true) (group 1 rest m))
    by (intros m; apply search_group_chars; exact P2).
  assert (G3 : forall m, search RE_QTY_STANDALONE rest = Some m ->
                 Forall (fun c => num_tail c = true) (group0 rest m))
    by (intros m; apply search_group0_chars; exact St).
  destruct (search RE_QTY_PT1 rest), (search RE_QTY_PT2 rest);
    match goal with |- context [if ?b then _ else _] => destruct b end;
    try destruct (search RE_QTY_STANDALONE rest); cbn [fst];
    destruct K as [-> | ->];
    rewrite ?dict_get_set_same;
    rewrite ?(dict_get_set_other _ Det_Qty1 Det_Qty2) by exact N21;
    rewrite ?(dict_get_set_other _ Det_Qty2 Det_Qty1) by exact N12;
    rewrite ?dict_get_set_same;
    rewrite ?(dict_get_set_other _ Det_Qty1 Det_Qty2) by exact N21;
    rewrite ?(dict_get_set_other _ Det_Qty2 Det_Qty1) by exact N12;
    rewrite ?dict_get_set_same, ?H0;
    intros H; try discriminate H; injection H as <-; eauto.
Qed.

(** A recorded quantity, Det_Qty1 or Det_Qty2, is made of digits and
    dots only. *)
Theorem parse_details_quantity_chars (dtparse : str -> option date) (v : cell)
    (k : str) (q : cell) :
  k = Det_Qty1 \/ k = Det_Qty2 ->
  dict_get k (parse_details dtparse v) = Some q ->
  exists x, q = CStr x /\ Forall (fun c => qty_char c = true) x.
Proof.
  intros K. destruct v as [|s|r]; [discriminate| |discriminate].
  rewrite parse_details_stages. cbv zeta.
  assert (E : dict_get k (set_if_text (dict_set [] Det_Tipo
                 (opt_cell (fst (tipo_stage (strip s))))) Det_Advice
                 (fst (_extract_advice (snd (tipo_stage (strip s)))))) = None).
  { destruct K as [-> | ->]; through_stages; reflexivity. }
  intros H.
  assert (H' : dict_get k (fst (quantity_stage (fst (tipo_stage (strip s)))
                 (snd (_extract_advice (snd (tipo_stage (strip s)))))
                 (set_if_text (dict_set [] Det_Tipo
                    (opt_cell (fst (tipo_stage (strip s))))) Det_Advice
                    (fst (_extract_advice (snd (tipo_stage (strip s)))))))) = Some q).
  { destruct K as [-> | ->]; revert H; through_stages; auto. }
  destruct (quantity_stage_chars _ _ _ k q K E H') as (x & -> & F).
  exists (_clean_num x). split; [reflexivity|].
  exact (clean_num_chars x F).
Qed.

Lemma parse_details_quantity_chars_witness :
  dict_get Det_Qty2 (parse_details parse_dmy (CStr (lit "BUY 1,200/0.50 x")))
  = Some (CStr (lit ".50"))
  /\ exists x, CStr (lit ".50") = CStr x
               /\ Forall (fun c => qty_char c = true) x.
Proof.
  assert (E : dict_get Det_Qty2
                (parse_details parse_dmy (CStr (lit "BUY 1,200/0.50 x")))
              = Some (CStr (lit ".50"))) by (vm_compute; reflexivity).
  split; [exact E|].
  exact (parse_details_quantity_chars parse_dmy (CStr (lit "BUY 1,200/0.50 x"))
           Det_Qty2 (CStr (lit ".50")) (or_intror eq_refl) E).
Defined.

(* ------------------------------------------------------------------ *)
(** ** The cells of the rows emitted                                   *)
(* ------------------------------------------------------------------ *)

Lemma apply_where_nth (f : cell -> cell) : forall flags r j,
  nth_error (apply_where flags f r) j
  = option_map (fun v => if nth j flags false then f v else v) (nth_error r j).
Proof.
  induction flags as [|b fl IH]; intros r j.
  - destruct r as [|v r']; cbn [apply_where].
    + destruct j; reflexivity.
    + destruct (nth_error (v :: r') j); destruct j; reflexivity.
  - destruct r as [|v r']; cbn [apply_where].
    + destruct j; reflexivity.
    + destruct j as [|j]; cbn [nth_error nth option_map]; [reflexivity|].
      apply IH.
Qed.

Lemma apply_where_length (f : cell -> cell) : forall flags r,
  length (apply_where flags f r) = length r.
Proof.
  induction flags as [|b fl IH]; intros [|v r']; cbn [apply_where length];
    auto.
Qed.

Lemma nth_map_true {A : Type} (g : A -> bool) : forall l j,
  nth j (map g l) false = true ->
  exists x, nth_error l j = Some x /\ g x = true.
Proof.
  induction l as [|a t IH]; intros [|j]; cbn [map nth nth_error];
    try discriminate; eauto.
Qed.

Lemma normalize_date_columns_cells dtparse f i cells :
  In (i, cells) (rows (normalize_date_columns dtparse f)) ->
  exists orig, In (i, orig) (rows f)
    /\ length cells = length orig
    /\ carried dtparse f 0 orig cells.
Proof.
  unfold normalize_date_columns. cbn [rows]. intros H.
  apply in_map_iff in H. destruct H as ([i' orig] & E & Hin).
  cbn [fst snd] in E. injection E as -> <-.
  exists orig. split; [exact Hin|]. split; [apply apply_where_length|].
  intros j v Hv. cbn [Nat.add]. rewrite apply_where_nth, Hv. cbn [option_map].
  eexists. split; [reflexivity|].
  destruct (nth j _ false) eqn:Fl; [right | left; reflexivity].
  split; [reflexivity|].
  apply nth_map_true in Fl. destruct Fl as (name & Hn & G).
  apply andb_true_iff in G. exists name. tauto.
Qed.

Lemma holdings_subtable_cells dtparse df portfolio r c data t i cells :
  holdings_subtable dtparse df portfolio r c data = Some t ->
  In (i, cells) (rows t) ->
  exists orig, In (i, orig) data
    /\ length cells = 3 + length orig
    /\ carried dtparse t 3 orig cells.
Proof.
  unfold holdings_subtable, frame_insert. cbn [columns rows bind].
  destruct (mem (lit "Portfolio") _); [discriminate|].
  cbn [bind columns rows insert_at firstn skipn app].
  destruct (mem (lit "AssetType") _); [discriminate|].
  cbn [bind columns rows insert_at firstn skipn app].
  destruct (mem (lit "AssetName") _); [discriminate|].
  cbn [bind]. intros H Hin. injection H as <-.
  apply normalize_date_columns_cells in Hin.
  destruct Hin as (orig' & Hin & L & C).
  cbn [rows] in Hin. rewrite !map_map in Hin. cbn [fst snd] in Hin.
  apply in_map_iff in Hin. destruct Hin as ([i' orig] & E & Hin).
  cbn [fst snd] in E. injection E as -> <-.
  exists orig. split; [exact Hin|]. split; [rewrite L; reflexivity|].
  intros j v Hv. destruct (C (3 + j) v Hv) as (v' & N & D).
  exists v'. split; [exact N|].
  rewrite (proj2 (normalize_date_columns_rows dtparse _)). exact D.
Qed.

Lemma holdings_loop_in dtparse df portfolio hs : forall ts t,
  holdings_loop dtparse df portfolio hs = Some ts -> In t ts ->
  exists r c next_r,
    holdings_subtable dtparse df portfolio r c (holdings_body df r next_r)
    = Some t.
Proof.
  induction hs as [|[r c] later IH]; intros ts t H Hin;
    cbn [holdings_loop] in H.
  - injection H as <-. destruct Hin.
  - destruct (holdings_body df r _) as [|x b] eqn:B.
    + exact (IH ts t H Hin).
    + destruct (holdings_subtable dtparse df portfolio r c (x :: b))
        as [sub|] eqn:S; [|discriminate H].
      cbn [bind] in H.
      destruct (holdings_loop dtparse df portfolio later) as [rest_ts|] eqn:L;
        [|discriminate H].
      cbn [bind] in H. injection H as <-.
      destruct Hin as [<-|Hin]; [|exact (IH rest_ts t eq_refl Hin)].
      exists r, c. eexists. rewrite B. exact S.
Qed.

(** Every row of a table returned for a holdings sheet is a row of the
    sheet with three cells put in front: each cell of the sheet row is
    in its place, unchanged, or as its normalised date under a column
    whose name holds DATA or DATE; no cell is dropped or moved. *)
Theorem parse_holdings_cells (dtparse : str -> option date)
    (df : grid) (portfolio : str) (ts : list frame) (t : frame)
    (i : nat) (cells : list cell) :
  parse_holdings_sheet dtparse df portfolio = Some ts ->
  In t ts -> In (i, cells) (rows t) ->
  exists orig, nth_error df i = Some orig
    /\ length cells = 3 + length orig
    /\ carried dtparse t 3 orig cells.
Proof.
  unfold parse_holdings_sheet. intros H Ht Hr.
  destruct (holdings_loop_in _ _ _ _ _ _ H Ht) as (r & c & n & S).
  destruct (holdings_subtable_cells _ _ _ _ _ _ _ _ _ S Hr) as (orig & Hin & L & C).
  apply in_holdings_body in Hin. exists orig. tauto.
Qed.

Lemma union_keys_acc (ds : list dict) : forall acc x,
  In x acc -> In x (union_keys acc ds).
Proof.
  induction ds as [|d t IH]; intros acc x H; cbn [union_keys]; [exact H|].
  apply IH. apply in_or_app. left. exact H.
Qed.

Lemma mem_false_not_In x l : mem x l = false -> ~ In x l.
Proof.
  intros H Hin. apply mem_In in Hin. rewrite Hin in H. discriminate H.
Qed.

Lemma union_keys_incl (ds : list dict) : forall acc d x,
  In d ds -> In x (keys d) -> In x (union_keys acc ds).
Proof.
  induction ds as [|d0 t IH]; intros acc d x Hd Hx; [destruct Hd|].
  cbn [union_keys]. destruct Hd as [->|Hd]; [|exact (IH _ d x Hd Hx)].
  apply union_keys_acc.
  destruct (mem x acc) eqn:M.
  - apply in_or_app. left. apply mem_In. exact M.
  - apply in_or_app. right. apply filter_In. split; [exact Hx|].
    rewrite M. reflexivity.
Qed.

Lemma in_combine_map {A B : Type} (f : A -> B) (l : list A) x y :
  In (x, y) (combine l (map f l)) -> In x l /\ y = f x.
Proof.
  induction l as [|a t IH]; cbn [map combine]; [intros []|].
  intros [E|H].
  - injection E as <- <-. split; [left|]; reflexivity.
  - destruct (IH H) as (Hin & E). split; [right; exact Hin | exact E].
Qed.

Lemma expand_details_cells dtparse body i cells :
  In (i, cells) (rows (expand_details dtparse body)) ->
  exists orig extra new_cols,
    In (i, orig) (rows body) /\ cells = orig ++ extra
    /\ columns (expand_details dtparse body) = columns body ++ new_cols
    /\ details_appended dtparse (columns body) new_cols orig extra.
Proof.
  unfold expand_details, details_appended, details_column.
  destruct (find _ (enumerate (columns body))) as [[j name]|];
    cbn [rows columns option_map fst].
  - intros H. apply in_map_iff in H. destruct H as ([[i' orig] d] & E & Hin).
    cbn [fst snd] in E. injection E as -> <-.
    apply in_combine_map in Hin. cbn [snd] in Hin. destruct Hin as (Hin & ->).
    eexists orig, _, _. split; [exact Hin|]. split; [reflexivity|].
    split; [reflexivity|]. cbv zeta. split; [|split].
    + unfold series_row. apply length_map.
    + intros m k Hk. unfold series_row. rewrite nth_error_map, Hk. reflexivity.
    + intros k Hk.
      apply (union_keys_incl _ [] (parse_details dtparse (nth j orig CEmpty)));
        [|exact Hk].
      apply in_map_iff. exists (i, orig). split; [reflexivity | exact Hin].
  - intros H. exists cells, [], []. rewrite !app_nil_r. auto.
Qed.

Lemma transactions_subtable_cells dtparse df portfolio start body t i cells :
  transactions_subtable dtparse df portfolio start body = Some t ->
  In (i, cells) (rows t) ->
  exists orig extra new_cols,
    In (i, orig) body
    /\ columns t = lit "Portfolio" :: body_columns df start (ncols df) ++ new_cols
    /\ length cells = 1 + length orig + length extra
    /\ nth_error cells 0 = Some (CStr portfolio)
    /\ carried dtparse t 1 (orig ++ extra) cells
    /\ details_appended dtparse (body_columns df start (ncols df))
                        new_cols orig extra.
Proof.
  unfold transactions_subtable, frame_insert.
  destruct (mem (lit "Portfolio") _); [discriminate|].
  intros H Hin. injection H as <-.
  cbn [rows columns insert_at firstn skipn app] in *.
  apply in_map_iff in Hin. destruct Hin as ([i' cells1] & E & Hin).
  cbn [fst snd] in E. injection E as -> <-.
  apply normalize_date_columns_cells in Hin.
  destruct Hin as (orig' & Hin & L & C).
  apply expand_details_cells in Hin.
  destruct Hin as (orig & extra & new_cols & Hin & -> & Ecols & D).
  cbn [rows columns] in Hin, Ecols, D.
  exists orig, extra, new_cols. split; [exact Hin|].
  split; [rewrite Ecols; reflexivity|].
  split; [cbn [length]; rewrite L, length_app; lia|].
  split; [reflexivity|]. split; [|exact D].
  intros j v Hv.
  destruct (C j v Hv) as (v' & N & K). cbn [Nat.add] in N, K.
  exists v'. cbn [Nat.add nth_error columns]. split; [exact N | exact K].
Qed.

Lemma transactions_loop_in dtparse df portfolio idxs : forall ts t,
  transactions_loop dtparse df portfolio idxs = Some ts -> In t ts ->
  exists start stop,
    In start idxs
    /\ transactions_subtable dtparse df portfolio start
         (transactions_body df start stop) = Some t.
Proof.
  induction idxs as [|start later IH]; intros ts t H Hin;
    cbn [transactions_loop] in H.
  - injection H as <-. destruct Hin.
  - assert (Up : forall ts', transactions_loop dtparse df portfolio later = Some ts' ->
                 In t ts' ->
                 exists start0 stop,
                   In start0 (start :: later)
                   /\ transactions_subtable dtparse df portfolio start0
                        (transactions_body df start0 stop) = Some t).
    { intros ts' H' Hin'. destruct (IH ts' t H' Hin') as (s0 & e0 & I0 & S0).
      exists s0, e0. split; [right; exact I0 | exact S0]. }
    destruct (transactions_body df start _) as [|x b] eqn:B.
    + exact (Up ts H Hin).
    + destruct (transactions_subtable dtparse df portfolio start (x :: b))
        as [sub|] eqn:S; [|discriminate H].
      cbn [bind] in H.
      destruct (transactions_loop dtparse df portfolio later) as [rest_ts|] eqn:L;
        [|discriminate H].
      cbn [bind] in H. injection H as <-.
      destruct Hin as [<-|Hin]; [|exact (Up rest_ts eq_refl Hin)].
      exists start. eexists. split; [left; reflexivity|]. rewrite B. exact S.
Qed.

(** Every row of a table returned for a transactions sheet is a row of
    the sheet, below the CARTEIRA row that heads the table, with the
    portfolio in front and the decomposed details, if any, behind. The
    first cell is the portfolio. Each cell of the sheet row and each
    appended cell is in its place, unchanged, or as its normalised date
    under a column whose name holds DATA or DATE. With a details
    column, the appended cells are, name by name, what [parse_details]
    gives for the details cell of the row, empty where the record has
    nothing, and no key of the record is left out; without one, nothing
    is appended. *)
Theorem parse_transactions_cells (dtparse : str -> option date)
    (df : grid) (portfolio : str) (ts : list frame) (t : frame)
    (i : nat) (cells : list cell) :
  parse_transactions_sheet dtparse df portfolio = Some ts ->
  In t ts -> In (i, cells) (rows t) ->
  exists orig extra start new_cols,
    nth_error df i = Some orig
    /\ In start (transactions_idxs df) /\ start < i
    /\ columns t = lit "Portfolio" :: body_columns df start (ncols df) ++ new_cols
    /\ length cells = 1 + length orig + length extra
    /\ nth_error cells 0 = Some (CStr portfolio)
    /\ carried dtparse t 1 (orig ++ extra) cells
    /\ details_appended dtparse (body_columns df start (ncols df))
                        new_cols orig extra.
Proof.
  unfold parse_transactions_sheet. fold (transactions_idxs df). intros H Ht Hr.
  destruct (ncols df) as [|w] eqn:W; [discriminate H|]. rewrite <- W in *.
  destruct (transactions_loop_in _ _ _ _ _ _ H Ht) as (s & e & Is & S).
  destruct (transactions_subtable_cells _ _ _ _ _ _ _ _ S Hr)
    as (orig & extra & new_cols & Hin & Ec & L & P & C & D).
  apply in_transactions_body in Hin. destruct Hin as (Lt & Hn & _).
  exists orig, extra, s, new_cols.
  split; [exact Hn|]. split; [exact Is|]. split; [lia|]. auto.
Qed.

Lemma parse_holdings_cells_witness :
  exists ts t cells orig,
    parse_holdings_sheet parse_dmy sheet_two_anchors (lit "77") = Some ts
    /\ In t ts /\ In (2, cells) (rows t)
    /\ nth_error sheet_two_anchors 2 = Some orig
    /\ length cells = 3 + length orig
    /\ carried parse_dmy t 3 orig cells.
Proof.
  set (ts := match parse_holdings_sheet parse_dmy sheet_two_anchors (lit "77") with
             | Some ts => ts
             | None => []
             end).
  assert (E : parse_holdings_sheet parse_dmy sheet_two_anchors (lit "77") = Some ts)
    by (vm_compute; reflexivity).
  set (t := hd (Frame [] []) ts).
  assert (Ht : In t ts) by (vm_compute; left; reflexivity).
  set (cells := snd (hd (0, []) (rows t))).
  assert (Hr : In (2, cells) (rows t)) by (vm_compute; left; reflexivity).
  destruct (parse_holdings_cells parse_dmy sheet_two_anchors (lit "77")
              ts t 2 cells E Ht Hr) as (orig & N & L & C).
  exists ts, t, cells, orig. tauto.
Defined.

Lemma parse_transactions_cells_witness :
  exists ts t cells orig extra start new_cols,
    parse_transactions_sheet parse_dmy sheet_transactions (lit "99") = Some ts
    /\ In t ts /\ In (2, cells) (rows t)
    /\ nth_error sheet_transactions 2 = Some orig
    /\ In start (transactions_idxs sheet_transactions) /\ start < 2
    /\ columns t = lit "Portfolio"
                   :: body_columns sheet_transactions start
                        (ncols sheet_transactions) ++ new_cols
    /\ length cells = 1 + length orig + length extra
    /\ nth_error cells 0 = Some (CStr (lit "99"))
    /\ carried parse_dmy t 1 (orig ++ extra) cells
    /\ details_appended parse_dmy
         (body_columns sheet_transactions start (ncols sheet_transactions))
         new_cols orig extra.
Proof.
  set (ts := match parse_transactions_sheet parse_dmy sheet_transactions (lit "99") with
             | Some ts => ts
             | None => []
             end).
  assert (E : parse_transactions_sheet parse_dmy sheet_transactions (lit "99")
              = Some ts) by (vm_compute; reflexivity).
  set (t := hd (Frame [] []) ts).
  assert (Ht : In t ts) by (vm_compute; left; reflexivity).
  set (cells := snd (hd (0, []) (rows t))).
  assert (Hr : In (2, cells) (rows t)) by (vm_compute; left; reflexivity).
  destruct (parse_transactions_cells parse_dmy sheet_transactions (lit "99")
              ts t 2 cells E Ht Hr)
    as (orig & extra & start & new_cols & K).
  exists ts, t, cells, orig, extra, start, new_cols. tauto.
Defined.

(* ------------------------------------------------------------------ *)
(** ** The columns taken as dates                                      *)
(* ------------------------------------------------------------------ *)

Lemma word_i_classes (l : str) : forall w,
  Forall2 (fun q c => q c = true)
          (map (fun c x => Ascii.eqb (fold_case x) (fold_case c)) l) w
  <-> map fold_case w = map fold_case l.
Proof.
  induction l as [|a l IH]; intros w; cbn [map].
  - split.
    + intros H. inversion H. reflexivity.
    + destruct w; [constructor | discriminate].
  - split.
    + intros H. inversion H as [|q c qs w' Hc F]; subst. cbn [map].
      apply Ascii.eqb_eq in Hc. rewrite Hc. f_equal. apply IH. exact F.
    + destruct w as [|c w']; [discriminate|]. cbn [map]. intros H.
      injection H as Hc Hw. constructor.
      * apply Ascii.eqb_eq. exact Hc.
      * apply IH. exact Hw.
Qed.

Lemma run_classes_complete (A : Type) (ps : list (ascii -> bool)) w :
  Forall2 (fun q c => q c = true) ps w ->
  forall n p t cs (k : mstate -> option A),
  exists p', run (seqs (map Cls ps)) (MState n p (w ++ t) cs) k
             = k (MState (n + length w) p' t cs).
Proof.
  induction 1 as [|q c ps w Hc _ IH]; intros n p t cs k.
  - exists p. cbn. rewrite Nat.add_0_r. reflexivity.
  - unfold seqs in IH |- *.
    cbn [map fold_right run rest app pos caps]. rewrite Hc.
    destruct (IH (S n) (Some c) t cs k) as (p' & E).
    exists p'. rewrite E. cbn [length].
    rewrite Nat.add_succ_r. reflexivity.
Qed.

Lemma attempt_date_word n p w t :
  map fold_case w = lit "data" \/ map fold_case w = lit "date" ->
  attempt RE_DATA_DATE n p (w ++ t) Some <> None.
Proof.
  intros H. unfold attempt, RE_DATA_DATE. cbn [run].
  change (word_i "DATA")
    with (seqs (map Cls (map (fun c x => Ascii.eqb (fold_case x) (fold_case c))
                             (lit "DATA")))).
  change (word_i "DATE")
    with (seqs (map Cls (map (fun c x => Ascii.eqb (fold_case x) (fold_case c))
                             (lit "DATE")))).
  destruct H as [H|H].
  - apply (proj2 (word_i_classes (lit "DATA") w)) in H.
    destruct (run_classes_complete _ _ w H n p t [] Some) as (p' & E).
    rewrite E. cbn. discriminate.
  - apply (proj2 (word_i_classes (lit "DATE") w)) in H.
    destruct (run_classes_complete _ _ w H n p t [] Some) as (p' & E).
    rewrite E.
    match goal with
    | |- match (match ?x with Some _ => _ | None => _ end) with
         | Some _ => _ | None => _ end <> None => destruct x
    end; cbn; discriminate.
Qed.

Lemma search_from_complete r s0 :
  (forall n p, attempt r n p s0 Some <> None) ->
  forall pre n p, search_from r n p (pre ++ s0) <> None.
Proof.
  intros H. induction pre as [|c pre IH]; intros n p.
  - cbn [app]. specialize (H n p).
    destruct s0; cbn [search_from]; destruct (attempt r n p _ Some);
      [discriminate | contradiction | discriminate | contradiction].
  - cbn [app search_from]. destruct (attempt r n p _ Some); [discriminate|].
    apply IH.
Qed.

(** The test on a column name succeeds exactly when the name holds,
    anywhere and in any letter case, the word DATA or the word DATE. *)
Lemma is_date_col_iff (col : str) :
  is_date_col col = true <-> date_named col.
Proof.
  unfold is_date_col, date_named. split.
  - destruct (search RE_DATA_DATE col) as [m|] eqn:E; [|discriminate].
    intros _. unfold search in E. apply search_from_sound in E.
    destruct E as (pre & s0 & p0 & st' & -> & _ & M & _ & _).
    unfold RE_DATA_DATE in M.
    inversion M as [| | |? ? ? ? M1|? ? ? ? M1| | | | |]; subst; clear M.
    + change (word_i "DATA")
        with (seqs (map Cls (map (fun c x => Ascii.eqb (fold_case x) (fold_case c))
                                 (lit "DATA")))) in M1.
      apply matches_classes in M1. destruct M1 as (w & E1 & F1 & _).
      cbn [rest] in E1. exists w. split.
      * exists pre, (rest st'). rewrite E1. reflexivity.
      * left. apply (proj1 (word_i_classes (lit "DATA") w)) in F1. exact F1.
    + change (word_i "DATE")
        with (seqs (map Cls (map (fun c x => Ascii.eqb (fold_case x) (fold_case c))
                                 (lit "DATE")))) in M1.
      apply matches_classes in M1. destruct M1 as (w & E1 & F1 & _).
      cbn [rest] in E1. exists w. split.
      * exists pre, (rest st'). rewrite E1. reflexivity.
      * right. apply (proj1 (word_i_classes (lit "DATE") w)) in F1. exact F1.
  - intros (w & (a & b & ->) & H).
    pose proof (search_from_complete RE_DATA_DATE (w ++ b)
                  (fun n p => attempt_date_word n p w b H) a 0 None) as N.
    unfold search. destruct (search_from RE_DATA_DATE 0 None (a ++ w ++ b));
      [reflexivity | contradiction].
Qed.

Lemma date_flag_spec name cols :
  is_date_col name && (count_name name cols =? 1) = true
  <-> date_named name /\ count_name name cols = 1.
Proof.
  rewrite andb_true_iff, Nat.eqb_eq, is_date_col_iff. reflexivity.
Qed.

Lemma nth_map_at {A B : Type} (g : A -> B) (l : list A) j x d :
  nth_error l j = Some x -> nth j (map g l) d = g x.
Proof.
  intros H. apply nth_error_nth. apply map_nth_error. exact H.
Qed.

Lemma normalize_date_columns_exact dtparse f i cells :
  In (i, cells) (rows (normalize_date_columns dtparse f)) ->
  exists orig, In (i, orig) (rows f)
    /\ forall j name v,
         nth_error (columns f) j = Some name -> nth_error orig j = Some v ->
         nth_error cells j
         = Some (if is_date_col name && (count_name name (columns f) =? 1)
                 then normalize_date dtparse v else v).
Proof.
  unfold normalize_date_columns. cbn [rows]. intros H.
  apply in_map_iff in H. destruct H as ([i' orig] & E & Hin).
  cbn [fst snd] in E. injection E as -> <-.
  exists orig. split; [exact Hin|].
  intros j name v Hn Hv. rewrite apply_where_nth, Hv. cbn [option_map].
  rewrite (nth_map_at _ _ j name false Hn). reflexivity.
Qed.

Lemma holdings_subtable_dates dtparse df portfolio r c data t i cells :
  holdings_subtable dtparse df portfolio r c data = Some t ->
  In (i, cells) (rows t) ->
  exists orig, In (i, orig) data
    /\ forall j name v,
         nth_error (columns t) (3 + j) = Some name -> nth_error orig j = Some v ->
         nth_error cells (3 + j)
         = Some (if is_date_col name && (count_name name (columns t) =? 1)
                 then normalize_date dtparse v else v).
Proof.
  unfold holdings_subtable, frame_insert. cbn [columns rows bind].
  destruct (mem (lit "Portfolio") _); [discriminate|].
  cbn [bind columns rows insert_at firstn skipn app].
  destruct (mem (lit "AssetType") _); [discriminate|].
  cbn [bind columns rows insert_at firstn skipn app].
  destruct (mem (lit "AssetName") _); [discriminate|].
  cbn [bind]. intros H Hin. injection H as <-.
  apply normalize_date_columns_exact in Hin.
  destruct Hin as (orig' & Hin & C).
  cbn [rows] in Hin. rewrite !map_map in Hin. cbn [fst snd] in Hin.
  apply in_map_iff in Hin. destruct Hin as ([i' orig] & E & Hin).
  cbn [fst snd] in E. injection E as -> <-.
  exists orig. split; [exact Hin|].
  intros j name v Hn Hv.
  rewrite (proj2 (normalize_date_columns_rows dtparse _)) in Hn |- *.
  exact (C (3 + j) name v Hn Hv).
Qed.

Lemma count_name_cons_other name x cols :
  name <> x -> count_name name (x :: cols) = count_name name cols.
Proof.
  intros N. unfold count_name. cbn [filter].
  apply str_eqb_neq in N. rewrite N. reflexivity.
Qed.

Lemma transactions_subtable_dates dtparse df portfolio start body t i cells :
  transactions_subtable dtparse df portfolio start body = Some t ->
  In (i, cells) (rows t) ->
  exists orig, In (i, orig) body
    /\ forall j name v,
         nth_error (columns t) (1 + j) = Some name -> nth_error orig j = Some v ->
         nth_error cells (1 + j)
         = Some (if is_date_col name && (count_name name (columns t) =? 1)
                 then normalize_date dtparse v else v).
Proof.
  unfold transactions_subtable, frame_insert.
  destruct (mem (lit "Portfolio") _) eqn:M; [discriminate|].
  intros H Hin. injection H as <-.
  cbn [rows columns insert_at firstn skipn app] in *.
  apply in_map_iff in Hin. destruct Hin as ([i' cells1] & E & Hin).
  cbn [fst snd] in E. injection E as -> <-.
  apply normalize_date_columns_exact in Hin.
  destruct Hin as (orig' & Hin & C).
  apply expand_details_cells in Hin.
  destruct Hin as (orig & extra & new_cols & Hin & -> & _ & _).
  cbn [rows] in Hin. exists orig. split; [exact Hin|].
  intros j name v Hn Hv. cbn [Nat.add nth_error] in Hn |- *.
  assert (Hv' : nth_error (orig ++ extra) j = Some v).
  { rewrite nth_error_app1; [exact Hv|]. apply nth_error_Some. congruence. }
  rewrite (C j name v Hn Hv').
  rewrite count_name_cons_other; [reflexivity|].
  intros ->. apply (mem_false_not_In _ _ M).
  apply nth_error_In in Hn. exact Hn.
Qed.

(** In the tables of both sheet parsers, a cell of a sheet row is
    passed through [normalize_date] exactly when the name of its column
    holds, anywhere and in any letter case, the word DATA or the word
    DATE, and that name is the name of no other column of the table;
    every other cell of the sheet row is emitted as it is. *)
Theorem date_columns_normalised (dtparse : str -> option date)
    (df : grid) (portfolio : str) (ts : list frame) (shift : nat) (t : frame)
    (i : nat) (cells orig : list cell) (j : nat) (name : str) (v : cell) :
  (parse_holdings_sheet dtparse df portfolio = Some ts /\ shift = 3)
  \/ (parse_transactions_sheet dtparse df portfolio = Some ts /\ shift = 1) ->
  In t ts -> In (i, cells) (rows t) ->
  nth_error df i = Some orig ->
  nth_error (columns t) (shift + j) = Some name ->
  nth_error orig j = Some v ->
  (date_named name /\ count_name name (columns t) = 1 ->
   nth_error cells (shift + j) = Some (normalize_date dtparse v))
  /\ (~ (date_named name /\ count_name name (columns t) = 1) ->
      nth_error cells (shift + j) = Some v).
Proof.
  intros H Ht Hr Ho Hn Hv.
  assert (K : nth_error cells (shift + j)
              = Some (if is_date_col name && (count_name name (columns t) =? 1)
                      then normalize_date dtparse v else v)).
  { destruct H as [(H & ->) | (H & ->)].
    - unfold parse_holdings_sheet in H.
      destruct (holdings_loop_in _ _ _ _ _ _ H Ht) as (r & c & n & S).
      destruct (holdings_subtable_dates _ _ _ _ _ _ _ _ _ S Hr) as (o & Hin & C).
      apply in_holdings_body in Hin. destruct Hin as (_ & Hin & _).
      assert (o = orig) by congruence. subst o. exact (C j name v Hn Hv).
    - unfold parse_transactions_sheet in H.
      destruct (ncols df); [discriminate H|].
      destruct (transactions_loop_in _ _ _ _ _ _ H Ht) as (s & e & _ & S).
      destruct (transactions_subtable_dates _ _ _ _ _ _ _ _ S Hr) as (o & Hin & C).
      apply in_transactions_body in Hin. destruct Hin as (_ & Hin & _).
      assert (o = orig) by congruence. subst o. exact (C j name v Hn Hv). }
  rewrite K.
  destruct (is_date_col name && (count_name name (columns t) =? 1)) eqn:B.
  - split; [reflexivity|]. intros N. exfalso. apply N.
    apply date_flag_spec. exact B.
  - split; [|reflexivity]. intros D. apply date_flag_spec in D. congruence.
Qed.

Lemma date_columns_normalised_witness :
  exists ts t cells,
    parse_holdings_sheet parse_dmy sheet_two_anchors (lit "77") = Some ts
    /\ In t ts /\ In (2, cells) (rows t)
    /\ nth_error (columns t) 5 = Some (lit "Data Compra")
    /\ nth_error cells 5 = Some (CStr (lit "15/05/2023"))
    /\ nth_error cells 4 = Some (CStr (lit "BR0001")).
Proof.
  set (ts := match parse_holdings_sheet parse_dmy sheet_two_anchors (lit "77") with
             | Some ts => ts
             | None => []
             end).
  assert (E : parse_holdings_sheet parse_dmy sheet_two_anchors (lit "77") = Some ts)
    by (vm_compute; reflexivity).
  set (t := hd (Frame [] []) ts).
  assert (Ht : In t ts) by (vm_compute; left; reflexivity).
  set (cells := snd (hd (0, []) (rows t))).
  assert (Hr : In (2, cells) (rows t)) by (vm_compute; left; reflexivity).
  assert (Hn : nth_error (columns t) (3 + 2) = Some (lit "Data Compra"))
    by (vm_compute; reflexivity).
  assert (Hm : nth_error (columns t) (3 + 1) = Some (lit "isin"))
    by (vm_compute; reflexivity).
  exists ts, t, cells.
  split; [exact E|]. split; [exact Ht|]. split; [exact Hr|].
  split; [exact Hn|]. split.
  - apply (proj1 (date_columns_normalised parse_dmy sheet_two_anchors (lit "77")
                    ts 3 t 2 cells
                    [CEmpty; CStr (lit "BR0001"); CStr (lit "15MAI23")]
                    2 (lit "Data Compra") (CStr (lit "15MAI23"))
                    (or_introl (conj E eq_refl)) Ht Hr eq_refl Hn eq_refl)).
    split; [|vm_compute; reflexivity].
    exists (lit "Data"). split; [|left; reflexivity].
    exists [], (lit " Compra"). reflexivity.
  - apply (proj2 (date_columns_normalised parse_dmy sheet_two_anchors (lit "77")
                    ts 3 t 2 cells
                    [CEmpty; CStr (lit "BR0001"); CStr (lit "15MAI23")]
                    1 (lit "isin") (CStr (lit "BR0001"))
                    (or_introl (conj E eq_refl)) Ht Hr eq_refl Hm eq_refl)).
    intros (D & _). apply is_date_col_iff in D. vm_compute in D. discriminate D.
Defined.
